(** * Persistence adapter of the chat server: deletion log, credentials,
      tag search and identifier codec

    A shallow embedding of [server/db/postgres/adapter.go].  Tables are lists
    of rows in storage order, a statement is the list operation it denotes,
    and every adapter method is a function from the stored state to a result
    and the next stored state.

    The relational engine is the adapter's collaborator, so it is modelled by
    its relational meaning only: it is total, placeholder [$k] is bound to the
    k-th argument of the call, a column never equals an argument of another
    kind, and the errors it raises are the violations of the constraints
    declared in [CreateDb] and the refusal of a statement that assigns to a
    column a value of another kind than the column has ([done=0] for a
    boolean).  Quoting of identifiers that only one dialect accepts is read
    for what it denotes, and an empty statement yields no row.  A query
    without [ORDER BY] yields rows in storage order, and [ORDER BY] is
    stable: rows with equal keys stay in storage order.

    Where the adapter rewrites the placeholder numbers of a statement after
    it has built its arguments ([credDel], [messageDeleteList]), the text of
    the condition is built as the code builds it and the numbers are read
    back from the text.  Where it hands a statement to [sqlx.In], the
    statement is given to [Sqlx.In] as the code writes it.

    The code of packages [store] and [types] is outside this file: their
    functions are the fields of [Packages], and what the specification says
    of the identifier codec is [codec_contract].

    The second part of the definitions covers the authentication records,
    the devices, the file uploads, the creation and sharing of topics and the
    deletion of subscriptions and topics.  The tables these methods add are
    kept in [Store], around the state of the other methods; [json.Marshal]
    and the owner bit of an access mode are parameters of the methods that
    use them. *)

From Stdlib Require Import ZArith List String Ascii Bool Lia Arith Sorted.
Import ListNotations.
Local Open Scope string_scope.
Local Open Scope Z_scope.

(** ** Go primitives *)

Module Go.

(** [int] and [int64] are 64 bits wide; arithmetic wraps silently. *)
Definition wrap64 (z : Z) : Z := (z + 2 ^ 63) mod 2 ^ 64 - 2 ^ 63.

Definition add (a b : Z) : Z := wrap64 (a + b).
Definition sub (a b : Z) : Z := wrap64 (a - b).

Definition MaxInt64 : Z := 2 ^ 63 - 1.
Definition MinInt64 : Z := - 2 ^ 63.

Definition digit (d : Z) : ascii := ascii_of_nat (48 + Z.to_nat d).

Definition digit_val (c : ascii) : option Z :=
  let n := nat_of_ascii c in
  if ((48 <=? n) && (n <=? 57))%nat then Some (Z.of_nat (n - 48)) else None.

Fixpoint digits (fuel : nat) (n : Z) (acc : string) : string :=
  match fuel with
  | O => acc
  | S f =>
      let acc' := String (digit (n mod 10)) acc in
      if n <? 10 then acc' else digits f (n / 10) acc'
  end.

Definition decimal (n : Z) : string :=
  digits (S (Z.to_nat (Z.log2 n))) n "".

(** [strconv.FormatInt(n, 10)] and [strconv.Itoa]. *)
Definition FormatInt (n : Z) : string :=
  if n <? 0 then String "-" (decimal (- n)) else decimal n.

Definition Itoa : Z -> string := FormatInt.

Fixpoint parse_acc (s : string) (v : Z) : option Z :=
  match s with
  | EmptyString => Some v
  | String c s' =>
      match digit_val c with
      | Some d => parse_acc s' (10 * v + d)
      | None => None
      end
  end.

Definition parse_digits (s : string) : option Z :=
  match s with
  | EmptyString => None
  | _ => parse_acc s 0
  end.

(** [strconv.ParseInt(s, 10, 64)]: the value and whether an error is
    reported.  A syntax error yields 0, a range error the nearest bound. *)
Definition split_sign (s : string) : bool * string :=
  match s with
  | String "+" r => (false, r)
  | String "-" r => (true, r)
  | _ => (false, s)
  end.

Definition ParseInt (s : string) : Z * bool :=
  let '(neg, body) := split_sign s in
  match parse_digits body with
  | None => (0, true)
  | Some un =>
      if neg then
        if 2 ^ 63 <? un then (MinInt64, true) else (- un, false)
      else
        if 2 ^ 63 <=? un then (MaxInt64, true) else (un, false)
  end.

Fixpoint drop (n : nat) (s : string) : string :=
  match n, s with
  | O, _ => s
  | S k, String _ s' => drop k s'
  | S _, EmptyString => EmptyString
  end.

(** [strings.Replace(s, old, new, 1)] for a non-empty [old]. *)
Fixpoint ReplaceFirst (s old new : string) : string :=
  match s with
  | EmptyString => EmptyString
  | String c s' =>
      if prefix old s then new ++ drop (String.length old) s
      else String c (ReplaceFirst s' old new)
  end.

Fixpoint rev_string (s acc : string) : string :=
  match s with
  | EmptyString => acc
  | String c s' => rev_string s' (String c acc)
  end.

Fixpoint trim_left (c : ascii) (s : string) : string :=
  match s with
  | String d s' => if Ascii.eqb c d then trim_left c s' else s
  | EmptyString => EmptyString
  end.

(** [strings.TrimRight(s, c)] for a one-character cutset. *)
Definition TrimRight (s : string) (c : ascii) : string :=
  rev_string (trim_left c (rev_string s "")) "".

(** The placeholder numbers of a statement, in order of appearance: each
    [$] followed by a run of digits. *)
Fixpoint take_number (s : string) (v : Z) : Z :=
  match s with
  | String c s' =>
      match digit_val c with
      | Some d => take_number s' (10 * v + d)
      | None => v
      end
  | EmptyString => v
  end.

Fixpoint placeholders (s : string) : list Z :=
  match s with
  | EmptyString => []
  | String c s' =>
      if Ascii.eqb c "$" then take_number s' 0 :: placeholders s'
      else placeholders s'
  end.

End Go.

(** ** Package [sqlx] *)

Module Sqlx.

(** The number of [?] marks in a statement. *)
Fixpoint marks (s : string) : nat :=
  match s with
  | EmptyString => 0
  | String c s' => (if Ascii.eqb c "?" then 1 else 0) + marks s'
  end.

(** The marks that stand for a slice of [n] values. *)
Fixpoint expanded (n : nat) : string :=
  match n with
  | O => ""
  | S O => "?"
  | S k => "?, " ++ expanded k
  end.

(** [sqlx.In(query, slice)] for a slice of [n] values: the statement with
    its mark replaced by [n] marks.  An empty slice, a statement without a
    mark and a statement with more marks than arguments are errors, and an
    error comes with an empty statement and no argument: [None]. *)
Definition In (query : string) (n : nat) : option string :=
  match n, marks query with
  | S _, 1%nat => Some (Go.ReplaceFirst query "?" (expanded n))
  | _, _ => None
  end.

End Sqlx.

(** ** Values, rows and the stored state *)

Definition Uid := Z.
Definition ZeroUid : Uid := 0.
Definition IsZero (u : Uid) : bool := u =? 0.

Definition time := Z.

Inductive sqlval :=
| VNull
| VInt (n : Z)
| VStr (s : string)
| VTime (t : time)
| VBool (b : bool).

(** [col = $k]: a column value against a bound argument. *)
Definition sql_eq (col arg : sqlval) : bool :=
  match col, arg with
  | VInt a, VInt b => a =? b
  | VStr a, VStr b => String.eqb a b
  | VTime a, VTime b => a =? b
  | VBool a, VBool b => Bool.eqb a b
  | _, _ => false
  end.

(** [col BETWEEN $i AND $j] on an integer column. *)
Definition sql_between (col lo hi : sqlval) : bool :=
  match col, lo, hi with
  | VInt c, VInt l, VInt h => (l <=? c) && (c <=? h)
  | _, _, _ => false
  end.

(** The kinds of column that [CreateDb] declares. *)
Inductive sqlkind := KInt | KStr | KTime | KBool.

(** [SET col=v]: a column takes a value of its own kind, or NULL. *)
Definition sql_assignable (col : sqlkind) (v : sqlval) : bool :=
  match col, v with
  | _, VNull => true
  | KInt, VInt _ | KStr, VStr _ | KTime, VTime _ | KBool, VBool _ => true
  | _, _ => false
  end.

(** The argument bound to placeholder [$k]; NULL when there is none. *)
Definition bind (args : list sqlval) (k : Z) : sqlval :=
  if k <=? 0 then VNull else nth (Z.to_nat (k - 1)) args VNull.

Definition is_null {A} (o : option A) : bool :=
  match o with None => true | Some _ => false end.

Record DefaultAccess := { Auth : Z; Anon : Z }.

Record user_row := {
  u_id : Z;
  u_createdat : time;
  u_updatedat : time;
  u_deletedat : option time;
  u_access : DefaultAccess;
  u_lastseen : option time;
  u_useragent : string;
  u_public : option string;
  u_tags : list string }.

Record usertag_row := { ut_userid : Z; ut_tag : string }.

Record topic_row := {
  t_createdat : time;
  t_updatedat : time;
  t_deletedat : option time;
  t_touchedat : option time;
  t_name : string;
  t_owner : Z;
  t_access : DefaultAccess;
  t_seqid : Z;
  t_delid : Z;
  t_public : option string;
  t_tags : list string }.

Record topictag_row := { tt_topic : string; tt_tag : string }.

Record sub_row := {
  s_createdat : time;
  s_updatedat : time;
  s_deletedat : option time;
  s_userid : Z;
  s_topic : string;
  s_delid : Z;
  s_recvseqid : Z;
  s_readseqid : Z;
  s_modewant : string;
  s_modegiven : string;
  s_private : option string }.

Record msg_row := {
  m_id : Z;
  m_createdat : time;
  m_updatedat : time;
  m_deletedat : option time;
  m_delid : Z;
  m_seqid : Z;
  m_topic : string;
  m_from : Z;
  m_head : option string;
  m_content : option string }.

Record dellog_row := {
  d_topic : string;
  d_deletedfor : Z;
  d_delid : Z;
  d_low : Z;
  d_hi : Z }.

Record cred_row := {
  c_createdat : time;
  c_updatedat : time;
  c_deletedat : option time;
  c_method : string;
  c_value : string;
  c_synthetic : string;
  c_userid : Z;
  c_resp : string;
  c_done : bool;
  c_retries : Z }.

Record fml_row := { f_fileid : Z; f_msgid : Z }.

Record DB := {
  users : list user_row;
  usertags : list usertag_row;
  topics : list topic_row;
  topictags : list topictag_row;
  subscriptions : list sub_row;
  messages : list msg_row;
  dellog : list dellog_row;
  credentials : list cred_row;
  filemsglinks : list fml_row }.

Definition set_messages (db : DB) (v : list msg_row) : DB :=
  {| users := users db; usertags := usertags db; topics := topics db;
     topictags := topictags db; subscriptions := subscriptions db;
     messages := v; dellog := dellog db; credentials := credentials db;
     filemsglinks := filemsglinks db |}.

Definition set_dellog (db : DB) (v : list dellog_row) : DB :=
  {| users := users db; usertags := usertags db; topics := topics db;
     topictags := topictags db; subscriptions := subscriptions db;
     messages := messages db; dellog := v; credentials := credentials db;
     filemsglinks := filemsglinks db |}.

Definition set_credentials (db : DB) (v : list cred_row) : DB :=
  {| users := users db; usertags := usertags db; topics := topics db;
     topictags := topictags db; subscriptions := subscriptions db;
     messages := messages db; dellog := dellog db; credentials := v;
     filemsglinks := filemsglinks db |}.

Definition set_filemsglinks (db : DB) (v : list fml_row) : DB :=
  {| users := users db; usertags := usertags db; topics := topics db;
     topictags := topictags db; subscriptions := subscriptions db;
     messages := messages db; dellog := dellog db;
     credentials := credentials db; filemsglinks := v |}.

Inductive engine_error :=
| UniqueViolation
| ForeignKeyViolation
| DatatypeMismatch.

Inductive error :=
| ErrDuplicate
| ErrNotFound
| ErrMalformed
| ErrEngine (e : engine_error).

(** [ORDER BY]: a stable insertion sort under the given order. *)
Fixpoint insert_by {A} (le : A -> A -> bool) (x : A) (l : list A) : list A :=
  match l with
  | [] => [x]
  | y :: l' => if le x y then x :: l else y :: insert_by le x l'
  end.

Definition sort_by {A} (le : A -> A -> bool) (l : list A) : list A :=
  fold_right (insert_by le) [] l.

(** [LIMIT n]. *)
Definition limit_rows {A} (n : Z) (l : list A) : list A :=
  firstn (Z.to_nat n) l.

(** [l LEFT JOIN r ON on]: every pairing that satisfies [on], and a row of
    [l] without partner once, padded with NULLs. *)
Definition left_join {A B} (on : A -> B -> bool) (l : list A) (r : list B)
  : list (A * option B) :=
  flat_map (fun x =>
    match filter (on x) r with
    | [] => [(x, None)]
    | ys => map (fun y => (x, Some y)) ys
    end) l.

(** ** Values of the service: package [types] *)

Inductive TopicCat := TopicCatMe | TopicCatFnd | TopicCatP2P | TopicCatGrp.

Definition TopicCat_eqb (a b : TopicCat) : bool :=
  match a, b with
  | TopicCatMe, TopicCatMe | TopicCatFnd, TopicCatFnd
  | TopicCatP2P, TopicCatP2P | TopicCatGrp, TopicCatGrp => true
  | _, _ => false
  end.

(** A Go [interface{}] as the adapter produces them: nil, a decoded JSON
    document, or a slice of strings. *)
Inductive iface :=
| INil
| IJson (doc : string)
| IStrings (l : list string).

Record ObjHeader := {
  CreatedAt : time;
  UpdatedAt : time;
  DeletedAt : option time }.

Record Subscription := {
  sub_header : ObjHeader;
  User : string;
  Topic : string;
  DelId : Z;
  RecvSeqId : Z;
  ReadSeqId : Z;
  ModeWant : string;
  ModeGiven : string;
  Private : iface;
  sub_public : iface;
  sub_with : string;
  sub_seqId : Z;
  sub_touchedAt : option time;
  sub_modeDefault : option DefaultAccess;
  sub_lastSeen : option time;
  sub_userAgent : string }.

Record Message := {
  msg_header : ObjHeader;
  msg_DelId : Z;
  SeqId : Z;
  msg_Topic : string;
  From : string;
  Head : option string;
  Content : iface }.

Record Range := { Low : Z; Hi : Z }.

Record DelMessage := {
  dm_Topic : string;
  dm_DeletedFor : string;
  dm_DelId : Z;
  dm_SeqIdRanges : list Range }.

Record QueryOpt := {
  opt_User : Uid;
  opt_Topic : string;
  opt_Since : Z;
  opt_Before : Z;
  opt_Limit : Z }.

Record UserRec := {
  usr_header : ObjHeader;
  usr_Id : string;
  usr_uid : Uid;
  usr_Access : DefaultAccess;
  usr_LastSeen : option time;
  usr_UserAgent : string;
  usr_Public : iface;
  usr_Tags : list string }.

Record TopicRec := {
  top_header : ObjHeader;
  top_TouchedAt : option time;
  top_Id : string;
  top_Owner : string;
  top_Access : DefaultAccess;
  top_SeqId : Z;
  top_DelId : Z;
  top_Public : iface;
  top_Tags : list string }.

Record Credential := {
  cr_CreatedAt : time;
  cr_UpdatedAt : time;
  cr_User : string;
  cr_Method : string;
  cr_Value : string;
  cr_Resp : string;
  cr_Done : bool;
  cr_Retries : Z }.

(** The adapter itself: what is left of it once the connection is the
    stored state passed to every call. *)
Record adapter := { maxResults : Z }.

(** The functions of packages [store], [types] and [encoding/json] that the
    adapter calls; their code is outside [adapter.go]. *)
Class Packages := {
  EncodeUid : Z -> Uid;
  DecodeUid : Uid -> Z;
  ParseUid : string -> Uid;
  UidString : Uid -> string;
  GetTopicCat : string -> TopicCat;
  ParseP2P : string -> Uid * Uid;
  P2PName : Uid -> Uid -> string;
  MergeTimes : ObjHeader -> ObjHeader -> ObjHeader;
  Subscription_Uid : Subscription -> Uid;
  Unmarshal : string -> iface }.

(** Modelled from the spec: the contract of the identifier codec, whose code
    ([store.EncodeUid], [store.DecodeUid], [types.ParseUid], [Uid.String]) is
    absent from src/.  Encoding and decoding are mutual inverses on the valid
    numeric ids, the two zeros correspond, identifiers are unsigned, the text
    form of an identifier parses back to it, and any other text parses to the
    zero identifier. *)
Definition codec_contract {P : Packages} : Prop :=
  (forall n, 1 <= n <= Go.MaxInt64 -> DecodeUid (EncodeUid n) = n) /\
  EncodeUid 0 = ZeroUid /\
  DecodeUid ZeroUid = 0 /\
  (forall n, 0 <= n -> 0 <= EncodeUid n) /\
  (forall u, 0 <= u -> ParseUid (UidString u) = u) /\
  (forall s, (forall u, UidString u <> s) -> ParseUid s = ZeroUid).

(** A string that [strconv.ParseInt] rejects for its syntax. *)
Definition non_numeric (s : string) : Prop :=
  Go.parse_digits (snd (Go.split_sign s)) = None.

Section Adapter.

Context {P : Packages}.

(** ** Helper functions of the adapter *)

Definition fromJSON (src : option string) : iface :=
  match src with
  | None => INil
  | Some bb => Unmarshal bb
  end.

Definition encodeUidString (str : string) : Uid :=
  let '(unum, _) := Go.ParseInt str in
  EncodeUid unum.

Definition decodeUidString (str : string) : Z :=
  let uid := ParseUid str in
  DecodeUid uid.

(** The window and the limit shared by the two message readers; [b] is the
    least [Before] that narrows the window. *)
Definition query_window (a : adapter) (b : Z) (opts : option QueryOpt)
  : Z * Z * Z :=
  let limit := maxResults a in
  let lower := 0 in
  let upper := 2 ^ 31 in
  match opts with
  | None => (lower, upper, limit)
  | Some o =>
      let lower := if 0 <? opt_Since o then opt_Since o else lower in
      let upper := if b <? opt_Before o then Go.sub (opt_Before o) 1
                   else upper in
      let limit := if (0 <? opt_Limit o) && (opt_Limit o <? limit)
                   then opt_Limit o else limit in
      (lower, upper, limit)
  end.

(** ** Messages *)

Definition scan_message (m : msg_row) : Message :=
  {| msg_header := {| CreatedAt := m_createdat m; UpdatedAt := m_updatedat m;
                      DeletedAt := m_deletedat m |};
     msg_DelId := m_delid m;
     SeqId := m_seqid m;
     msg_Topic := m_topic m;
     From := UidString (encodeUidString (Go.FormatInt (m_from m)));
     Head := m_head m;
     Content := fromJSON (m_content m) |}.

(** [ON d.topic=m.topic AND m.seqid BETWEEN d.low AND d.hi-1 AND
    d.deletedfor=$1]. *)
Definition dellog_covers (unum : Z) (m : msg_row) (d : dellog_row) : bool :=
  String.eqb (d_topic d) (m_topic m) &&
  ((d_low d <=? m_seqid m) && (m_seqid m <=? d_hi d - 1)) &&
  (d_deletedfor d =? unum).

Definition MessageGetAll (a : adapter) (db : DB) (topic : string)
    (forUser : Uid) (opts : option QueryOpt) : list Message * option error :=
  let '(lower, upper, limit) := query_window a 0 opts in
  let unum := DecodeUid forUser in
  let joined := left_join (dellog_covers unum) (messages db) (dellog db) in
  let kept :=
    filter (fun md : msg_row * option dellog_row =>
      let (m, d) := md in
      (m_delid m =? 0) && String.eqb (m_topic m) topic &&
      ((lower <=? m_seqid m) && (m_seqid m <=? upper)) &&
      is_null d) joined in
  let ordered :=
    sort_by (fun x y : msg_row * option dellog_row =>
               m_seqid (fst y) <=? m_seqid (fst x)) kept in
  let rows := limit_rows limit ordered in
  (map (fun md => scan_message (fst md)) rows, None).

(** The messages of a topic that a listing for [forUser] is drawn from:
    not deleted for everyone, inside the window, and outside every range
    logged for that user. *)
Definition visible_messages (a : adapter) (db : DB) (topic : string)
    (forUser : Uid) (opts : option QueryOpt) : list msg_row :=
  let '(lower, upper, _) := query_window a 0 opts in
  filter (fun m =>
    (m_delid m =? 0) && String.eqb (m_topic m) topic &&
    ((lower <=? m_seqid m) && (m_seqid m <=? upper)) &&
    forallb (fun d => negb (dellog_covers (DecodeUid forUser) m d))
      (dellog db)) (messages db).

(** The read loop of [MessageGetDeleted]: [dmsg] is declared once before
    the loop and only its [DelId], [Topic] and, for a positive [deletedfor],
    [DeletedFor] are assigned when a new [delid] starts; its ranges keep
    growing. *)
Definition deleted_step (st : list DelMessage * DelMessage) (row : dellog_row)
  : list DelMessage * DelMessage :=
  let '(dmsgs, dmsg) := st in
  let '(dmsgs, dmsg) :=
    if negb (d_delid row =? dm_DelId dmsg) then
      (if 0 <? dm_DelId dmsg then (dmsgs ++ [dmsg])%list else dmsgs,
       {| dm_Topic := d_topic row;
          dm_DeletedFor :=
            if 0 <? d_deletedfor row
            then UidString (EncodeUid (d_deletedfor row))
            else dm_DeletedFor dmsg;
          dm_DelId := d_delid row;
          dm_SeqIdRanges := dm_SeqIdRanges dmsg |})
    else (dmsgs, dmsg) in
  let hi := if d_hi row <=? Go.add (d_low row) 1 then 0 else d_hi row in
  (dmsgs,
   {| dm_Topic := dm_Topic dmsg;
      dm_DeletedFor := dm_DeletedFor dmsg;
      dm_DelId := dm_DelId dmsg;
      dm_SeqIdRanges :=
        (dm_SeqIdRanges dmsg ++ [{| Low := d_low row; Hi := hi |}])%list |}).

Definition zero_DelMessage : DelMessage :=
  {| dm_Topic := ""; dm_DeletedFor := ""; dm_DelId := 0;
     dm_SeqIdRanges := [] |}.

Definition MessageGetDeleted (a : adapter) (db : DB) (topic : string)
    (forUser : Uid) (opts : option QueryOpt)
  : list DelMessage * option error :=
  let '(lower, upper, limit) := query_window a 1 opts in
  let unum := DecodeUid forUser in
  let rows :=
    limit_rows limit
      (sort_by (fun x y => d_delid x <=? d_delid y)
         (filter (fun d =>
            String.eqb (d_topic d) topic &&
            ((lower <=? d_delid d) && (d_delid d <=? upper)) &&
            ((d_deletedfor d =? 0) || (d_deletedfor d =? unum)))
            (dellog db))) in
  let '(dmsgs, dmsg) := fold_left deleted_step rows ([], zero_DelMessage) in
  let dmsgs := if 0 <? dm_DelId dmsg then (dmsgs ++ [dmsg])%list else dmsgs in
  (dmsgs, None).

(** What a function working inside a transaction leaves behind: the error it
    returns with the working state, or a run-time panic. *)
Inductive txresult :=
| TxDone (err : option error) (tx : DB)
| TxPanic.

(** What a method that owns its transaction leaves behind: the error it
    returns with the committed state, or a run-time panic. *)
Inductive outcome :=
| Returned (err : option error) (db : DB)
| Panicked.

Definition topic_exists (tx : DB) (topic : string) : bool :=
  existsb (fun t => String.eqb (t_name t) topic) (topics tx).

(** [INSERT INTO dellog]; [topic] references [topics(name)]. *)
Definition insert_dellog (tx : DB) (row : dellog_row) : DB + error :=
  if topic_exists tx (d_topic row)
  then inl (set_dellog tx (dellog tx ++ [row])%list)
  else inr (ErrEngine ForeignKeyViolation).

(** The write loop of [messageDeleteList]: the count of deleted messages, the
    error that stopped it and the working state. *)
Fixpoint log_ranges (tx : DB) (topic : string) (forUser delId : Z)
    (rs : list Range) (seqCount : Z) : Z * option error * DB :=
  match rs with
  | [] => (seqCount, None, tx)
  | rng :: rest =>
      let hi := if Hi rng =? 0 then Go.add (Low rng) 1 else Hi rng in
      let seqCount := Go.add seqCount (Go.sub hi (Low rng)) in
      match insert_dellog tx
              {| d_topic := topic; d_deletedfor := forUser; d_delid := delId;
                 d_low := Low rng; d_hi := hi |} with
      | inl tx' => log_ranges tx' topic forUser delId rest seqCount
      | inr e => (seqCount, Some e, tx)
      end
  end.

(** The sequence ids one range contributes to the [IN] list. *)
Definition range_ids (r : Range) : list Z :=
  if Hi r =? 0 then [Low r]
  else map (fun k => Low r + Z.of_nat k) (seq 0 (Z.to_nat (Hi r - Low r))).

Fixpoint in_list (n : nat) (queryVar : Z) (where_ : string) : Z * string :=
  match n with
  | O => (queryVar, where_)
  | S k =>
      let queryVar := Go.add queryVar 1 in
      in_list k queryVar (where_ ++ "$" ++ Go.Itoa queryVar ++ ",")
  end.

(** [for i := 1; i <= queryVar; i++ { s = strings.Replace(s, "$"+i,
    "$"+(i+shift), 1) }]. *)
Fixpoint renumber (n : nat) (i shift : Z) (s : string) : string :=
  match n with
  | O => s
  | S k =>
      renumber k (i + 1) shift
        (Go.ReplaceFirst s ("$" ++ Go.Itoa i) ("$" ++ Go.Itoa (i + shift)))
  end.

(** The condition on [messages AS m] that the text [where_] denotes: the
    topic against the first placeholder, the sequence id within the two
    bounds or among the listed placeholders, and no deletion time. *)
Definition messages_where (where_ : string) (args : list sqlval)
    (m : msg_row) : bool :=
  match Go.placeholders where_ with
  | pt :: rest =>
      sql_eq (VStr (m_topic m)) (bind args pt) &&
      match index 0 " BETWEEN " where_ with
      | Some _ =>
          match rest with
          | [plo; phi] =>
              sql_between (VInt (m_seqid m)) (bind args plo) (bind args phi)
          | _ => false
          end
      | None =>
          existsb (fun p => sql_eq (VInt (m_seqid m)) (bind args p)) rest
      end &&
      is_null (m_deletedat m)
  | [] => false
  end.

(** The part of [messageDeleteList] that rewrites the message rows when
    messages are deleted for everyone. *)
Definition hard_delete (tx : DB) (topic : string) (toDel : DelMessage)
    (seqCount : Z) (now : time) : txresult :=
  let where_ := "m.topic=$1 AND " in
  let args := [VStr topic] in
  let ranges := dm_SeqIdRanges toDel in
  let branch :=
    if (1 <? Z.of_nat (List.length ranges))%Z then Some true
    else match ranges with
         | r0 :: _ => Some (Hi r0 =? 0)
         | [] => None
         end in
  match branch with
  | None => TxPanic
  | Some listed =>
      let '(queryVar, where_, args) :=
        if listed then
          let args := (args ++ map VInt (flat_map range_ids ranges))%list in
          let where_ := where_ ++ "m.seqid IN (" in
          let '(queryVar, where_) :=
            in_list (Z.to_nat seqCount) 0 where_ in
          let where_ := Go.TrimRight where_ "," in
          (queryVar, where_ ++ ")", args)
        else
          let r0 := hd {| Low := 0; Hi := 0 |} ranges in
          (2, where_ ++ "m.seqid BETWEEN $2 AND $3",
           (args ++ [VInt (Low r0); VInt (Go.sub (Hi r0) 1)])%list) in
      let where_ := where_ ++ " AND m.deletedAt IS NULL" in
      (* DELETE fml.* FROM filemsglinks AS fml INNER JOIN messages AS m *)
      let tx :=
        set_filemsglinks tx
          (filter (fun l =>
             negb (existsb (fun m => (m_id m =? f_msgid l) &&
                                     messages_where where_ args m)
                     (messages tx)))
             (filemsglinks tx)) in
      let where_ := renumber (Z.to_nat queryVar) 1 2 where_ in
      let args := ([VTime now; VInt (dm_DelId toDel)] ++ args)%list in
      (* UPDATE messages AS m SET deletedAt=$1,delId=$2,head=NULL,content=NULL *)
      let tx :=
        set_messages tx
          (map (fun m =>
             if messages_where where_ args m then
               {| m_id := m_id m; m_createdat := m_createdat m;
                  m_updatedat := m_updatedat m; m_deletedat := Some now;
                  m_delid := dm_DelId toDel; m_seqid := m_seqid m;
                  m_topic := m_topic m; m_from := m_from m;
                  m_head := None; m_content := None |}
             else m) (messages tx)) in
      TxDone None tx
  end.

Definition messageDeleteList (tx : DB) (topic : string)
    (toDel : option DelMessage) (now : time) : txresult :=
  match toDel with
  | None =>
      (* DELETE FROM dellog WHERE topic=$1 *)
      let tx :=
        set_dellog tx
          (filter (fun d =>
             negb (sql_eq (VStr (d_topic d)) (bind [VStr topic] 1)))
             (dellog tx)) in
      (* DELETE FROM messages WHERE topic=$2 *)
      let tx :=
        set_messages tx
          (filter (fun m =>
             negb (sql_eq (VStr (m_topic m)) (bind [VStr topic] 2)))
             (messages tx)) in
      TxDone None tx
  | Some toDel =>
      let forUser := decodeUidString (dm_DeletedFor toDel) in
      let '(seqCount, err, tx) :=
        log_ranges tx topic forUser (dm_DelId toDel)
          (dm_SeqIdRanges toDel) 0 in
      if is_null err && String.eqb (dm_DeletedFor toDel) ""
      then hard_delete tx topic toDel seqCount now
      else TxDone err tx
  end.

(** Commit on success, roll back on an error. *)
Definition in_transaction (db : DB) (r : txresult) : outcome :=
  match r with
  | TxDone None tx => Returned None tx
  | TxDone (Some e) _ => Returned (Some e) db
  | TxPanic => Panicked
  end.

Definition MessageDeleteList (db : DB) (topic : string)
    (toDel : option DelMessage) (now : time) : outcome :=
  in_transaction db (messageDeleteList db topic toDel now).

(** ** Credentials *)

Definition isDupe (err : option error) : bool :=
  match err with
  | None => false
  | Some _ => false
  end.

(** [INSERT INTO credentials]: [synthetic] is unique and [userid] references
    [users(id)]. *)
Definition insert_credential (tx : DB) (row : cred_row) : DB + error :=
  if existsb (fun c => String.eqb (c_synthetic c) (c_synthetic row))
       (credentials tx)
  then inr (ErrEngine UniqueViolation)
  else if existsb (fun u => u_id u =? c_userid row) (users tx)
  then inl (set_credentials tx (credentials tx ++ [row])%list)
  else inr (ErrEngine ForeignKeyViolation).

(** [SET deletedat=$1]. *)
Definition mark_deleted (now : time) (c : cred_row) : cred_row :=
  {| c_createdat := c_createdat c; c_updatedat := c_updatedat c;
     c_deletedat := Some now; c_method := c_method c; c_value := c_value c;
     c_synthetic := c_synthetic c; c_userid := c_userid c;
     c_resp := c_resp c; c_done := c_done c; c_retries := c_retries c |}.

(** [SET updatedat=$1,deletedat=NULL,resp=$2,done=0]. *)
Definition undelete (cred : Credential) (c : cred_row) : cred_row :=
  {| c_createdat := c_createdat c; c_updatedat := cr_UpdatedAt cred;
     c_deletedat := None; c_method := c_method c; c_value := c_value c;
     c_synthetic := c_synthetic c; c_userid := c_userid c;
     c_resp := cr_Resp cred; c_done := false; c_retries := c_retries c |}.

(** [UPDATE credentials SET deletedat=$1 WHERE userid=$2 AND method=$3 AND
    done=false], row by row. *)
Definition deactivate (userId : Z) (method : string) (now : time)
    (c : cred_row) : cred_row :=
  if (c_userid c =? userId) && String.eqb (c_method c) method &&
     negb (c_done c)
  then mark_deleted now c else c.

(** [UPDATE credentials SET updatedat=$1,deletedat=NULL,resp=$2,done=0 WHERE
    synthetic=$3] with the number of rows it affects.  Column [done] is
    declared [BOOLEAN] and [0] is an integer, so the engine refuses the
    statement, whatever the rows. *)
Definition revive (tx : DB) (cred : Credential) (synth : string)
  : (nat * DB) + error :=
  if sql_assignable KBool (VInt 0) then
    inl (List.length
           (filter (fun c => String.eqb (c_synthetic c) synth)
              (credentials tx)),
         set_credentials tx
           (map (fun c => if String.eqb (c_synthetic c) synth
                          then undelete cred c else c) (credentials tx)))
  else inr (ErrEngine DatatypeMismatch).

(** The row of [INSERT INTO credentials(createdat,updatedat,method,value,
    synthetic,userid,resp,done)]. *)
Definition new_credential (cred : Credential) (synth : string) (userId : Z)
  : cred_row :=
  {| c_createdat := cr_CreatedAt cred; c_updatedat := cr_UpdatedAt cred;
     c_deletedat := None; c_method := cr_Method cred;
     c_value := cr_Value cred; c_synthetic := synth; c_userid := userId;
     c_resp := cr_Resp cred; c_done := cr_Done cred; c_retries := 0 |}.

(** An error of the statement in [revive] is returned through a variable
    [err] of the inner block; the deferred function looks at the outer one,
    so the transaction is neither rolled back nor committed and nothing of
    it is stored. *)
Definition CredUpsert (db : DB) (cred : Credential) (now : time)
  : bool * option error * DB :=
  let tx := db in
  let userId := decodeUidString (cr_User cred) in
  let synth := cr_Method cred ++ ":" ++ cr_Value cred in
  let insert (tx : DB) (synth : string) :=
    match insert_credential tx (new_credential cred synth userId) with
    | inr e =>
        if isDupe (Some e) then (true, Some ErrDuplicate, db)
        else (true, Some e, db)
    | inl tx => (true, None, tx)
    end in
  if negb (cr_Done cred) then
    (* SELECT done FROM credentials WHERE synthetic=$1 *)
    match filter (fun c => String.eqb (c_synthetic c) synth)
            (credentials tx) with
    | _ :: _ => (false, Some ErrDuplicate, db)
    | [] =>
        let synth := cr_User cred ++ ":" ++ synth in
        let tx :=
          set_credentials tx
            (map (deactivate userId (cr_Method cred) now) (credentials tx)) in
        match revive tx cred synth with
        | inr e => (false, Some e, db)
        | inl (numrows, tx) =>
            if (0 <? numrows)%nat then (false, None, tx)
            else insert tx synth
        end
    end
  else
    (* DELETE FROM credentials WHERE synthetic=$1 *)
    let tx :=
      set_credentials tx
        (filter (fun c =>
           negb (String.eqb (c_synthetic c) (cr_User cred ++ ":" ++ synth)))
           (credentials tx)) in
    insert tx synth.

(** The condition on [credentials] that the text [constraints] denotes:
    [userid], [method] and [value], as many as the text names, each against
    the placeholder written next to it. *)
Definition credentials_where (constraints : string) (args : list sqlval)
    (c : cred_row) : bool :=
  forallb (fun cp : sqlval * Z => sql_eq (fst cp) (bind args (snd cp)))
    (combine [VInt (c_userid c); VStr (c_method c); VStr (c_value c)]
       (Go.placeholders constraints)).

(** After the renumbering, the statement of case 2.2 sets [userid] against
    the value, [method] against the numeric id and [value] against the
    method: columns against arguments of another kind, which match no row. *)
Definition credDel (tx : DB) (uid : Uid) (method value : string)
    (now : time) : option error * DB :=
  let constraints := " WHERE userid=$1" in
  let queryVar := 1 in
  let args := [VInt (DecodeUid uid)] in
  let '(queryVar, constraints, args) :=
    if negb (String.eqb method "") then
      let queryVar := queryVar + 1 in
      let constraints := constraints ++ " AND method=$" ++ Go.Itoa queryVar in
      let args := (args ++ [VStr method])%list in
      if negb (String.eqb value "") then
        let queryVar := queryVar + 1 in
        (queryVar, constraints ++ " AND value=$" ++ Go.Itoa queryVar,
         (args ++ [VStr value])%list)
      else (queryVar, constraints, args)
    else (queryVar, constraints, args) in
  if String.eqb method "" then
    (* DELETE FROM credentials WHERE ... *)
    (None,
     set_credentials tx
       (filter (fun c => negb (credentials_where constraints args c))
          (credentials tx)))
  else
    (* Case 2.1: DELETE FROM credentials WHERE ... AND (done=true OR retries=0) *)
    let tx :=
      set_credentials tx
        (filter (fun c =>
           negb (credentials_where constraints args c &&
                 (c_done c || (c_retries c =? 0))))
           (credentials tx)) in
    let constraints := renumber (Z.to_nat queryVar) 1 1 constraints in
    (* Case 2.2: UPDATE credentials SET deletedat=$1 WHERE ... *)
    let args := ([VTime now] ++ args)%list in
    (None,
     set_credentials tx
       (map (fun c =>
          if credentials_where constraints args c
          then mark_deleted now c else c) (credentials tx))).

Definition CredDel (db : DB) (uid : Uid) (method value : string)
    (now : time) : option error * DB :=
  let '(err, tx) := credDel db uid method value now in
  match err with
  | Some e => (Some e, db)
  | None => (None, tx)
  end.

(** ** Users, topics and subscriptions *)

(** [opts.Limit] when it narrows the limit of the adapter. *)
Definition query_limit (a : adapter) (opts : option QueryOpt) : Z :=
  match opts with
  | Some o =>
      if (0 <? opt_Limit o) && (opt_Limit o <? maxResults a)
      then opt_Limit o else maxResults a
  | None => maxResults a
  end.

Definition scan_user (uid : Uid) (u : user_row) : UserRec :=
  {| usr_header := {| CreatedAt := u_createdat u; UpdatedAt := u_updatedat u;
                      DeletedAt := u_deletedat u |};
     usr_Id := UidString uid;
     usr_uid := uid;
     usr_Access := u_access u;
     usr_LastSeen := u_lastseen u;
     usr_UserAgent := u_useragent u;
     usr_Public := fromJSON (u_public u);
     usr_Tags := u_tags u |}.

(** [db.Get]: the first row of the result, [sql.ErrNoRows] without one. *)
Definition UserGet (db : DB) (uid : Uid) : option UserRec * option error :=
  match filter (fun u => (u_id u =? DecodeUid uid) && is_null (u_deletedat u))
          (users db) with
  | u :: _ => (Some (scan_user uid u), None)
  | [] => (None, None)
  end.

Definition scan_topic (t : topic_row) : TopicRec :=
  {| top_header := {| CreatedAt := t_createdat t; UpdatedAt := t_updatedat t;
                      DeletedAt := t_deletedat t |};
     top_TouchedAt := t_touchedat t;
     top_Id := t_name t;
     top_Owner := UidString (encodeUidString (Go.FormatInt (t_owner t)));
     top_Access := t_access t;
     top_SeqId := t_seqid t;
     top_DelId := t_delid t;
     top_Public := fromJSON (t_public t);
     top_Tags := t_tags t |}.

Definition TopicGet (db : DB) (topic : string)
  : option TopicRec * option error :=
  match filter (fun t => String.eqb (t_name t) topic) (topics db) with
  | t :: _ => (Some (scan_topic t), None)
  | [] => (None, None)
  end.

Definition OwnTopics (db : DB) (uid : Uid) (opts : option QueryOpt)
  : list string * option error :=
  (map t_name (filter (fun t => t_owner t =? DecodeUid uid) (topics db)),
   None).

(** A subscription as scanned from its row; [user] and [pub] are what the
    caller puts in [User] and in the public value. *)
Definition scan_sub (r : sub_row) (user : string) (pub : iface)
  : Subscription :=
  {| sub_header := {| CreatedAt := s_createdat r; UpdatedAt := s_updatedat r;
                      DeletedAt := s_deletedat r |};
     User := user;
     Topic := s_topic r;
     DelId := s_delid r;
     RecvSeqId := s_recvseqid r;
     ReadSeqId := s_readseqid r;
     ModeWant := s_modewant r;
     ModeGiven := s_modegiven r;
     Private := fromJSON (s_private r);
     sub_public := pub;
     sub_with := "";
     sub_seqId := 0;
     sub_touchedAt := None;
     sub_modeDefault := None;
     sub_lastSeen := None;
     sub_userAgent := "" |}.

Definition SubscriptionGet (db : DB) (topic : string) (user : Uid)
  : option Subscription * option error :=
  match filter (fun r => String.eqb (s_topic r) topic &&
                         (s_userid r =? DecodeUid user))
          (subscriptions db) with
  | r :: _ =>
      if negb (is_null (s_deletedat r)) then (None, None)
      else (Some (scan_sub r (Go.FormatInt (s_userid r)) INil), None)
  | [] => (None, None)
  end.

Definition SubsForUser (a : adapter) (db : DB) (forUser : Uid)
    (keepDeleted : bool) (opts : option QueryOpt)
  : list Subscription * option error :=
  let rows :=
    filter (fun r =>
      (s_userid r =? DecodeUid forUser) &&
      (keepDeleted || is_null (s_deletedat r)) &&
      match opts with
      | Some o => String.eqb (opt_Topic o) "" ||
                  String.eqb (s_topic r) (opt_Topic o)
      | None => true
      end) (subscriptions db) in
  (map (fun r => scan_sub r (UidString forUser) INil)
     (limit_rows (query_limit a opts) rows), None).

Definition SubsForTopic (a : adapter) (db : DB) (topic : string)
    (keepDeleted : bool) (opts : option QueryOpt)
  : list Subscription * option error :=
  let rows :=
    filter (fun r =>
      String.eqb (s_topic r) topic &&
      (keepDeleted || is_null (s_deletedat r)) &&
      match opts with
      | Some o => IsZero (opt_User o) ||
                  (s_userid r =? DecodeUid (opt_User o))
      | None => true
      end) (subscriptions db) in
  (map (fun r =>
          scan_sub r (UidString (encodeUidString (Go.FormatInt (s_userid r))))
            INil)
     (limit_rows (query_limit a opts) rows), None).

(** [l JOIN r ON on]. *)
Definition inner_join {A B} (on : A -> B -> bool) (l : list A) (r : list B)
  : list (A * B) :=
  flat_map (fun x => map (fun y => (x, y)) (filter (on x) r)) l.

(** The rows [UsersForTopic] fetches: subscriptions of the topic joined with
    their users.  For a P2P topic deleted subscriptions are loaded too and
    the single-user condition is left to the code after the query. *)
Definition users_for_topic_rows (a : adapter) (db : DB) (topic : string)
    (keepDeleted : bool) (opts : option QueryOpt)
  : list (sub_row * user_row) :=
  let p2p := TopicCat_eqb (GetTopicCat topic) TopicCatP2P in
  limit_rows (query_limit a opts)
    (filter (fun su : sub_row * user_row =>
       let (r, u) := su in
       String.eqb (s_topic r) topic &&
       (keepDeleted || is_null (u_deletedat u)) &&
       (keepDeleted || p2p || is_null (s_deletedat r)) &&
       match opts with
       | Some o => IsZero (opt_User o) || p2p ||
                   (s_userid r =? DecodeUid (opt_User o))
       | None => true
       end)
       (inner_join (fun r u => s_userid r =? u_id u)
          (subscriptions db) (users db))).

Definition SetPublic (sub : Subscription) (pub : iface) : Subscription :=
  {| sub_header := sub_header sub; User := User sub; Topic := Topic sub;
     DelId := DelId sub; RecvSeqId := RecvSeqId sub;
     ReadSeqId := ReadSeqId sub; ModeWant := ModeWant sub;
     ModeGiven := ModeGiven sub; Private := Private sub; sub_public := pub;
     sub_with := sub_with sub; sub_seqId := sub_seqId sub;
     sub_touchedAt := sub_touchedAt sub;
     sub_modeDefault := sub_modeDefault sub; sub_lastSeen := sub_lastSeen sub;
     sub_userAgent := sub_userAgent sub |}.

(** The swap of the public values of a P2P topic. *)
Definition swap_public (subs : list Subscription) : list Subscription :=
  match subs with
  | [] => []
  | [s0] => [SetPublic s0 INil]
  | s0 :: s1 :: rest =>
      SetPublic s0 (sub_public s1) :: SetPublic s1 (sub_public s0) :: rest
  end.

Definition UsersForTopic (a : adapter) (db : DB) (topic : string)
    (keepDeleted : bool) (opts : option QueryOpt)
  : list Subscription * option error :=
  let tcat := GetTopicCat topic in
  let oneUser :=
    match opts with
    | Some o => if negb (IsZero (opt_User o)) then opt_User o else ZeroUid
    | None => ZeroUid
    end in
  let subs :=
    map (fun su : sub_row * user_row =>
           let (r, u) := su in
           scan_sub r (UidString (encodeUidString (Go.FormatInt (s_userid r))))
             (fromJSON (u_public u)))
      (users_for_topic_rows a db topic keepDeleted opts) in
  let subs :=
    if TopicCat_eqb tcat TopicCatP2P && (0 <? List.length subs)%nat then
      let subs := swap_public subs in
      if negb keepDeleted || negb (IsZero oneUser) then
        filter (fun sub =>
          negb ((negb (is_null (DeletedAt (sub_header sub))) &&
                 negb keepDeleted) ||
                (negb (IsZero oneUser) &&
                 negb (Subscription_Uid sub =? oneUser)))) subs
      else subs
    else subs in
  (subs, None).

(** A Go [map[string]Subscription] as the list of its assignments, the
    latest first. *)
Fixpoint lookup (k : string) (m : list (string * Subscription))
  : option Subscription :=
  match m with
  | [] => None
  | (k', v) :: m' => if String.eqb k' k then Some v else lookup k m'
  end.

Definition zero_Subscription : Subscription :=
  {| sub_header := {| CreatedAt := 0; UpdatedAt := 0; DeletedAt := None |};
     User := ""; Topic := ""; DelId := 0; RecvSeqId := 0; ReadSeqId := 0;
     ModeWant := ""; ModeGiven := ""; Private := INil; sub_public := INil;
     sub_with := ""; sub_seqId := 0; sub_touchedAt := None;
     sub_modeDefault := None; sub_lastSeen := None; sub_userAgent := "" |}.

(** [sub.MergeTimes(&top.ObjHeader); sub.SetTouchedAt(top.TouchedAt);
    sub.SetSeqId(top.SeqId)]. *)
Definition merge_topic (sub : Subscription) (top : TopicRec) : Subscription :=
  {| sub_header := MergeTimes (sub_header sub) (top_header top);
     User := User sub; Topic := Topic sub; DelId := DelId sub;
     RecvSeqId := RecvSeqId sub; ReadSeqId := ReadSeqId sub;
     ModeWant := ModeWant sub; ModeGiven := ModeGiven sub;
     Private := Private sub; sub_public := sub_public sub;
     sub_with := sub_with sub; sub_seqId := top_SeqId top;
     sub_touchedAt := top_TouchedAt top;
     sub_modeDefault := sub_modeDefault sub; sub_lastSeen := sub_lastSeen sub;
     sub_userAgent := sub_userAgent sub |}.

(** [sub.MergeTimes(&usr.ObjHeader); sub.SetPublic(...); sub.SetWith(...);
    sub.SetDefaultAccess(...); sub.SetLastSeenAndUA(...)]. *)
Definition merge_user (sub : Subscription) (u : user_row) (uid2 : Uid)
  : Subscription :=
  {| sub_header :=
       MergeTimes (sub_header sub)
         {| CreatedAt := u_createdat u; UpdatedAt := u_updatedat u;
            DeletedAt := u_deletedat u |};
     User := User sub; Topic := Topic sub; DelId := DelId sub;
     RecvSeqId := RecvSeqId sub; ReadSeqId := ReadSeqId sub;
     ModeWant := ModeWant sub; ModeGiven := ModeGiven sub;
     Private := Private sub; sub_public := fromJSON (u_public u);
     sub_with := "usr" ++ UidString uid2; sub_seqId := sub_seqId sub;
     sub_touchedAt := sub_touchedAt sub;
     sub_modeDefault := Some (u_access u); sub_lastSeen := u_lastseen u;
     sub_userAgent := u_useragent u |}.

(** The first loop of [TopicsForUser]: the subscriptions to join, the topic
    names and the numeric ids of the other party of each P2P topic. *)
Definition contacts_step (uid : Uid)
    (st : list (string * Subscription) * list string * list Z)
    (r : sub_row)
  : list (string * Subscription) * list string * list Z :=
  let '(join, topq, usrq) := st in
  let sub := scan_sub r (UidString uid) INil in
  let tcat := GetTopicCat (Topic sub) in
  match tcat with
  | TopicCatMe | TopicCatFnd => st
  | TopicCatP2P =>
      let '(uid1, uid2) := ParseP2P (Topic sub) in
      let other := if uid1 =? uid then DecodeUid uid2 else DecodeUid uid1 in
      ((Topic sub, sub) :: join, (topq ++ [Topic sub])%list,
       (usrq ++ [other])%list)
  | TopicCatGrp =>
      ((Topic sub, sub) :: join, (topq ++ [Topic sub])%list, usrq)
  end.

(** The second loop: group topics are finished, P2P topics go back into the
    map with the times of the topic merged in. *)
Definition topics_step
    (st : list (string * Subscription) * list Subscription) (t : topic_row)
  : list (string * Subscription) * list Subscription :=
  let '(join, subs) := st in
  let top := scan_topic t in
  let sub :=
    match lookup (top_Id top) join with
    | Some v => v
    | None => zero_Subscription
    end in
  let sub := merge_topic sub top in
  match GetTopicCat (Topic sub) with
  | TopicCatGrp => (join, (subs ++ [SetPublic sub (top_Public top)])%list)
  | _ => ((top_Id top, sub) :: join, subs)
  end.

(** The third loop: the other party of each P2P topic. *)
Definition users_step (uid : Uid) (keepDeleted : bool)
    (join : list (string * Subscription)) (subs : list Subscription)
    (u : user_row) : list Subscription :=
  if negb (is_null (u_deletedat u)) && negb keepDeleted then subs
  else
    let uid2 := encodeUidString (Go.FormatInt (u_id u)) in
    match lookup (P2PName uid uid2) join with
    | Some sub => (subs ++ [merge_user sub u uid2])%list
    | None => subs
    end.

(** The statements of the second and third query, as handed to [sqlx.In]. *)
Definition topics_in : string :=
  "SELECT createdat,updatedat,deletedat,touchedat,name AS id,access,seqid,delid,public,tags FROM topics WHERE name IN ($1)".

Definition users_in : string :=
  "SELECT id,state,createdat,updatedat,deletedat,access,lastseen,useragent,public,tags FROM users WHERE id IN ($1)".

(** The error of [sqlx.In] is dropped and the statement it returns is sent
    as it is; an empty statement brings no row. *)
Definition TopicsForUser (a : adapter) (db : DB) (uid : Uid)
    (keepDeleted : bool) (opts : option QueryOpt)
  : list Subscription * option error :=
  let rows :=
    limit_rows (query_limit a opts)
      (filter (fun r =>
         (s_userid r =? DecodeUid uid) &&
         (keepDeleted || is_null (s_deletedat r)) &&
         match opts with
         | Some o => String.eqb (opt_Topic o) "" ||
                     String.eqb (s_topic r) (opt_Topic o)
         | None => true
         end) (subscriptions db)) in
  let '(join, topq, usrq) := fold_left (contacts_step uid) rows ([], [], []) in
  let '(join, subs) :=
    if (0 <? List.length topq)%nat then
      let fetched :=
        match Sqlx.In topics_in (List.length topq) with
        | Some _ =>
            filter (fun t => existsb (String.eqb (t_name t)) topq) (topics db)
        | None => []
        end in
      fold_left topics_step fetched (join, [])
    else (join, []) in
  let subs :=
    if (0 <? List.length usrq)%nat then
      let fetched :=
        match Sqlx.In users_in (List.length usrq) with
        | Some _ => filter (fun u => existsb (Z.eqb (u_id u)) usrq) (users db)
        | None => []
        end in
      fold_left (users_step uid keepDeleted join) fetched subs
    else subs in
  (subs, None).

(** ** Search by tags *)

Fixpoint dedup {K} (eqb : K -> K -> bool) (l : list K) : list K :=
  match l with
  | [] => []
  | k :: l' => k :: filter (fun k' => negb (eqb k' k)) (dedup eqb l')
  end.

(** [GROUP BY]: the rows of each key, keys in order of first appearance. *)
Definition group_by {A K} (eqb : K -> K -> bool) (key : A -> K) (l : list A)
  : list (list A) :=
  map (fun k => filter (fun r => eqb (key r) k) l) (dedup eqb (map key l)).

Definition tag_in (tags : list string) (tag : string) : bool :=
  existsb (String.eqb tag) tags.

(** The statement shared by [FindUsers] and [FindTopics]: entities that are
    not deleted, joined with their tag rows, kept where the tag is among the
    requested ones, grouped by entity, kept where the required tags among the
    rows of the group are at least as many as [len(req)], ordered by the size
    of the group, highest first, and cut at the limit.  Each entity comes
    with its [matches]. *)
Definition tagged {E T} (tag : T -> string) (sel : list string)
    (et : E * option T) : bool :=
  match snd et with
  | Some t => tag_in sel (tag t)
  | None => false
  end.

Definition kept {E T} (tag : T -> string) (deleted : E -> bool)
    (sel : list string) (et : E * option T) : bool :=
  tagged tag sel et && negb (deleted (fst et)).

Definition tag_search {E T K} (eqb : K -> K -> bool) (key : E -> K)
    (owner : T -> K) (tag : T -> string) (deleted : E -> bool)
    (limit : Z) (entities : list E) (tagrows : list T)
    (req opt : list string) : list (E * Z) :=
  let joined := left_join (fun e t => eqb (owner t) (key e)) entities tagrows in
  let rows := filter (kept tag deleted (req ++ opt)%list) joined in
  let groups := group_by eqb (fun et : E * option T => key (fst et)) rows in
  let groups :=
    if (0 <? List.length req)%nat then
      filter (fun g : list (E * option T) =>
        (List.length req <=? List.length (filter (tagged tag req) g))%nat)
        groups
    else groups in
  let selected :=
    flat_map (fun g : list (E * option T) =>
      match g with
      | et :: _ => [(fst et, Z.of_nat (List.length g))]
      | [] => []
      end) groups in
  limit_rows limit
    (sort_by (fun x y : E * Z => snd y <=? snd x) selected).

(** The tag rows of entity [e] whose tag is among [sel]. *)
Definition tags_of {E T K} (eqb : K -> K -> bool) (key : E -> K)
    (owner : T -> K) (tag : T -> string) (tagrows : list T)
    (sel : list string) (e : E) : list T :=
  filter (fun t => eqb (owner t) (key e) && tag_in sel (tag t)) tagrows.

Definition find_users_rows (a : adapter) (db : DB) (req opt : list string)
  : list (user_row * Z) :=
  tag_search Z.eqb u_id ut_userid ut_tag
    (fun u => negb (is_null (u_deletedat u)))
    (maxResults a) (users db) (usertags db) req opt.

Definition find_topics_rows (a : adapter) (db : DB) (req opt : list string)
  : list (topic_row * Z) :=
  tag_search String.eqb t_name tt_topic tt_tag
    (fun t => negb (is_null (t_deletedat t)))
    (maxResults a) (topics db) (topictags db) req opt.

(** What the scan loops of the two searches put in a subscription. *)
Definition found (created updated : time) (user topic : string)
    (pub : option string) (access : DefaultAccess) (tags : list string)
    (index : list string) : Subscription :=
  {| sub_header := {| CreatedAt := created; UpdatedAt := updated;
                      DeletedAt := None |};
     User := user; Topic := topic; DelId := 0; RecvSeqId := 0;
     ReadSeqId := 0; ModeWant := ""; ModeGiven := "";
     Private := IStrings (filter (tag_in index) tags);
     sub_public := fromJSON pub; sub_with := ""; sub_seqId := 0;
     sub_touchedAt := None; sub_modeDefault := Some access;
     sub_lastSeen := None; sub_userAgent := "" |}.

Definition FindUsers (a : adapter) (db : DB) (uid : Uid)
    (req opt : list string) : list Subscription * option error :=
  let index := (req ++ opt)%list in
  let thisUser := DecodeUid uid in
  (map (fun um : user_row * Z =>
          let u := fst um in
          found (u_createdat u) (u_updatedat u)
            (UidString (EncodeUid (u_id u))) "" (u_public u) (u_access u)
            (u_tags u) index)
     (filter (fun um : user_row * Z => negb (u_id (fst um) =? thisUser))
        (find_users_rows a db req opt)),
   None).

Definition FindTopics (a : adapter) (db : DB) (req opt : list string)
  : list Subscription * option error :=
  let index := (req ++ opt)%list in
  (map (fun tm : topic_row * Z =>
          let t := fst tm in
          found (t_createdat t) (t_updatedat t) "" (t_name t) (t_public t)
            (t_access t) (t_tags t) index)
     (find_topics_rows a db req opt),
   None).

End Adapter.

(** ** The two forms of a range

    On the wire a single message is the marker [{low, 0}]; in the log every
    range carries a real upper bound. *)

(** What the write path stores for a range: [hi == 0] stands for the single
    element [[low, low+1)]. *)
Definition write_norm (r : Range) : Range :=
  {| Low := Low r; Hi := if Hi r =? 0 then Go.add (Low r) 1 else Hi r |}.

(** What the read path returns for a stored range: [hi <= low+1] collapses
    to the single-element marker. *)
Definition read_norm (r : Range) : Range :=
  {| Low := Low r; Hi := if Hi r <=? Go.add (Low r) 1 then 0 else Hi r |}.

(** Two spellings of the same request: equal, or the same single element
    written once as a marker and once with its upper bound. *)
Inductive same_single : Range -> Range -> Prop :=
| same_range r : same_single r r
| same_marker low :
    same_single {| Low := low; Hi := 0 |} {| Low := low; Hi := Go.add low 1 |}
| same_bound low :
    same_single {| Low := low; Hi := Go.add low 1 |} {| Low := low; Hi := 0 |}.

(** The form in which the read path hands ranges out. *)
Definition wire_form (r : Range) : Prop :=
  Hi r = 0 \/ Go.add (Low r) 1 < Hi r.

Definition logged_row (topic : string) (forUser delId : Z) (r : Range)
  : dellog_row :=
  {| d_topic := topic; d_deletedfor := forUser; d_delid := delId;
     d_low := Low r; d_hi := Hi (write_norm r) |}.

Definition add_ranges (dmsg : DelMessage) (l : list Range) : DelMessage :=
  {| dm_Topic := dm_Topic dmsg; dm_DeletedFor := dm_DeletedFor dmsg;
     dm_DelId := dm_DelId dmsg;
     dm_SeqIdRanges := (dm_SeqIdRanges dmsg ++ l)%list |}.

(** Two outcomes that no reader of the deletion log can tell apart. *)
Definition same_log (o1 o2 : outcome) : Prop :=
  match o1, o2 with
  | Returned e1 r1, Returned e2 r2 =>
      e1 = e2 /\ dellog r1 = dellog r2 /\ topics r1 = topics r2
  | Panicked, Panicked => True
  | _, _ => False
  end.

(** ** Synthetic keys of credentials *)

(** The key of a confirmed credential and of an unconfirmed one. *)
Definition bare_key (cred : Credential) : string :=
  cr_Method cred ++ ":" ++ cr_Value cred.

Definition user_key (cred : Credential) : string :=
  cr_User cred ++ ":" ++ bare_key cred.

Definition with_key (key : string) (db : DB) : list cred_row :=
  filter (fun c => String.eqb (c_synthetic c) key) (credentials db).

(** The constraint [credentials_uniqueness]. *)
Definition unique_synthetic (db : DB) : Prop :=
  NoDup (map c_synthetic (credentials db)).

(** ** A concrete instance of the outside packages

    Used to run the adapter on sample data: identifiers are written in
    decimal, numeric ids are paired off by the codec, and topic categories
    are told by the three-letter prefix of the name. *)

Module Demo.

Definition swap_id (n : Z) : Z :=
  if n =? 0 then 0 else if Z.odd n then n + 1 else n - 1.

Definition parse_uid (s : string) : Uid :=
  match Go.parse_digits s with
  | Some n => if String.eqb (Go.decimal n) s then n else ZeroUid
  | None => ZeroUid
  end.

Definition topic_cat (name : string) : TopicCat :=
  if prefix "usr" name then TopicCatMe
  else if prefix "fnd" name then TopicCatFnd
  else if prefix "p2p" name then TopicCatP2P
  else TopicCatGrp.

Definition p2p_name (u1 u2 : Uid) : string :=
  "p2p" ++ Go.decimal (Z.min u1 u2) ++ "_" ++ Go.decimal (Z.max u1 u2).

Definition parse_p2p (name : string) : Uid * Uid :=
  let body := Go.drop 3 name in
  match index 0 "_" body with
  | Some i =>
      (parse_uid (substring 0 i body),
       parse_uid (Go.drop (S i) body))
  | None => (ZeroUid, ZeroUid)
  end.

Definition merge_times (h h2 : ObjHeader) : ObjHeader :=
  {| CreatedAt :=
       if (CreatedAt h =? 0) ||
          (negb (CreatedAt h2 =? 0) && (CreatedAt h2 <? CreatedAt h))
       then CreatedAt h2 else CreatedAt h;
     UpdatedAt :=
       if UpdatedAt h <? UpdatedAt h2 then UpdatedAt h2 else UpdatedAt h;
     DeletedAt :=
       match DeletedAt h2, DeletedAt h with
       | Some d2, None => Some d2
       | Some d2, Some d => if d <? d2 then Some d2 else Some d
       | None, d => d
       end |}.

Definition unmarshal (doc : string) : iface :=
  if String.eqb doc "null" then INil else IJson doc.

Definition packages : Packages :=
  {| EncodeUid := swap_id;
     DecodeUid := swap_id;
     ParseUid := parse_uid;
     UidString := Go.decimal;
     GetTopicCat := topic_cat;
     ParseP2P := parse_p2p;
     P2PName := p2p_name;
     MergeTimes := merge_times;
     Subscription_Uid := fun sub => parse_uid (User sub);
     Unmarshal := unmarshal |}.

End Demo.

(** ** Sample data *)

Module Sample.

Definition empty : DB :=
  {| users := []; usertags := []; topics := []; topictags := [];
     subscriptions := []; messages := []; dellog := []; credentials := [];
     filemsglinks := [] |}.

(** An unconfirmed credential of user [userid] with one failed attempt. *)
Definition retried_credential (userid : Z) (user : string) : cred_row :=
  {| c_createdat := 10; c_updatedat := 20; c_deletedat := None;
     c_method := "email"; c_value := "alice@example.com";
     c_synthetic := user ++ ":email:alice@example.com";
     c_userid := userid; c_resp := "123456"; c_done := false;
     c_retries := 1 |}.

Definition defaultMaxResults : Z := 1024.

(** The adapter as [Open] leaves it. *)
Definition opened : adapter := {| maxResults := defaultMaxResults |}.

Definition topicT : topic_row :=
  {| t_createdat := 1; t_updatedat := 1; t_deletedat := None;
     t_touchedat := None; t_name := "grpT"; t_owner := 7;
     t_access := {| Auth := 0; Anon := 0 |}; t_seqid := 0; t_delid := 0;
     t_public := None; t_tags := [] |}.

Definition message (seqid : Z) : msg_row :=
  {| m_id := seqid; m_createdat := 1; m_updatedat := 1; m_deletedat := None;
     m_delid := 0; m_seqid := seqid; m_topic := "grpT"; m_from := 7;
     m_head := None; m_content := Some "null" |}.

(** Topic [grpT] with messages 1 to [n], of which the range [[low, hi)] is
    deleted for the user with numeric id 7. *)
Definition topic_with (n : nat) (low hi : Z) : DB :=
  {| users := []; usertags := []; topics := [topicT]; topictags := [];
     subscriptions := [];
     messages := map (fun k => message (Z.of_nat k)) (seq 1 n);
     dellog := [{| d_topic := "grpT"; d_deletedfor := 7; d_delid := 1;
                   d_low := low; d_hi := hi |}];
     credentials := []; filemsglinks := [] |}.

Definition with_topic : DB :=
  {| users := []; usertags := []; topics := [topicT]; topictags := [];
     subscriptions := []; messages := []; dellog := []; credentials := [];
     filemsglinks := [] |}.

Definition userA : user_row :=
  {| u_id := 7; u_createdat := 1; u_updatedat := 1; u_deletedat := None;
     u_access := {| Auth := 0; Anon := 0 |}; u_lastseen := None;
     u_useragent := ""; u_public := Some "[65]";
     u_tags := ["email:alice@example.com"] |}.

Definition with_user : DB :=
  {| users := [userA]; usertags := []; topics := []; topictags := [];
     subscriptions := []; messages := []; dellog := []; credentials := [];
     filemsglinks := [] |}.

(** An unconfirmed credential of the user whose identifier reads [8] and
    whose numeric id is 7. *)
Definition alice (resp : string) (at_ : time) : Credential :=
  {| cr_CreatedAt := at_; cr_UpdatedAt := at_; cr_User := "8";
     cr_Method := "email"; cr_Value := "alice@example.com";
     cr_Resp := resp; cr_Done := false; cr_Retries := 0 |}.

(** The same address, confirmed by the user with numeric id 9. *)
Definition confirmed_alice : cred_row :=
  {| c_createdat := 5; c_updatedat := 6; c_deletedat := None;
     c_method := "email"; c_value := "alice@example.com";
     c_synthetic := "email:alice@example.com"; c_userid := 9;
     c_resp := "654321"; c_done := true; c_retries := 0 |}.

Definition userB : user_row :=
  {| u_id := 9; u_createdat := 2; u_updatedat := 2; u_deletedat := None;
     u_access := {| Auth := 0; Anon := 0 |}; u_lastseen := None;
     u_useragent := ""; u_public := Some "[66]";
     u_tags := ["email:bob@example.com"; "city:paris"] |}.

Definition deleted_user (u : user_row) (at_ : time) : user_row :=
  {| u_id := u_id u; u_createdat := u_createdat u;
     u_updatedat := u_updatedat u; u_deletedat := Some at_;
     u_access := u_access u; u_lastseen := u_lastseen u;
     u_useragent := u_useragent u; u_public := u_public u;
     u_tags := u_tags u |}.

Definition subscription (userid : Z) (topic : string)
    (deletedat : option time) : sub_row :=
  {| s_createdat := 3; s_updatedat := 3; s_deletedat := deletedat;
     s_userid := userid; s_topic := topic; s_delid := 0; s_recvseqid := 0;
     s_readseqid := 0; s_modewant := "JRWPS"; s_modegiven := "JRWPS";
     s_private := None |}.

(** The P2P topic of the users with numeric ids 7 and 9, whose identifiers
    read [8] and [10]. *)
Definition p2p_topic (ub : user_row) : DB :=
  {| users := [userA; ub]; usertags := []; topics := []; topictags := [];
     subscriptions := [subscription 7 "p2p8_10" None;
                       subscription 9 "p2p8_10" None];
     messages := []; dellog := []; credentials := []; filemsglinks := [] |}.

(** A group topic with a deletion time, and a deleted subscription to it. *)
Definition deleted_topic : DB :=
  {| users := [userA; deleted_user userB 50]; usertags := [];
     topics := [{| t_createdat := 1; t_updatedat := 50;
                   t_deletedat := Some 50; t_touchedat := None;
                   t_name := "grpT"; t_owner := 7;
                   t_access := {| Auth := 0; Anon := 0 |}; t_seqid := 0;
                   t_delid := 0; t_public := None; t_tags := [] |}];
     topictags := [];
     subscriptions := [subscription 7 "grpT" (Some 50)];
     messages := []; dellog := []; credentials := []; filemsglinks := [] |}.

(** Alice and Bob with their tags indexed, and a tagged topic. *)
Definition tagged_users : DB :=
  {| users := [userA; userB];
     usertags := [{| ut_userid := 7; ut_tag := "city:paris" |};
                  {| ut_userid := 7; ut_tag := "email:alice@example.com" |};
                  {| ut_userid := 9; ut_tag := "city:paris" |};
                  {| ut_userid := 9; ut_tag := "email:bob@example.com" |}];
     topics := [topicT];
     topictags := [{| tt_topic := "grpT"; tt_tag := "city:paris" |}];
     subscriptions := []; messages := []; dellog := []; credentials := [];
     filemsglinks := [] |}.

End Sample.

(** ** Deletion events as they are read *)

(** One event carries every range of another, and at least one more. *)
Definition extends (dm1 dm2 : DelMessage) : Prop :=
  exists more, more <> [] /\
    dm_SeqIdRanges dm2 = (dm_SeqIdRanges dm1 ++ more)%list.

(** The state of the read loop of [MessageGetDeleted]: the finished events
    are in strictly ascending order of their positive ids, each carries the
    ranges of those before it, and the event being built comes after all of
    them. *)
Definition reading (st : list DelMessage * DelMessage) : Prop :=
  StronglySorted (fun x y => dm_DelId x < dm_DelId y) (fst st) /\
  StronglySorted extends (fst st) /\
  Forall (fun dm => 0 < dm_DelId dm < dm_DelId (snd st) /\
                    extends dm (snd st)) (fst st).

(** ** More of the Go library *)

Module Strconv.

Definition hex_digit (d : Z) : ascii :=
  if d <? 10 then ascii_of_nat (48 + Z.to_nat d)
  else ascii_of_nat (87 + Z.to_nat d).

Fixpoint hex_digits (fuel : nat) (n : Z) (acc : string) : string :=
  match fuel with
  | O => acc
  | S f =>
      let acc' := String (hex_digit (n mod 16)) acc in
      if n <? 16 then acc' else hex_digits f (n / 16) acc'
  end.

(** [strconv.FormatUint(n, 16)]. *)
Definition FormatUint16 (n : Z) : string :=
  hex_digits (S (Z.to_nat (Z.log2 n))) n "".

End Strconv.

(** [hash/fnv]: the 64-bit FNV-1 hash that [fnv.New64] computes. *)
Module Fnv.

Definition offset64 : Z := 14695981039346656037.
Definition prime64 : Z := 1099511628211.

Definition step (hash : Z) (c : ascii) : Z :=
  Z.lxor ((hash * prime64) mod 2 ^ 64) (Z.of_nat (nat_of_ascii c)).

Fixpoint Write (hash : Z) (data : string) : Z :=
  match data with
  | EmptyString => hash
  | String c rest => Write (step hash c) rest
  end.

Definition Sum64 (data : string) : Z := Write offset64 data.

End Fnv.

(** [time.Time{}] and [IsZero]. *)
Definition zero_time : time := 0.
Definition time_IsZero (t : time) : bool := t =? zero_time.

(** ** Tables and values of the rest of the adapter *)

Record auth_row := {
  a_uname : string;
  a_userid : Z;
  a_scheme : string;
  a_authlvl : Z;
  a_secret : string;
  a_expires : option time }.

Record device_row := {
  dv_userid : Z;
  dv_hash : string;
  dv_deviceid : string;
  dv_platform : string;
  dv_lastseen : time;
  dv_lang : string }.

Record file_row := {
  fu_id : Z;
  fu_createdat : time;
  fu_updatedat : time;
  fu_userid : Z;
  fu_status : Z;
  fu_mimetype : string;
  fu_size : Z;
  fu_location : string }.

(** The stored state with the tables [auth], [devices] and [fileuploads]
    beside those of [DB]. *)
Record Store := {
  base : DB;
  auth : list auth_row;
  devices : list device_row;
  fileuploads : list file_row }.

Definition set_auth (st : Store) (v : list auth_row) : Store :=
  {| base := base st; auth := v; devices := devices st;
     fileuploads := fileuploads st |}.

Definition set_devices (st : Store) (v : list device_row) : Store :=
  {| base := base st; auth := auth st; devices := v;
     fileuploads := fileuploads st |}.

Definition set_fileuploads (st : Store) (v : list file_row) : Store :=
  {| base := base st; auth := auth st; devices := devices st;
     fileuploads := v |}.

Definition set_subscriptions (db : DB) (v : list sub_row) : DB :=
  {| users := users db; usertags := usertags db; topics := topics db;
     topictags := topictags db; subscriptions := v;
     messages := messages db; dellog := dellog db;
     credentials := credentials db; filemsglinks := filemsglinks db |}.

Definition set_topics (db : DB) (v : list topic_row) : DB :=
  {| users := users db; usertags := usertags db; topics := v;
     topictags := topictags db; subscriptions := subscriptions db;
     messages := messages db; dellog := dellog db;
     credentials := credentials db; filemsglinks := filemsglinks db |}.

Definition set_topictags (db : DB) (v : list topictag_row) : DB :=
  {| users := users db; usertags := usertags db; topics := topics db;
     topictags := v; subscriptions := subscriptions db;
     messages := messages db; dellog := dellog db;
     credentials := credentials db; filemsglinks := filemsglinks db |}.

Record DeviceDef := {
  DeviceId : string;
  Platform : string;
  LastSeen : time;
  Lang : string }.

Record FileDef := {
  fd_Id : string;
  fd_CreatedAt : time;
  fd_UpdatedAt : time;
  fd_User : string;
  fd_Status : Z;
  fd_MimeType : string;
  fd_Size : Z;
  fd_Location : string }.

(** No two rows of a table share the key: what a [UNIQUE] constraint asks of
    the table a statement leaves. *)
Fixpoint distinct (keys : list string) : bool :=
  match keys with
  | [] => true
  | k :: rest => negb (existsb (String.eqb k) rest) && distinct rest
  end.

Section Rest.

Context {P : Packages}.

(** ** Configuration *)

Definition SetMaxResults (a : adapter) (val : Z) : adapter * option error :=
  if val <=? 0 then ({| maxResults := Sample.defaultMaxResults |}, None)
  else ({| maxResults := val |}, None).

(** ** Credentials: confirmation and reading *)

(** A row scanned into [t.Credential]; [User] is set by the caller. *)
Definition scan_credential (user : string) (c : cred_row) : Credential :=
  {| cr_CreatedAt := c_createdat c; cr_UpdatedAt := c_updatedat c;
     cr_User := user; cr_Method := c_method c; cr_Value := c_value c;
     cr_Resp := c_resp c; cr_Done := c_done c; cr_Retries := c_retries c |}.

(** [WHERE userid=$2 AND method=$3 AND deletedat IS NULL AND done=false]. *)
Definition pending (userId : Z) (method : string) (c : cred_row) : bool :=
  (c_userid c =? userId) && String.eqb (c_method c) method &&
  is_null (c_deletedat c) && negb (c_done c).

(** [SET updatedat=$1,done=true,synthetic=CONCAT(method,':',value)]. *)
Definition confirmed (now : time) (c : cred_row) : cred_row :=
  {| c_createdat := c_createdat c; c_updatedat := now;
     c_deletedat := c_deletedat c; c_method := c_method c;
     c_value := c_value c;
     c_synthetic := c_method c ++ ":" ++ c_value c;
     c_userid := c_userid c; c_resp := c_resp c; c_done := true;
     c_retries := c_retries c |}.

(** The statement runs outside a transaction; it fails as a whole when the
    table it would leave breaks [credentials_uniqueness]. *)
Definition CredConfirm (db : DB) (uid : Uid) (method : string) (now : time)
  : option error * DB :=
  let userId := DecodeUid uid in
  let rows :=
    map (fun c => if pending userId method c then confirmed now c else c)
      (credentials db) in
  if distinct (map c_synthetic rows) then
    let numrows :=
      Z.of_nat (List.length (filter (pending userId method) (credentials db))) in
    if numrows <? 1 then (Some ErrNotFound, set_credentials db rows)
    else (None, set_credentials db rows)
  else
    if isDupe (Some (ErrEngine UniqueViolation)) then (Some ErrDuplicate, db)
    else (Some (ErrEngine UniqueViolation), db).

Definition CredGetActive (db : DB) (uid : Uid) (method : string)
  : option Credential * option error :=
  match filter (fun c =>
          (c_userid c =? DecodeUid uid) && is_null (c_deletedat c) &&
          String.eqb (c_method c) method && negb (c_done c))
          (credentials db) with
  | c :: _ => (Some (scan_credential (UidString uid) c), None)
  | [] => (None, None)
  end.

Definition CredGetAll (db : DB) (uid : Uid) (method : string)
    (validatedOnly : bool) : list Credential * option error :=
  let rows :=
    filter (fun c =>
      (c_userid c =? DecodeUid uid) && is_null (c_deletedat c) &&
      (String.eqb method "" || String.eqb (c_method c) method) &&
      (negb validatedOnly || c_done c)) (credentials db) in
  (map (scan_credential (UidString uid)) rows, None).

Definition UserGetByCred (db : DB) (method value : string)
  : Uid * option error :=
  match filter (fun c => String.eqb (c_synthetic c) (method ++ ":" ++ value))
          (credentials db) with
  | c :: _ => (EncodeUid (c_userid c), None)
  | [] => (ZeroUid, None)
  end.

(** ** Disabled users *)

(** [SELECT id FROM users WHERE deletedat>=$1]: a row without deletion time
    is not selected. *)
Definition UserGetDisabled (db : DB) (since : time)
  : list Uid * option error :=
  (map (fun u => EncodeUid (u_id u))
     (filter (fun u =>
        match u_deletedat u with
        | Some d => since <=? d
        | None => false
        end) (users db)),
   None).

(** ** Subscriptions and topics: deletion and ownership *)

(** [SET updatedat=$1, deletedat=$2] with both set to [now]. *)
Definition sub_deleted (now : time) (r : sub_row) : sub_row :=
  {| s_createdat := s_createdat r; s_updatedat := now;
     s_deletedat := Some now; s_userid := s_userid r; s_topic := s_topic r;
     s_delid := s_delid r; s_recvseqid := s_recvseqid r;
     s_readseqid := s_readseqid r; s_modewant := s_modewant r;
     s_modegiven := s_modegiven r; s_private := s_private r |}.

Definition topic_deleted (now : time) (t : topic_row) : topic_row :=
  {| t_createdat := t_createdat t; t_updatedat := now;
     t_deletedat := Some now; t_touchedat := t_touchedat t;
     t_name := t_name t; t_owner := t_owner t; t_access := t_access t;
     t_seqid := t_seqid t; t_delid := t_delid t; t_public := t_public t;
     t_tags := t_tags t |}.

Definition SubsDelete (db : DB) (topic : string) (user : Uid) (now : time)
  : option error * DB :=
  let hit (r : sub_row) :=
    String.eqb (s_topic r) topic && (s_userid r =? DecodeUid user) &&
    is_null (s_deletedat r) in
  let affected := Z.of_nat (List.length (filter hit (subscriptions db))) in
  let db' :=
    set_subscriptions db
      (map (fun r => if hit r then sub_deleted now r else r)
         (subscriptions db)) in
  if affected =? 0 then (Some ErrNotFound, db') else (None, db').

Definition SubsDelForTopic (db : DB) (topic : string) (hard : bool)
    (now : time) : option error * DB :=
  if hard then
    (None,
     set_subscriptions db
       (filter (fun r => negb (String.eqb (s_topic r) topic))
          (subscriptions db)))
  else
    (None,
     set_subscriptions db
       (map (fun r =>
          if String.eqb (s_topic r) topic && is_null (s_deletedat r)
          then sub_deleted now r else r) (subscriptions db))).

Definition subsDelForUser (tx : DB) (user : Uid) (hard : bool) (now : time)
  : option error * DB :=
  if hard then
    (None,
     set_subscriptions tx
       (filter (fun r => negb (s_userid r =? DecodeUid user))
          (subscriptions tx)))
  else
    (None,
     set_subscriptions tx
       (map (fun r =>
          if s_userid r =? DecodeUid user then sub_deleted now r else r)
          (subscriptions tx))).

Definition SubsDelForUser (db : DB) (user : Uid) (hard : bool) (now : time)
  : option error * DB :=
  match subsDelForUser db user hard now with
  | (Some e, _) => (Some e, db)
  | (None, tx) => (None, tx)
  end.

(** [DELETE FROM topics WHERE name=$1]: [messages], [dellog] and
    [topictags] reference [topics(name)]. *)
Definition delete_topic (tx : DB) (topic : string) : DB + error :=
  if existsb (fun t => String.eqb (t_name t) topic) (topics tx) &&
     (existsb (fun m => String.eqb (m_topic m) topic) (messages tx) ||
      existsb (fun d => String.eqb (d_topic d) topic) (dellog tx) ||
      existsb (fun g => String.eqb (tt_topic g) topic) (topictags tx))
  then inr (ErrEngine ForeignKeyViolation)
  else inl (set_topics tx
              (filter (fun t => negb (String.eqb (t_name t) topic))
                 (topics tx))).

Definition TopicDelete (db : DB) (topic : string) (hard : bool) (now : time)
  : outcome :=
  let tx := db in
  if hard then
    let tx :=
      set_subscriptions tx
        (filter (fun r => negb (String.eqb (s_topic r) topic))
           (subscriptions tx)) in
    match messageDeleteList tx topic None now with
    | TxPanic => Panicked
    | TxDone (Some e) _ => Returned (Some e) db
    | TxDone None tx =>
        let tx :=
          set_topictags tx
            (filter (fun g => negb (String.eqb (tt_topic g) topic))
               (topictags tx)) in
        match delete_topic tx topic with
        | inr e => Returned (Some e) db
        | inl tx => Returned None tx
        end
    end
  else
    let tx :=
      set_subscriptions tx
        (map (fun r =>
           if String.eqb (s_topic r) topic then sub_deleted now r else r)
           (subscriptions tx)) in
    let tx :=
      set_topics tx
        (map (fun t =>
           if String.eqb (t_name t) topic then topic_deleted now t else t)
           (topics tx)) in
    Returned None tx.

Definition TopicOwnerChange (db : DB) (topic : string)
    (newOwner oldOwner : Uid) : option error * DB :=
  (None,
   set_topics db
     (map (fun t =>
        if String.eqb (t_name t) topic then
          {| t_createdat := t_createdat t; t_updatedat := t_updatedat t;
             t_deletedat := t_deletedat t; t_touchedat := t_touchedat t;
             t_name := t_name t; t_owner := DecodeUid newOwner;
             t_access := t_access t; t_seqid := t_seqid t;
             t_delid := t_delid t; t_public := t_public t;
             t_tags := t_tags t |}
        else t) (topics db))).

(** ** Authentication records *)

(** [INSERT INTO auth]: [uname] is unique, so is the pair of [userid] and
    [scheme], and [userid] references [users(id)]. *)
Definition insert_auth (st : Store) (row : auth_row) : Store + error :=
  if existsb (fun r =>
       String.eqb (a_uname r) (a_uname row) ||
       ((a_userid r =? a_userid row) &&
        String.eqb (a_scheme r) (a_scheme row))) (auth st)
  then inr (ErrEngine UniqueViolation)
  else if existsb (fun u => u_id u =? a_userid row) (users (base st))
  then inl (set_auth st (auth st ++ [row])%list)
  else inr (ErrEngine ForeignKeyViolation).

Definition AuthAddRecord (st : Store) (uid : Uid) (scheme unique : string)
    (authLvl : Z) (secret : string) (expires : time)
  : bool * option error * Store :=
  let exp := if negb (time_IsZero expires) then Some expires else None in
  match insert_auth st
          {| a_uname := unique; a_userid := DecodeUid uid;
             a_scheme := scheme; a_authlvl := authLvl; a_secret := secret;
             a_expires := exp |} with
  | inr e =>
      if isDupe (Some e) then (true, Some ErrDuplicate, st)
      else (false, Some e, st)
  | inl st' => (false, None, st')
  end.

Definition AuthDelScheme (st : Store) (user : Uid) (scheme : string)
  : option error * Store :=
  (None,
   set_auth st
     (filter (fun r =>
        negb ((a_userid r =? DecodeUid user) &&
              String.eqb (a_scheme r) scheme)) (auth st))).

Definition AuthDelAllRecords (st : Store) (user : Uid)
  : Z * option error * Store :=
  let gone (r : auth_row) := a_userid r =? DecodeUid user in
  (Z.of_nat (List.length (filter gone (auth st))), None,
   set_auth st (filter (fun r => negb (gone r)) (auth st))).

(** The row keeps its [uname], so no constraint can fail. *)
Definition AuthUpdRecord (st : Store) (uid : Uid) (scheme unique : string)
    (authLvl : Z) (secret : string) (expires : time)
  : bool * option error * Store :=
  let exp := if negb (time_IsZero expires) then Some expires else None in
  let st' :=
    set_auth st
      (map (fun r =>
         if String.eqb (a_uname r) unique then
           {| a_uname := unique; a_userid := a_userid r;
              a_scheme := a_scheme r; a_authlvl := authLvl;
              a_secret := secret; a_expires := exp |}
         else r) (auth st)) in
  if isDupe None then (true, Some ErrDuplicate, st') else (false, None, st').

Definition AuthGetRecord (st : Store) (uid : Uid) (scheme : string)
  : string * Z * option string * time * option error :=
  match filter (fun r =>
          (a_userid r =? DecodeUid uid) && String.eqb (a_scheme r) scheme)
          (auth st) with
  | [] => ("", 0, None, zero_time, None)
  | record :: _ =>
      let expires :=
        match a_expires record with
        | Some e => e
        | None => zero_time
        end in
      (a_uname record, a_authlvl record, Some (a_secret record), expires,
       None)
  end.

Definition AuthGetUniqueRecord (st : Store) (unique : string)
  : Uid * Z * option string * time * option error :=
  match filter (fun r => String.eqb (a_uname r) unique) (auth st) with
  | [] => (ZeroUid, 0, None, zero_time, None)
  | record :: _ =>
      let expires :=
        match a_expires record with
        | Some e => e
        | None => zero_time
        end in
      (EncodeUid (a_userid record), a_authlvl record,
       Some (a_secret record), expires, None)
  end.

(** ** Devices *)

Definition deviceHasher (deviceID : string) : string :=
  Strconv.FormatUint16 (Fnv.Sum64 deviceID).

(** [INSERT INTO devices]: [hash] is unique and [userid] references
    [users(id)]. *)
Definition insert_device (tx : Store) (row : device_row) : Store + error :=
  if existsb (fun r => String.eqb (dv_hash r) (dv_hash row)) (devices tx)
  then inr (ErrEngine UniqueViolation)
  else if existsb (fun u => u_id u =? dv_userid row) (users (base tx))
  then inl (set_devices tx (devices tx ++ [row])%list)
  else inr (ErrEngine ForeignKeyViolation).

Definition DeviceUpsert (st : Store) (uid : Uid) (def : DeviceDef)
  : option error * Store :=
  let hash := deviceHasher (DeviceId def) in
  let tx :=
    set_devices st
      (filter (fun r => negb (String.eqb (dv_hash r) hash)) (devices st)) in
  match insert_device tx
          {| dv_userid := DecodeUid uid; dv_hash := hash;
             dv_deviceid := DeviceId def; dv_platform := Platform def;
             dv_lastseen := LastSeen def; dv_lang := Lang def |} with
  | inr e => (Some e, st)
  | inl tx => (None, tx)
  end.

Definition deviceDelete (tx : Store) (uid : Uid) (deviceID : string)
  : option error * Store :=
  if String.eqb deviceID "" then
    (None,
     set_devices tx
       (filter (fun r => negb (dv_userid r =? DecodeUid uid)) (devices tx)))
  else
    (None,
     set_devices tx
       (filter (fun r =>
          negb ((dv_userid r =? DecodeUid uid) &&
                String.eqb (dv_hash r) (deviceHasher deviceID)))
          (devices tx))).

Definition DeviceDelete (st : Store) (uid : Uid) (deviceID : string)
  : option error * Store :=
  match deviceDelete st uid deviceID with
  | (Some e, _) => (Some e, st)
  | (None, tx) => (None, tx)
  end.

(** ** File uploads *)

Definition FileGet (st : Store) (fid : string)
  : option FileDef * option error :=
  let id := ParseUid fid in
  if IsZero id then (None, Some ErrMalformed)
  else
    match filter (fun f => fu_id f =? DecodeUid id) (fileuploads st) with
    | [] => (None, None)
    | f :: _ =>
        (Some
           {| fd_Id := UidString (encodeUidString (Go.FormatInt (fu_id f)));
              fd_CreatedAt := fu_createdat f;
              fd_UpdatedAt := fu_updatedat f;
              fd_User :=
                UidString (encodeUidString (Go.FormatInt (fu_userid f)));
              fd_Status := fu_status f; fd_MimeType := fu_mimetype f;
              fd_Size := fu_size f; fd_Location := fu_location f |},
         None)
    end.

Definition FileFinishUpload (st : Store) (fid : string) (status size : Z)
    (now : time) : option FileDef * option error * Store :=
  let id := ParseUid fid in
  if IsZero id then (None, Some ErrMalformed, st)
  else
    match FileGet st fid with
    | (_, Some e) => (None, Some e, st)
    | (None, None) => (None, Some ErrNotFound, st)
    | (Some fd, None) =>
        let st' :=
          set_fileuploads st
            (map (fun f =>
               if fu_id f =? DecodeUid id then
                 {| fu_id := fu_id f; fu_createdat := fu_createdat f;
                    fu_updatedat := now; fu_userid := fu_userid f;
                    fu_status := status; fu_mimetype := fu_mimetype f;
                    fu_size := size; fu_location := fu_location f |}
               else f) (fileuploads st)) in
        (Some
           {| fd_Id := fd_Id fd; fd_CreatedAt := fd_CreatedAt fd;
              fd_UpdatedAt := now; fd_User := fd_User fd;
              fd_Status := status; fd_MimeType := fd_MimeType fd;
              fd_Size := size; fd_Location := fd_Location fd |},
         None, st')
    end.

End Rest.

(** ** Creating subscriptions and topics

    [json.Marshal] and the access-mode algebra of package [types] are
    outside [adapter.go]: [Marshal] is the encoder, and [IsOwner given want]
    says whether the modes given and wanted have ownership in common, the
    two modes being taken in their text form. *)

(** The table and key column that the callers of [addTags] name, with the
    value of the key: [usertags] by [userid], [topictags] by [topic]. *)
Inductive tag_key :=
| UserKey (userid : Z)
| TopicKey (topic : string).

Definition set_usertags (db : DB) (v : list usertag_row) : DB :=
  {| users := users db; usertags := v; topics := topics db;
     topictags := topictags db; subscriptions := subscriptions db;
     messages := messages db; dellog := dellog db;
     credentials := credentials db; filemsglinks := filemsglinks db |}.

Section Creation.

Context {P : Packages}.

Variable Marshal : iface -> string.
Variable IsOwner : string -> string -> bool.

Definition toJSON (src : iface) : string :=
  match src with
  | INil => "null"
  | _ => Marshal src
  end.

(** [INSERT INTO usertags] and [INSERT INTO topictags]: the pair of owner
    and tag is unique, and the owner references its table. *)
Definition insert_tag (tx : DB) (key : tag_key) (tag : string) : DB + error :=
  match key with
  | UserKey userid =>
      if existsb (fun r => (ut_userid r =? userid) &&
                           String.eqb (ut_tag r) tag) (usertags tx)
      then inr (ErrEngine UniqueViolation)
      else if existsb (fun u => u_id u =? userid) (users tx)
      then inl (set_usertags tx
                  (usertags tx ++ [{| ut_userid := userid; ut_tag := tag |}])%list)
      else inr (ErrEngine ForeignKeyViolation)
  | TopicKey topic =>
      if existsb (fun r => String.eqb (tt_topic r) topic &&
                           String.eqb (tt_tag r) tag) (topictags tx)
      then inr (ErrEngine UniqueViolation)
      else if existsb (fun t => String.eqb (t_name t) topic) (topics tx)
      then inl (set_topictags tx
                  (topictags tx ++ [{| tt_topic := topic; tt_tag := tag |}])%list)
      else inr (ErrEngine ForeignKeyViolation)
  end.

Fixpoint addTags (tx : DB) (key : tag_key) (tags : list string)
    (ignoreDups : bool) : option error * DB :=
  match tags with
  | [] => (None, tx)
  | tag :: rest =>
      match insert_tag tx key tag with
      | inl tx' => addTags tx' key rest ignoreDups
      | inr e =>
          if isDupe (Some e) then
            if ignoreDups then addTags tx key rest ignoreDups
            else (Some ErrDuplicate, tx)
          else (Some e, tx)
      end
  end.

(** [INSERT INTO topics]: [name] is unique. *)
Definition insert_topic (tx : DB) (row : topic_row) : DB + error :=
  if existsb (fun t => String.eqb (t_name t) (t_name row)) (topics tx)
  then inr (ErrEngine UniqueViolation)
  else inl (set_topics tx (topics tx ++ [row])%list).

Definition topicCreate (tx : DB) (topic : TopicRec) : option error * DB :=
  match insert_topic tx
          {| t_createdat := CreatedAt (top_header topic);
             t_updatedat := UpdatedAt (top_header topic);
             t_deletedat := None;
             t_touchedat := top_TouchedAt topic;
             t_name := top_Id topic;
             t_owner := DecodeUid (ParseUid (top_Owner topic));
             t_access := top_Access topic;
             t_seqid := 0; t_delid := 0;
             t_public := Some (toJSON (top_Public topic));
             t_tags := top_Tags topic |} with
  | inr e => (Some e, tx)
  | inl tx' =>
      addTags tx' (TopicKey (top_Id topic)) (top_Tags topic) false
  end.

Definition TopicCreate (db : DB) (topic : TopicRec) : option error * DB :=
  match topicCreate db topic with
  | (Some e, _) => (Some e, db)
  | (None, tx) => (None, tx)
  end.

(** [INSERT INTO subscriptions]: the pair of [topic] and [userid] is unique
    and [userid] references [users(id)]. *)
Definition insert_subscription (tx : DB) (row : sub_row) : DB + error :=
  if existsb (fun r => String.eqb (s_topic r) (s_topic row) &&
                       (s_userid r =? s_userid row)) (subscriptions tx)
  then inr (ErrEngine UniqueViolation)
  else if existsb (fun u => u_id u =? s_userid row) (users tx)
  then inl (set_subscriptions tx (subscriptions tx ++ [row])%list)
  else inr (ErrEngine ForeignKeyViolation).

Definition new_subscription (sub : Subscription) (userId : Z) : sub_row :=
  {| s_createdat := CreatedAt (sub_header sub);
     s_updatedat := UpdatedAt (sub_header sub);
     s_deletedat := None; s_userid := userId; s_topic := Topic sub;
     s_delid := 0; s_recvseqid := 0; s_readseqid := 0;
     s_modewant := ModeWant sub; s_modegiven := ModeGiven sub;
     s_private := Some (toJSON (Private sub)) |}.

(** [UPDATE subscriptions SET createdAt=$1,updatedAt=$2,deletedAt=NULL,
    modeGiven=$3 WHERE topic=$4 AND userid=$5], and the same with [modeWant]
    and [private] set as well. *)
Definition resubscribe (sub : Subscription) (userId : Z) (undelete : bool)
    (r : sub_row) : sub_row :=
  if String.eqb (s_topic r) (Topic sub) && (s_userid r =? userId) then
    {| s_createdat := CreatedAt (sub_header sub);
       s_updatedat := UpdatedAt (sub_header sub);
       s_deletedat := None; s_userid := s_userid r; s_topic := s_topic r;
       s_delid := s_delid r; s_recvseqid := s_recvseqid r;
       s_readseqid := s_readseqid r;
       s_modewant := if undelete then s_modewant r else ModeWant sub;
       s_modegiven := ModeGiven sub;
       s_private := if undelete then s_private r
                    else Some (toJSON (Private sub)) |}
  else r.

Definition createSubscription (tx : DB) (sub : Subscription)
    (undelete : bool) : option error * DB :=
  let isOwner := IsOwner (ModeGiven sub) (ModeWant sub) in
  let decoded_uid := DecodeUid (ParseUid (User sub)) in
  let '(err, tx) :=
    match insert_subscription tx (new_subscription sub decoded_uid) with
    | inl tx' => (None, tx')
    | inr e =>
        if isDupe (Some e) then
          (None,
           set_subscriptions tx
             (map (resubscribe sub decoded_uid undelete) (subscriptions tx)))
        else (Some e, tx)
    end in
  if is_null err && isOwner then
    (None,
     set_topics tx
       (map (fun t =>
          if String.eqb (t_name t) (Topic sub) then
            {| t_createdat := t_createdat t; t_updatedat := t_updatedat t;
               t_deletedat := t_deletedat t; t_touchedat := t_touchedat t;
               t_name := t_name t; t_owner := decoded_uid;
               t_access := t_access t; t_seqid := t_seqid t;
               t_delid := t_delid t; t_public := t_public t;
               t_tags := t_tags t |}
          else t) (topics tx)))
  else (err, tx).

(** A row that holds the pair of topic and user of a subscription. *)
Definition holds (sub : Subscription) (r : sub_row) : bool :=
  String.eqb (s_topic r) (Topic sub) &&
  (s_userid r =? DecodeUid (ParseUid (User sub))).

(** The loop of [TopicShare] inside its transaction. *)
Fixpoint share_all (tx : DB) (shares : list Subscription)
  : option error * DB :=
  match shares with
  | [] => (None, tx)
  | sub :: rest =>
      match createSubscription tx sub true with
      | (Some e, tx') => (Some e, tx')
      | (None, tx') => share_all tx' rest
      end
  end.

Definition TopicShare (db : DB) (shares : list Subscription)
  : Z * option error * DB :=
  match share_all db shares with
  | (Some e, _) => (0, Some e, db)
  | (None, tx) => (Z.of_nat (List.length shares), None, tx)
  end.

Definition TopicCreateP2P (db : DB) (initiator invited : Subscription)
  : option error * DB :=
  match createSubscription db initiator false with
  | (Some e, _) => (Some e, db)
  | (None, tx) =>
      match createSubscription tx invited true with
      | (Some e, _) => (Some e, db)
      | (None, tx) =>
          let topic :=
            {| top_header :=
                 MergeTimes
                   {| CreatedAt := zero_time; UpdatedAt := zero_time;
                      DeletedAt := None |} (sub_header initiator);
               top_TouchedAt := sub_touchedAt initiator;
               top_Id := Topic initiator; top_Owner := "";
               top_Access := {| Auth := 0; Anon := 0 |};
               top_SeqId := 0; top_DelId := 0; top_Public := INil;
               top_Tags := [] |} in
          match topicCreate tx topic with
          | (Some e, _) => (Some e, db)
          | (None, tx) => (None, tx)
          end
      end
  end.

End Creation.

(** ** More sample data *)

Module Scenario.

(** Topic [grpT] with messages 1 to 3 and an empty deletion log. *)
Definition three_messages : DB :=
  set_dellog (Sample.topic_with 3 0 0) [].

(** Alice and Bob, the topic [grpT], and Alice subscribed to it. *)
Definition subscribed : DB :=
  {| users := [Sample.userA; Sample.userB]; usertags := [];
     topics := [Sample.topicT]; topictags := [];
     subscriptions := [Sample.subscription 7 "grpT" None];
     messages := []; dellog := []; credentials := []; filemsglinks := [] |}.

(** Alice's address as a confirmed credential. *)
Definition confirmed_cred : Credential :=
  {| cr_CreatedAt := 20; cr_UpdatedAt := 20; cr_User := "8";
     cr_Method := "email"; cr_Value := "alice@example.com";
     cr_Resp := "111"; cr_Done := true; cr_Retries := 0 |}.

Definition login : auth_row :=
  {| a_uname := "basic:alice"; a_userid := 7; a_scheme := "basic";
     a_authlvl := 20; a_secret := "s3cret"; a_expires := None |}.

Definition token : auth_row :=
  {| a_uname := "token:alice"; a_userid := 7; a_scheme := "token";
     a_authlvl := 10; a_secret := "t0ken"; a_expires := Some 900 |}.

Definition upload : file_row :=
  {| fu_id := 7; fu_createdat := 30; fu_updatedat := 30; fu_userid := 7;
     fu_status := 0; fu_mimetype := "image/png"; fu_size := 0;
     fu_location := "uploads/7" |}.

Definition phone : DeviceDef :=
  {| DeviceId := "device-1"; Platform := "android"; LastSeen := 40;
     Lang := "en" |}.

(** Alice and Bob with nothing else stored. *)
Definition two_users : Store :=
  {| base :=
       {| users := [Sample.userA; Sample.userB]; usertags := [];
          topics := []; topictags := []; subscriptions := [];
          messages := []; dellog := []; credentials := [];
          filemsglinks := [] |};
     auth := []; devices := []; fileuploads := [] |}.

(** The same with Alice's two logins, one upload and her phone registered to
    Bob. *)
Definition in_use : Store :=
  {| base := base two_users; auth := [login; token];
     devices :=
       [{| dv_userid := 9; dv_hash := "stale"; dv_deviceid := "device-0";
           dv_platform := "ios"; dv_lastseen := 5; dv_lang := "fr" |}];
     fileuploads := [upload] |}.

(** A stand-in for [json.Marshal] and for the ownership test on modes. *)
Definition marshal (v : iface) : string :=
  match v with
  | INil => "null"
  | IJson doc => doc
  | IStrings _ => "[]"
  end.

Definition is_owner (given want : string) : bool :=
  match index 0 "O" given, index 0 "O" want with
  | Some _, Some _ => true
  | _, _ => false
  end.

(** A request to subscribe [user] to [topic]. *)
Definition share (user topic : string) : Subscription :=
  {| sub_header := {| CreatedAt := 60; UpdatedAt := 60; DeletedAt := None |};
     User := user; Topic := topic; DelId := 0; RecvSeqId := 0;
     ReadSeqId := 0; ModeWant := "JRWPS"; ModeGiven := "JRWPS";
     Private := IJson "[1]"; sub_public := INil; sub_with := "";
     sub_seqId := 0; sub_touchedAt := None; sub_modeDefault := None;
     sub_lastSeen := None; sub_userAgent := "" |}.

(** A new group topic owned by Alice. *)
Definition group : TopicRec :=
  {| top_header := {| CreatedAt := 70; UpdatedAt := 70; DeletedAt := None |};
     top_TouchedAt := None; top_Id := "grpN"; top_Owner := "8";
     top_Access := {| Auth := 0; Anon := 0 |}; top_SeqId := 0;
     top_DelId := 0; top_Public := IJson "[2]";
     top_Tags := ["city:paris"; "lang:fr"] |}.

End Scenario.

(** * Properties *)

Lemma digit_val_digit d :
  0 <= d < 10 -> Go.digit_val (Go.digit d) = Some d.
Proof.
  intros H.
  assert (d = 0 \/ d = 1 \/ d = 2 \/ d = 3 \/ d = 4 \/ d = 5 \/ d = 6 \/
          d = 7 \/ d = 8 \/ d = 9) as C by lia.
  repeat (destruct C as [-> | C]; [reflexivity |]). subst d. reflexivity.
Qed.

Lemma parse_acc_digits fuel :
  forall n acc, 0 <= n < 2 ^ Z.of_nat fuel ->
    Go.parse_acc (Go.digits fuel n acc) 0 = Go.parse_acc acc n.
Proof.
  induction fuel as [| f IH]; intros n acc Hn.
  - simpl in *. replace n with 0 by lia. reflexivity.
  - cbn [Go.digits]. destruct (n <? 10) eqn:E.
    + apply Z.ltb_lt in E. cbn [Go.parse_acc].
      rewrite Z.mod_small by lia. rewrite digit_val_digit by lia.
      f_equal.
    + apply Z.ltb_ge in E.
      rewrite IH.
      * cbn [Go.parse_acc].
        rewrite digit_val_digit by (apply Z.mod_pos_bound; lia).
        f_equal. pose proof (Z.div_mod n 10). lia.
      * rewrite Nat2Z.inj_succ, Z.pow_succ_r in Hn by lia.
        split; [apply Z.div_pos; lia |].
        apply Z.div_lt_upper_bound; lia.
Qed.

Lemma digits_nonempty f n acc : Go.digits (S f) n acc <> EmptyString.
Proof.
  revert n acc. induction f as [| f IH]; intros n acc; cbn [Go.digits].
  - destruct (n <? 10); discriminate.
  - destruct (n <? 10); [discriminate | apply IH].
Qed.

Lemma parse_digits_decimal n :
  0 <= n -> Go.parse_digits (Go.decimal n) = Some n.
Proof.
  intros Hn. unfold Go.parse_digits, Go.decimal.
  destruct (Go.digits (S (Z.to_nat (Z.log2 n))) n "") eqn:E.
  - exfalso. eapply digits_nonempty; eauto.
  - rewrite <- E. rewrite parse_acc_digits; [reflexivity |].
    rewrite Nat2Z.inj_succ, Z2Nat.id by apply Z.log2_nonneg.
    destruct (Z.eq_dec n 0) as [-> | Hz]; [simpl; lia |].
    split; [lia | apply Z.log2_spec; lia].
Qed.

Lemma split_sign_digit c r d :
  Go.digit_val c = Some d -> Go.split_sign (String c r) = (false, String c r).
Proof.
  destruct c as [b0 b1 b2 b3 b4 b5 b6 b7].
  destruct b0, b1, b2, b3, b4, b5, b6, b7; intros H;
    solve [reflexivity | discriminate H].
Qed.

Lemma ParseInt_decimal n :
  0 <= n <= Go.MaxInt64 -> Go.ParseInt (Go.decimal n) = (n, false).
Proof.
  intros Hn. pose proof (parse_digits_decimal n (proj1 Hn)) as Hp.
  unfold Go.ParseInt.
  destruct (Go.decimal n) as [| c r] eqn:E; [discriminate Hp |].
  assert (exists d, Go.digit_val c = Some d) as [d Hd].
  { simpl in Hp. destruct (Go.digit_val c); [eauto | discriminate]. }
  rewrite (split_sign_digit c r d Hd), Hp.
  unfold Go.MaxInt64 in Hn.
  destruct (2 ^ 63 <=? n) eqn:C; [apply Z.leb_le in C; lia | reflexivity].
Qed.

Lemma ParseInt_FormatInt n :
  Go.MinInt64 <= n <= Go.MaxInt64 -> Go.ParseInt (Go.FormatInt n) = (n, false).
Proof.
  intros Hn. unfold Go.FormatInt, Go.MinInt64, Go.MaxInt64 in *.
  destruct (n <? 0) eqn:S.
  - apply Z.ltb_lt in S. unfold Go.ParseInt. cbn [Go.split_sign].
    rewrite parse_digits_decimal by lia.
    destruct (2 ^ 63 <? - n) eqn:C; [apply Z.ltb_lt in C; lia |].
    f_equal. lia.
  - apply Z.ltb_ge in S. apply ParseInt_decimal. unfold Go.MaxInt64. lia.
Qed.

Lemma ParseInt_non_numeric s : non_numeric s -> Go.ParseInt s = (0, true).
Proof.
  unfold non_numeric, Go.ParseInt. destruct (Go.split_sign s) as [neg body].
  simpl. intros ->. reflexivity.
Qed.

Section CodecProperties.

Context {P : Packages}.

(** C9.  Under the contract of the identifier codec, every valid numeric id
    [n >= 1] survives encoding and decoding, also through the decimal text
    the adapter reads from a row and the text form of the identifier; a text
    that is not the form of any identifier decodes to the zero id; and
    [encodeUidString] of a text that is not a number is the zero identifier.
    None of the three reports an error: the functions are total. *)
Theorem uid_codec_round_trip :
  codec_contract ->
  (forall n, 1 <= n <= Go.MaxInt64 ->
     DecodeUid (EncodeUid n) = n /\
     decodeUidString (UidString (encodeUidString (Go.FormatInt n))) = n) /\
  (forall s, (forall u, UidString u <> s) -> decodeUidString s = 0) /\
  (forall s, non_numeric s ->
     encodeUidString s = ZeroUid /\ DecodeUid (encodeUidString s) = 0).
Proof.
  intros (Hde & He0 & Hd0 & Hpos & Hps & Hmal).
  repeat split.
  - now apply Hde.
  - unfold decodeUidString, encodeUidString.
    rewrite ParseInt_FormatInt by (unfold Go.MinInt64, Go.MaxInt64 in *; lia).
    rewrite Hps by (apply Hpos; lia). now apply Hde.
  - intros s Hs. unfold decodeUidString. rewrite (Hmal s Hs). exact Hd0.
  - unfold encodeUidString. rewrite (ParseInt_non_numeric s H). exact He0.
  - unfold encodeUidString. rewrite (ParseInt_non_numeric s H), He0.
    exact Hd0.
Qed.

End CodecProperties.

Lemma demo_swap_involutive n : 1 <= n -> Demo.swap_id (Demo.swap_id n) = n.
Proof.
  intros Hn. unfold Demo.swap_id.
  destruct (n =? 0) eqn:E0; [apply Z.eqb_eq in E0; lia |].
  destruct (Z.odd n) eqn:O.
  - destruct (n + 1 =? 0) eqn:E1; [apply Z.eqb_eq in E1; lia |].
    replace (n + 1) with (Z.succ n) by lia. rewrite Z.odd_succ.
    rewrite <- Z.negb_odd, O. simpl. lia.
  - assert (n <> 1) by (intros ->; discriminate O).
    destruct (n - 1 =? 0) eqn:E1; [apply Z.eqb_eq in E1; lia |].
    replace (n - 1) with (Z.pred n) by lia. rewrite Z.odd_pred.
    rewrite <- Z.negb_odd, O. simpl. lia.
Qed.

Lemma demo_contract : @codec_contract Demo.packages.
Proof.
  unfold codec_contract. cbn [EncodeUid DecodeUid ParseUid UidString Demo.packages].
  repeat split.
  - intros n Hn. apply demo_swap_involutive. lia.
  - intros n Hn. unfold Demo.swap_id.
    destruct (n =? 0) eqn:E0; [lia |]. apply Z.eqb_neq in E0.
    destruct (Z.odd n); lia.
  - intros u Hu. unfold Demo.parse_uid.
    rewrite parse_digits_decimal by exact Hu. now rewrite String.eqb_refl.
  - intros s Hs. unfold Demo.parse_uid.
    destruct (Go.parse_digits s) as [n |]; [| reflexivity].
    destruct (String.eqb (Go.decimal n) s) eqn:E; [| reflexivity].
    apply String.eqb_eq in E. now elim (Hs n).
Qed.

Lemma uid_codec_round_trip_witness :
  @codec_contract Demo.packages /\
  @DecodeUid Demo.packages (@EncodeUid Demo.packages 41) = 41 /\
  @decodeUidString Demo.packages "not-a-uid" = 0 /\
  @encodeUidString Demo.packages "garbage" = ZeroUid.
Proof.
  pose proof (@uid_codec_round_trip Demo.packages demo_contract)
    as (Hn & Hs & He).
  split; [exact demo_contract |].
  split; [apply (Hn 41); unfold Go.MaxInt64; lia |].
  split; [reflexivity | apply (He "garbage"); reflexivity].
Defined.

(** ** Listing messages *)

Lemma In_insert_by {A} (le : A -> A -> bool) (x y : A) (l : list A) :
  In y (insert_by le x l) <-> y = x \/ In y l.
Proof.
  induction l as [| z l IH]; simpl; [intuition |].
  destruct (le x z); simpl; [intuition |]. rewrite IH. intuition.
Qed.

Lemma In_sort_by {A} (le : A -> A -> bool) (y : A) (l : list A) :
  In y (sort_by le l) <-> In y l.
Proof.
  induction l as [| x l IH]; simpl; [intuition |].
  fold (sort_by le l). rewrite In_insert_by, IH. intuition.
Qed.

Lemma length_insert_by {A} (le : A -> A -> bool) (x : A) (l : list A) :
  List.length (insert_by le x l) = S (List.length l).
Proof.
  induction l as [| z l IH]; simpl; [reflexivity |].
  destruct (le x z); simpl; [reflexivity | now rewrite IH].
Qed.

Lemma length_sort_by {A} (le : A -> A -> bool) (l : list A) :
  List.length (sort_by le l) = List.length l.
Proof.
  induction l as [| x l IH]; simpl; [reflexivity |].
  fold (sort_by le l). now rewrite length_insert_by, IH.
Qed.

Lemma sort_by_map {A B} (g : A -> B) (le : A -> A -> bool)
    (le' : B -> B -> bool) (l : list A) :
  (forall x y, le' (g x) (g y) = le x y) ->
  sort_by le' (map g l) = map g (sort_by le l).
Proof.
  intros H. induction l as [| x l IH]; [reflexivity |].
  cbn [map sort_by fold_right]. fold (sort_by le l) (sort_by le' (map g l)).
  rewrite IH. generalize (sort_by le l). intros s.
  induction s as [| y s IHs]; [reflexivity |].
  cbn [map insert_by]. rewrite H. destruct (le x y); [reflexivity |].
  cbn [map]. now rewrite IHs.
Qed.

Lemma filter_left_join {A B} (on : A -> B -> bool) (c : A -> bool)
    (l : list A) (r : list B) :
  filter (fun md : A * option B => let (m, d) := md in c m && is_null d)
    (left_join on l r) =
  map (fun m => (m, None))
    (filter (fun m => c m && forallb (fun d => negb (on m d)) r) l).
Proof.
  unfold left_join. induction l as [| x l IH]; [reflexivity |].
  cbn [flat_map filter]. rewrite filter_app, IH.
  destruct (filter (on x) r) as [| y ys] eqn:E.
  - assert (forallb (fun d => negb (on x d)) r = true) as ->.
    { apply forallb_forall. intros d Hd. apply negb_true_iff.
      destruct (on x d) eqn:O; [| reflexivity].
      assert (In d (filter (on x) r)) as Hin by (apply filter_In; auto).
      rewrite E in Hin. destruct Hin. }
    cbn [filter is_null]. rewrite !andb_true_r.
    destruct (c x); reflexivity.
  - assert (forallb (fun d => negb (on x d)) r = false) as ->.
    { apply not_true_is_false. intros Hall.
      rewrite forallb_forall in Hall.
      assert (In y (filter (on x) r)) as Hin by (rewrite E; now left).
      apply filter_In in Hin as [Hin Hon]. specialize (Hall y Hin).
      rewrite Hon in Hall. discriminate. }
    rewrite andb_false_r.
    replace (filter _ (map (fun y0 : B => (x, Some y0)) (y :: ys)))
      with (@nil (A * option B)); [reflexivity |].
    symmetry. generalize (y :: ys). intros zs.
    induction zs as [| z zs IHz]; [reflexivity |].
    cbn [map filter is_null]. now rewrite andb_false_r.
Qed.

Lemma fold_left_invariant {A B} (f : A -> B -> A) (I : A -> Prop)
    (l : list B) (a0 : A) :
  I a0 -> (forall a b, In b l -> I a -> I (f a b)) -> I (fold_left f l a0).
Proof.
  revert a0. induction l as [| b l IH]; intros a0 H0 Hstep; [exact H0 |].
  cbn [fold_left]. apply IH.
  - apply Hstep; [now left | exact H0].
  - intros a1 b1 Hb. apply Hstep. now right.
Qed.

Lemma In_limit_rows {A} (n : Z) (x : A) (l : list A) :
  In x (limit_rows n l) -> In x l.
Proof.
  unfold limit_rows. generalize (Z.to_nat n). intros k. revert l.
  induction k as [| k IH]; intros [| y l]; simpl; try tauto.
  intros [-> | H]; [now left | right; now apply IH].
Qed.

Section MessageListing.

Context {P : Packages}.

(** [MessageGetAll] returns the visible messages, highest sequence id first,
    cut at the limit. *)
Lemma MessageGetAll_visible (a : adapter) (db : DB) topic u opts :
  MessageGetAll a db topic u opts =
    (map scan_message
       (limit_rows (snd (query_window a 0 opts))
          (sort_by (fun x y => m_seqid y <=? m_seqid x)
             (visible_messages a db topic u opts))),
     None).
Proof.
  unfold MessageGetAll, visible_messages.
  destruct (query_window a 0 opts) as [[lower upper] limit]. cbn [snd].
  f_equal.
  rewrite (filter_left_join (dellog_covers (DecodeUid u))
             (fun m => (m_delid m =? 0) && String.eqb (m_topic m) topic &&
                       ((lower <=? m_seqid m) && (m_seqid m <=? upper)))).
  rewrite (sort_by_map (fun m : msg_row => (m, @None dellog_row))
             (fun x y => m_seqid y <=? m_seqid x)) by reflexivity.
  unfold limit_rows. rewrite firstn_map, map_map. reflexivity.
Qed.




End MessageListing.


(** ** Deleting a credential *)

Section CredentialDeletion.

Context {P : Packages}.

Lemma map_if_false {A} (f : A -> bool) (g : A -> A) (l : list A) :
  (forall x, In x l -> f x = false) ->
  map (fun x => if f x then g x else x) l = l.
Proof.
  induction l as [| x l IH]; intros H; simpl; [reflexivity |].
  rewrite (H x (or_introl eq_refl)), IH; [reflexivity |].
  intros y Hy. apply H. now right.
Qed.

(** What [credDel] does for a given method and value: the rows of that user,
    method and value that are confirmed or were never retried are removed,
    and no row is changed, because the renumbered condition of the second
    statement compares each column with an argument of another kind. *)
Lemma credDel_effect (tx : DB) uid method value now :
  method <> "" -> value <> "" ->
  credDel tx uid method value now =
    (None,
     set_credentials tx
       (filter (fun c =>
          negb ((c_userid c =? DecodeUid uid) &&
                String.eqb (c_method c) method &&
                String.eqb (c_value c) value &&
                (c_done c || (c_retries c =? 0))))
          (credentials tx))).
Proof.
  intros Hm Hv. unfold credDel.
  apply String.eqb_neq in Hm, Hv. rewrite Hm, Hv. cbn [negb].
  f_equal. cbv beta iota. unfold set_credentials at 1. cbn [credentials
    users usertags topics topictags subscriptions messages dellog
    filemsglinks].
  unfold set_credentials. f_equal.
  rewrite map_if_false.
  - apply filter_ext. intros c. unfold credentials_where.
    change (Go.placeholders _) with [1; 2; 3].
    simpl. now rewrite andb_true_r, !andb_assoc.
  - intros c _. unfold credentials_where.
    change (Go.placeholders _) with [4; 2; 3].
    reflexivity.
Qed.

(** C5.  [CredDel] of an unconfirmed credential that has one recorded
    failure leaves the stored state as it was: the row is not removed, and
    it is not marked deleted either, its [deletedat] stays empty. *)
Theorem CredDel_retried_row_stays_active (uid : Uid) (user : string)
    (now : time) :
  let db :=
    set_credentials Sample.empty
      [Sample.retried_credential (DecodeUid uid) user] in
  CredDel db uid "email" "alice@example.com" now = (None, db) /\
  map c_deletedat (credentials db) = [None].
Proof.
  cbv zeta. split; [| reflexivity].
  unfold CredDel. rewrite credDel_effect by discriminate.
  cbn. rewrite Z.eqb_refl. reflexivity.
Qed.

End CredentialDeletion.

(** ** Deleting a list of messages *)

Section MessageDeletion.

Context {P : Packages}.

(** C3.  With an empty list of ranges, [MessageDeleteList] for one user
    returns no error and leaves the stored state as it was, whereas for
    everyone (an empty [DeletedFor]) it panics on [SeqIdRanges[0]]. *)
Theorem MessageDeleteList_empty_ranges (db : DB) (topic dtopic dfor : string)
    (delId : Z) (now : time) :
  MessageDeleteList db topic
    (Some {| dm_Topic := dtopic; dm_DeletedFor := dfor; dm_DelId := delId;
             dm_SeqIdRanges := [] |}) now =
  if String.eqb dfor "" then Panicked else Returned None db.
Proof.
  unfold MessageDeleteList, messageDeleteList. cbn.
  destruct (String.eqb dfor ""); reflexivity.
Qed.

Lemma filter_all {A} (p : A -> bool) (l : list A) :
  forallb p l = true -> filter p l = l.
Proof.
  induction l as [| x l IH]; simpl; [reflexivity |].
  intros H. apply andb_prop in H as [Hx Hl]. now rewrite Hx, IH.
Qed.

Lemma filter_none {A} (p : A -> bool) (l : list A) :
  forallb (fun x => negb (p x)) l = true -> filter p l = [].
Proof.
  induction l as [| x l IH]; simpl; [reflexivity |].
  intros H. apply andb_prop in H as [Hx Hl].
  apply negb_true_iff in Hx. now rewrite Hx, IH.
Qed.

Lemma sort_by_ordered {A} (le : A -> A -> bool) (l : list A) :
  (forall x y, In x l -> In y l -> le x y = true) -> sort_by le l = l.
Proof.
  induction l as [| x l IH]; intros H; [reflexivity |].
  cbn [sort_by fold_right]. fold (sort_by le l).
  rewrite IH by (intros; apply H; now right).
  destruct l as [| y l']; [reflexivity |]. cbn [insert_by].
  now rewrite H by (simpl; auto).
Qed.

Lemma same_single_write r r' :
  same_single r r' -> write_norm r = write_norm r'.
Proof.
  destruct 1 as [r | low | low]; [reflexivity | |]; unfold write_norm; cbn.
  - destruct (Go.add low 1 =? 0) eqn:E; [| reflexivity].
    apply Z.eqb_eq in E. now rewrite E.
  - destruct (Go.add low 1 =? 0) eqn:E; [| reflexivity].
    apply Z.eqb_eq in E. now rewrite E.
Qed.

Lemma same_single_rows topic f d rs rs' :
  Forall2 same_single rs rs' ->
  map (logged_row topic f d) rs = map (logged_row topic f d) rs'.
Proof.
  induction 1 as [| r r' rs rs' Hr _ IH]; [reflexivity |].
  cbn [map]. rewrite IH. f_equal. unfold logged_row.
  now rewrite (same_single_write r r' Hr), (f_equal Low (same_single_write r r' Hr)
    : Low r = Low r').
Qed.

Lemma read_write_wire r : wire_form r -> read_norm (write_norm r) = r.
Proof.
  destruct r as [low hi]. unfold wire_form, read_norm, write_norm. cbn.
  intros [-> | H].
  - cbn. now rewrite Z.leb_refl.
  - destruct (hi =? 0) eqn:E.
    + apply Z.eqb_eq in E. subst hi. cbn. now rewrite Z.leb_refl.
    + cbn. destruct (hi <=? Go.add low 1) eqn:C; [| reflexivity].
      apply Z.leb_le in C. lia.
Qed.

Lemma log_ranges_ok (topic : string) f d rs :
  forall tx sc, topic_exists tx topic = true ->
  exists sc' tx',
    log_ranges tx topic f d rs sc = (sc', None, tx') /\
    dellog tx' = (dellog tx ++ map (logged_row topic f d) rs)%list /\
    topics tx' = topics tx.
Proof.
  induction rs as [| r rs IH]; intros tx sc Ht.
  - exists sc, tx. cbn. now rewrite app_nil_r.
  - cbn [log_ranges]. unfold insert_dellog. cbn [d_topic]. rewrite Ht.
    edestruct IH as (sc' & tx' & E & Hd & Htp); [| rewrite E].
    + unfold topic_exists. cbn. exact Ht.
    + exists sc', tx'. split; [reflexivity |]. split; [| exact Htp].
      rewrite Hd. cbn. now rewrite <- app_assoc.
Qed.

Lemma log_ranges_fk (topic : string) f d r rs tx sc :
  topic_exists tx topic = false ->
  exists sc',
    log_ranges tx topic f d (r :: rs) sc =
      (sc', Some (ErrEngine ForeignKeyViolation), tx).
Proof.
  intros Ht. cbn [log_ranges]. unfold insert_dellog. cbn [d_topic].
  rewrite Ht. eauto.
Qed.

Lemma hard_delete_log (tx : DB) topic toDel sc now :
  match dm_SeqIdRanges toDel with
  | [] => hard_delete tx topic toDel sc now = TxPanic
  | _ :: _ =>
      exists tx', hard_delete tx topic toDel sc now = TxDone None tx' /\
                  dellog tx' = dellog tx /\ topics tx' = topics tx
  end.
Proof.
  unfold hard_delete.
  destruct (dm_SeqIdRanges toDel) as [| r0 [| r1 rest]] eqn:E.
  - reflexivity.
  - cbn [List.length Z.of_nat Z.ltb Z.compare Pos.compare Pos.compare_cont].
    cbv iota. destruct (Hi r0 =? 0).
    + destruct (in_list (Z.to_nat sc) 0 _) as [qv w]. eexists.
      split; [reflexivity |]. split; reflexivity.
    + eexists. split; [reflexivity |]. split; reflexivity.
  - replace (1 <? Z.of_nat (List.length (r0 :: r1 :: rest))) with true
      by (symmetry; apply Z.ltb_lt; cbn [List.length]; lia).
    destruct (in_list (Z.to_nat sc) 0 _) as [qv w]. eexists.
    split; [reflexivity |]. split; reflexivity.
Qed.

Lemma MessageGetDeleted_log (a : adapter) (r1 r2 : DB) topic u opts :
  dellog r1 = dellog r2 ->
  MessageGetDeleted a r1 topic u opts = MessageGetDeleted a r2 topic u opts.
Proof. intros H. unfold MessageGetDeleted. now rewrite H. Qed.

(** One deletion request in two spellings, run on states that agree on the
    log and on the topics, ends in outcomes that agree on them again. *)
Lemma MessageDeleteList_same_single (db1 db2 : DB) topic dt dt' dfor d rs rs'
    now :
  dellog db1 = dellog db2 -> topics db1 = topics db2 ->
  Forall2 same_single rs rs' ->
  same_log
    (MessageDeleteList db1 topic
       (Some {| dm_Topic := dt; dm_DeletedFor := dfor; dm_DelId := d;
                dm_SeqIdRanges := rs |}) now)
    (MessageDeleteList db2 topic
       (Some {| dm_Topic := dt'; dm_DeletedFor := dfor; dm_DelId := d;
                dm_SeqIdRanges := rs' |}) now).
Proof.
  intros Hd Ht Hrs. unfold MessageDeleteList, messageDeleteList.
  cbn [dm_DeletedFor dm_DelId dm_SeqIdRanges].
  set (f := decodeUidString dfor).
  pose proof (same_single_rows topic f d rs rs' Hrs) as Hrows.
  assert (topic_exists db1 topic = topic_exists db2 topic) as Hex
    by (unfold topic_exists; now rewrite Ht).
  destruct (topic_exists db1 topic) eqn:E1.
  - destruct (log_ranges_ok topic f d rs db1 0 E1)
      as (sc1 & tx1 & -> & Hd1 & Ht1).
    destruct (log_ranges_ok topic f d rs' db2 0 (eq_sym Hex))
      as (sc2 & tx2 & -> & Hd2 & Ht2).
    cbn [is_null andb].
    assert (dellog tx1 = dellog tx2) as Hdd by (rewrite Hd1, Hd2, Hd, Hrows; reflexivity).
    assert (topics tx1 = topics tx2) as Htt by (rewrite Ht1, Ht2; exact Ht).
    destruct (String.eqb dfor "").
    + pose proof (hard_delete_log tx1 topic
        {| dm_Topic := dt; dm_DeletedFor := dfor; dm_DelId := d;
           dm_SeqIdRanges := rs |} sc1 now) as H1.
      pose proof (hard_delete_log tx2 topic
        {| dm_Topic := dt'; dm_DeletedFor := dfor; dm_DelId := d;
           dm_SeqIdRanges := rs' |} sc2 now) as H2.
      cbn [dm_SeqIdRanges] in H1, H2.
      destruct Hrs as [| r r' rs rs' _ _].
      * rewrite H1, H2. exact I.
      * destruct H1 as (t1 & -> & Hd1' & Ht1').
        destruct H2 as (t2 & -> & Hd2' & Ht2').
        cbn. repeat split; congruence.
    + cbn. repeat split; assumption.
  - destruct Hrs as [| r r' rs rs' _ _].
    + cbn. destruct (String.eqb dfor ""); cbn; [exact I |].
      repeat split; assumption.
    + destruct (log_ranges_fk topic f d r rs db1 0 E1) as (sc1 & ->).
      destruct (log_ranges_fk topic f d r' rs' db2 0 (eq_sym Hex))
        as (sc2 & ->).
      cbn. repeat split; assumption.
Qed.

Lemma deleted_fold_group topic f d rs :
  forall acc dmsg, dm_DelId dmsg = d ->
  fold_left deleted_step (map (logged_row topic f d) rs) (acc, dmsg) =
    (acc, add_ranges dmsg (map (fun r => read_norm (write_norm r)) rs)).
Proof.
  induction rs as [| r rs IH]; intros acc dmsg Hd.
  - cbn. unfold add_ranges. rewrite app_nil_r. now destruct dmsg.
  - cbn [map fold_left]. unfold deleted_step at 2.
    cbn [logged_row d_delid d_low d_hi d_topic d_deletedfor].
    rewrite Hd, Z.eqb_refl. cbn [negb].
    rewrite IH by exact Hd. f_equal. unfold add_ranges.
    cbn [dm_Topic dm_DeletedFor dm_DelId dm_SeqIdRanges].
    now rewrite <- app_assoc.
Qed.

Lemma MessageDeleteList_commits (db : DB) topic dt dfor d rs now :
  topic_exists db topic = true -> rs <> [] ->
  exists db',
    MessageDeleteList db topic
      (Some {| dm_Topic := dt; dm_DeletedFor := dfor; dm_DelId := d;
               dm_SeqIdRanges := rs |}) now = Returned None db' /\
    dellog db' =
      (dellog db ++ map (logged_row topic (decodeUidString dfor) d) rs)%list /\
    topics db' = topics db.
Proof.
  intros Ht Hrs. unfold MessageDeleteList, messageDeleteList.
  cbn [dm_DeletedFor dm_DelId dm_SeqIdRanges].
  destruct (log_ranges_ok topic (decodeUidString dfor) d rs db 0 Ht)
    as (sc & tx & -> & Hd & Htp).
  cbn [is_null andb]. destruct (String.eqb dfor "").
  - pose proof (hard_delete_log tx topic
      {| dm_Topic := dt; dm_DeletedFor := dfor; dm_DelId := d;
         dm_SeqIdRanges := rs |} sc now) as H.
    cbn [dm_SeqIdRanges] in H. destruct rs as [| r rs]; [now elim Hrs |].
    destruct H as (tx' & -> & Hd' & Htp'). exists tx'. cbn [in_transaction].
    split; [reflexivity |]. split; [rewrite Hd'; exact Hd | congruence].
  - exists tx. cbn [in_transaction].
    split; [reflexivity |]. split; [exact Hd | exact Htp].
Qed.

Lemma wrap64_small z :
  Go.MinInt64 <= z <= Go.MaxInt64 -> Go.wrap64 z = z.
Proof.
  unfold Go.wrap64, Go.MinInt64, Go.MaxInt64. intros H.
  rewrite Z.mod_small by lia. lia.
Qed.

Lemma add_one low :
  Go.MinInt64 <= low < Go.MaxInt64 -> Go.add low 1 = low + 1.
Proof.
  intros H. unfold Go.add. apply wrap64_small.
  unfold Go.MinInt64, Go.MaxInt64 in *. lia.
Qed.

Lemma add_one_max : Go.add Go.MaxInt64 1 = Go.MinInt64.
Proof. reflexivity. Qed.

(** A list in the order asked for is left as it is. *)
Lemma sort_by_kept {A} (le : A -> A -> bool) (l : list A) :
  StronglySorted (fun x y => le x y = true) l -> sort_by le l = l.
Proof.
  induction 1 as [| x l Hs IH Hx]; [reflexivity |].
  cbn [sort_by fold_right]. fold (sort_by le l). rewrite IH.
  destruct l as [| y l']; [reflexivity |]. cbn [insert_by].
  inversion Hx as [| ? ? Hxy _]; subst. now rewrite Hxy.
Qed.

(** The rows of a deletion id that differs from the one of [dmsg]: [dmsg]
    is handed out when it stands for an event, and the new event goes on
    from the ranges of [dmsg]. *)
Lemma deleted_fold_next topic f d r rs acc dmsg :
  dm_DelId dmsg <> d ->
  fold_left deleted_step (map (logged_row topic f d) (r :: rs)) (acc, dmsg) =
    (if 0 <? dm_DelId dmsg then (acc ++ [dmsg])%list else acc,
     {| dm_Topic := topic;
        dm_DeletedFor := if 0 <? f then UidString (EncodeUid f)
                         else dm_DeletedFor dmsg;
        dm_DelId := d;
        dm_SeqIdRanges :=
          (dm_SeqIdRanges dmsg ++
           map (fun r => read_norm (write_norm r)) (r :: rs))%list |}).
Proof.
  intros Hd. cbn [map fold_left]. unfold deleted_step at 2.
  cbn [logged_row d_delid d_low d_hi d_topic d_deletedfor].
  replace (d =? dm_DelId dmsg) with false
    by (symmetry; apply Z.eqb_neq; congruence).
  cbn [negb]. destruct (0 <? dm_DelId dmsg);
    rewrite (deleted_fold_group topic f d rs) by reflexivity;
    unfold add_ranges;
    cbn [dm_Topic dm_DeletedFor dm_DelId dm_SeqIdRanges];
    now rewrite <- app_assoc.
Qed.

(** What a reader finds after two deletions were logged, one after the
    other, for a topic whose log was empty. *)
Lemma MessageGetDeleted_two (a : adapter) (db' : DB) old topic f d1 d2 rs1
    rs2 forUser o :
  dellog db' =
    (old ++ map (logged_row topic f d1) rs1 ++
     map (logged_row topic f d2) rs2)%list ->
  forallb (fun r => negb (String.eqb (d_topic r) topic)) old = true ->
  0 < d1 < d2 -> opt_Since o <= d1 -> d2 < opt_Before o <= 2 ^ 31 ->
  rs1 <> [] -> rs2 <> [] ->
  f = 0 \/ f = DecodeUid forUser ->
  Z.of_nat (List.length rs1 + List.length rs2)
    <= snd (query_window a 1 (Some o)) ->
  let wire := map (fun r => read_norm (write_norm r)) in
  let dfor := if 0 <? f then UidString (EncodeUid f) else "" in
  MessageGetDeleted a db' topic forUser (Some o) =
    ([{| dm_Topic := topic; dm_DeletedFor := dfor; dm_DelId := d1;
         dm_SeqIdRanges := wire rs1 |};
      {| dm_Topic := topic; dm_DeletedFor := dfor; dm_DelId := d2;
         dm_SeqIdRanges := (wire rs1 ++ wire rs2)%list |}],
     None).
Proof.
  intros Hlog Hold Hd Hs Hb Hrs1 Hrs2 Hf Hlim wire dfor.
  unfold MessageGetDeleted. cbn [query_window] in *.
  replace (1 <? opt_Before o) with true in *
    by (symmetry; apply Z.ltb_lt; lia).
  replace (Go.sub (opt_Before o) 1) with (opt_Before o - 1)
    by (symmetry; apply wrap64_small; unfold Go.MinInt64, Go.MaxInt64; lia).
  cbn [snd] in Hlim.
  set (lower := if 0 <? opt_Since o then opt_Since o else 0).
  assert (Hlow : lower <= d1)
    by (unfold lower; destruct (0 <? opt_Since o); lia).
  assert (Hpass : forall d rs, lower <= d <= opt_Before o - 1 ->
            filter (fun r => String.eqb (d_topic r) topic &&
                             ((lower <=? d_delid r) &&
                              (d_delid r <=? opt_Before o - 1)) &&
                             ((d_deletedfor r =? 0) ||
                              (d_deletedfor r =? DecodeUid forUser)))
              (map (logged_row topic f d) rs) = map (logged_row topic f d) rs).
  { intros d rs Hw. apply filter_all, forallb_forall. intros r Hr.
    apply in_map_iff in Hr as (x & <- & _).
    cbn [logged_row d_topic d_delid d_deletedfor].
    rewrite String.eqb_refl. cbn [andb].
    replace (lower <=? d) with true by (symmetry; apply Z.leb_le; lia).
    replace (d <=? opt_Before o - 1) with true
      by (symmetry; apply Z.leb_le; lia).
    cbn [andb]. apply orb_true_iff.
    destruct Hf as [-> | ->]; [left | right]; apply Z.eqb_refl. }
  rewrite Hlog, !filter_app.
  rewrite (filter_none _ old), app_nil_l.
  2:{ apply forallb_forall. intros r Hr.
      rewrite forallb_forall in Hold. specialize (Hold r Hr).
      apply negb_true_iff in Hold. now rewrite Hold. }
  rewrite !Hpass by lia.
  rewrite sort_by_kept.
  2:{ clear - Hd. induction rs1 as [| r rs1 IH]; cbn [map app].
      - induction rs2 as [| r rs2 IH]; cbn [map]; constructor; [exact IH |].
        apply Forall_forall. intros y Hy. apply in_map_iff in Hy as (? & <- & _).
        cbn. apply Z.leb_refl.
      - constructor; [exact IH |].
        apply Forall_forall. intros y Hy.
        apply in_app_or in Hy as [Hy | Hy];
          apply in_map_iff in Hy as (? & <- & _); cbn; apply Z.leb_le; lia. }
  unfold limit_rows.
  rewrite firstn_all2 by (rewrite length_app, !length_map; lia).
  rewrite fold_left_app.
  destruct rs1 as [| r1 rs1]; [now elim Hrs1 |].
  destruct rs2 as [| r2 rs2]; [now elim Hrs2 |].
  rewrite deleted_fold_next by (cbn; lia).
  rewrite deleted_fold_next by (cbn; lia).
  cbn [zero_DelMessage dm_DelId dm_Topic dm_DeletedFor dm_SeqIdRanges app
       Z.ltb Z.compare].
  replace (0 <? d1) with true by (symmetry; apply Z.ltb_lt; lia).
  replace (0 <? d2) with true by (symmetry; apply Z.ltb_lt; lia).
  cbn [app]. unfold wire, dfor. destruct (0 <? f); reflexivity.
Qed.

(** A stored range with a valid sequence id and a real upper bound is what
    the write path stores for its wire form. *)
Lemma write_read_stored low hi :
  0 <= low <= Go.MaxInt64 -> low < hi ->
  write_norm (read_norm {| Low := low; Hi := hi |}) =
    {| Low := low; Hi := hi |}.
Proof.
  intros Hl Hh. unfold read_norm, write_norm. cbn [Low Hi].
  destruct (hi <=? Go.add low 1) eqn:C.
  - rewrite Z.eqb_refl. f_equal. apply Z.leb_le in C.
    destruct (Z.eq_dec low Go.MaxInt64) as [E | Hne].
    + rewrite E, add_one_max in C. rewrite E in Hh.
      unfold Go.MinInt64, Go.MaxInt64 in *. lia.
    + rewrite add_one in * by (unfold Go.MinInt64, Go.MaxInt64 in *; lia).
      lia.
  - replace (hi =? 0) with false; [reflexivity |].
    symmetry. apply Z.eqb_neq. lia.
Qed.

(** Every range the read loop hands out is the wire form of a row it was
    given. *)
Lemma deleted_fold_ranges (rows : list dellog_row) :
  let I (st : list DelMessage * DelMessage) :=
    forall dm rg, (In dm (fst st) \/ dm = snd st) ->
      In rg (dm_SeqIdRanges dm) ->
      exists d, In d rows /\
                rg = read_norm {| Low := d_low d; Hi := d_hi d |} in
  I (fold_left deleted_step rows ([], zero_DelMessage)).
Proof.
  intros I. apply fold_left_invariant.
  - intros dm rg [[] | ->] [].
  - intros [dmsgs dmsg] d Hd IH. unfold I in *. cbn [fst snd] in *.
    unfold deleted_step.
    assert (forall rg, In rg (dm_SeqIdRanges dmsg) ->
              exists d0, In d0 rows /\
                rg = read_norm {| Low := d_low d0; Hi := d_hi d0 |}) as Hcur
      by (intros rg; apply IH; now right).
    destruct (negb (d_delid d =? dm_DelId dmsg));
      cbn [fst snd dm_SeqIdRanges]; intros dm rg Hdm Hrg.
    + destruct Hdm as [Hdm | ->].
      * destruct (0 <? dm_DelId dmsg);
          [apply in_app_or in Hdm as [Hdm | [<- | []]] |];
          try (eapply IH; [left; exact Hdm | exact Hrg]).
        now apply Hcur.
      * cbn [dm_SeqIdRanges] in Hrg.
        apply in_app_or in Hrg as [Hrg | [<- | []]]; [now apply Hcur |].
        exists d. split; [exact Hd | reflexivity].
    + destruct Hdm as [Hdm | ->].
      * eapply IH; [left; exact Hdm | exact Hrg].
      * cbn [dm_SeqIdRanges] in Hrg.
        apply in_app_or in Hrg as [Hrg | [<- | []]]; [now apply Hcur |].
        exists d. split; [exact Hd | reflexivity].
Qed.

Lemma MessageGetDeleted_ranges (a : adapter) (db : DB) topic u opts dm rg :
  In dm (fst (MessageGetDeleted a db topic u opts)) ->
  In rg (dm_SeqIdRanges dm) ->
  exists d, In d (dellog db) /\ d_topic d = topic /\
            rg = read_norm {| Low := d_low d; Hi := d_hi d |}.
Proof.
  unfold MessageGetDeleted.
  destruct (query_window a 1 opts) as [[lower upper] limit].
  set (rows := limit_rows limit _).
  pose proof (deleted_fold_ranges rows) as H. cbv zeta in H.
  destruct (fold_left deleted_step rows ([], zero_DelMessage))
    as [dmsgs dmsg].
  cbn [fst snd] in *. intros Hdm Hrg.
  assert (In dm dmsgs \/ dm = dmsg) as Hor.
  { destruct (0 <? dm_DelId dmsg); [| now left].
    apply in_app_or in Hdm as [Hdm | [<- | []]]; auto. }
  destruct (H dm rg Hor Hrg) as (d & Hd & E).
  exists d. subst rows. apply In_limit_rows, In_sort_by in Hd.
  apply filter_In in Hd as [Hd Hc].
  apply andb_prop in Hc as [Hc _]. apply andb_prop in Hc as [Ht _].
  apply String.eqb_eq in Ht. auto.
Qed.

(** C2.  A single-element range written as the marker [{low, 0}] or with
    its upper bound [low+1] leaves the same deletion log, so no later read of
    the log can tell the two apart, whatever was written before; and every
    range read back from any log is the wire form of a stored row, from which
    the write path gets that row again.  But the read-back of a sequence of
    writes is not those writes: the read loop never empties the ranges it
    has collected when the next deletion id starts, so after two writes for
    one user to a topic the second event read back carries the ranges of the
    first, in wire form, before its own. *)
Theorem deletion_ranges_second_write :
  (forall (db1 db2 : DB) topic dt dt' dfor d rs rs' now,
     dellog db1 = dellog db2 -> topics db1 = topics db2 ->
     Forall2 same_single rs rs' ->
     let o1 := MessageDeleteList db1 topic
                 (Some {| dm_Topic := dt; dm_DeletedFor := dfor;
                          dm_DelId := d; dm_SeqIdRanges := rs |}) now in
     let o2 := MessageDeleteList db2 topic
                 (Some {| dm_Topic := dt'; dm_DeletedFor := dfor;
                          dm_DelId := d; dm_SeqIdRanges := rs' |}) now in
     same_log o1 o2 /\
     forall r1 r2 e1 e2, o1 = Returned e1 r1 -> o2 = Returned e2 r2 ->
       forall a t u opts,
         MessageGetDeleted a r1 t u opts = MessageGetDeleted a r2 t u opts) /\
  (forall (a : adapter) (db : DB) topic dt1 dt2 dfor d1 d2 rs1 rs2 now1 now2
          forUser o,
     topic_exists db topic = true ->
     forallb (fun r => negb (String.eqb (d_topic r) topic)) (dellog db)
       = true ->
     dfor <> "" ->
     decodeUidString dfor = 0 \/ decodeUidString dfor = DecodeUid forUser ->
     0 < d1 < d2 -> opt_Since o <= d1 -> d2 < opt_Before o <= 2 ^ 31 ->
     rs1 <> [] -> rs2 <> [] ->
     Z.of_nat (List.length rs1 + List.length rs2)
       <= snd (query_window a 1 (Some o)) ->
     let wire := map (fun r => read_norm (write_norm r)) in
     exists db1 db2 dfor',
       MessageDeleteList db topic
         (Some {| dm_Topic := dt1; dm_DeletedFor := dfor; dm_DelId := d1;
                  dm_SeqIdRanges := rs1 |}) now1 = Returned None db1 /\
       MessageDeleteList db1 topic
         (Some {| dm_Topic := dt2; dm_DeletedFor := dfor; dm_DelId := d2;
                  dm_SeqIdRanges := rs2 |}) now2 = Returned None db2 /\
       MessageGetDeleted a db2 topic forUser (Some o) =
         ([{| dm_Topic := topic; dm_DeletedFor := dfor'; dm_DelId := d1;
              dm_SeqIdRanges := wire rs1 |};
           {| dm_Topic := topic; dm_DeletedFor := dfor'; dm_DelId := d2;
              dm_SeqIdRanges := (wire rs1 ++ wire rs2)%list |}],
          None) /\
       (wire rs1 ++ wire rs2)%list <> wire rs2) /\
  (forall (a : adapter) (db : DB) topic u opts dm rg,
     In dm (fst (MessageGetDeleted a db topic u opts)) ->
     In rg (dm_SeqIdRanges dm) ->
     exists d, In d (dellog db) /\ d_topic d = topic /\
       rg = read_norm {| Low := d_low d; Hi := d_hi d |} /\
       (0 <= d_low d <= Go.MaxInt64 -> d_low d < d_hi d ->
        write_norm rg = {| Low := d_low d; Hi := d_hi d |})).
Proof.
  split; [| split].
  3:{ intros a db topic u opts dm rg Hdm Hrg.
      destruct (MessageGetDeleted_ranges a db topic u opts dm rg Hdm Hrg)
        as (d & Hd & Ht & E).
      exists d. repeat split; try assumption.
      intros Hl Hh. rewrite E. now apply write_read_stored. }
  - intros db1 db2 topic dt dt' dfor d rs rs' now Hd Ht Hrs o1 o2.
    pose proof (MessageDeleteList_same_single db1 db2 topic dt dt' dfor d
                  rs rs' now Hd Ht Hrs) as H.
    fold o1 o2 in H. split; [exact H |].
    intros r1 r2 e1 e2 E1 E2 a t u opts. rewrite E1, E2 in H.
    destruct H as (_ & Hlog & _). now apply MessageGetDeleted_log.
  - intros a db topic dt1 dt2 dfor d1 d2 rs1 rs2 now1 now2 forUser o
           Ht Hfresh _ Hf Hd Hs Hb Hrs1 Hrs2 Hlim wire.
    destruct (MessageDeleteList_commits db topic dt1 dfor d1 rs1 now1 Ht Hrs1)
      as (db1 & E1 & Hlog1 & Htp1).
    assert (Ht1 : topic_exists db1 topic = true)
      by (unfold topic_exists in *; now rewrite Htp1).
    destruct (MessageDeleteList_commits db1 topic dt2 dfor d2 rs2 now2 Ht1
                Hrs2) as (db2 & E2 & Hlog2 & _).
    exists db1, db2. eexists.
    split; [exact E1 |]. split; [exact E2 |]. split.
    + apply (MessageGetDeleted_two a db2 (dellog db) topic
               (decodeUidString dfor) d1 d2 rs1 rs2 forUser o); try assumption.
      now rewrite Hlog2, Hlog1, <- app_assoc.
    + intros E. apply (f_equal (@List.length Range)) in E.
      rewrite length_app in E. unfold wire in E. rewrite !length_map in E.
      destruct rs1; [now elim Hrs1 | cbn in E; lia].
Qed.

End MessageDeletion.

(** Message 5 deleted for the user with numeric id 7 under deletion id 1 and
    messages 7 to 9 under deletion id 2: the second event read back holds
    both ranges. *)
Lemma deletion_ranges_second_write_witness :
  let o := {| opt_User := 0; opt_Topic := ""; opt_Since := 0;
              opt_Before := 100; opt_Limit := 0 |} in
  exists db1 db2,
    @MessageDeleteList Demo.packages Sample.with_topic "grpT"
      (Some {| dm_Topic := "grpT"; dm_DeletedFor := "8"; dm_DelId := 1;
               dm_SeqIdRanges := [{| Low := 5; Hi := 0 |}] |}) 100
      = Returned None db1 /\
    @MessageDeleteList Demo.packages db1 "grpT"
      (Some {| dm_Topic := "grpT"; dm_DeletedFor := "8"; dm_DelId := 2;
               dm_SeqIdRanges := [{| Low := 7; Hi := 10 |}] |}) 101
      = Returned None db2 /\
    map dm_SeqIdRanges
      (fst (@MessageGetDeleted Demo.packages Sample.opened db2 "grpT" 8
              (Some o)))
      = [[{| Low := 5; Hi := 0 |}];
         [{| Low := 5; Hi := 0 |}; {| Low := 7; Hi := 10 |}]].
Proof.
  cbv zeta.
  destruct (@deletion_ranges_second_write Demo.packages) as (_ & HB & _).
  destruct (HB Sample.opened Sample.with_topic "grpT" "grpT" "grpT" "8" 1 2
              [{| Low := 5; Hi := 0 |}] [{| Low := 7; Hi := 10 |}] 100 101 8
              {| opt_User := 0; opt_Topic := ""; opt_Since := 0;
                 opt_Before := 100; opt_Limit := 0 |})
    as (db1 & db2 & dfor' & E1 & E2 & Hread & _).
  - reflexivity.
  - reflexivity.
  - discriminate.
  - right. reflexivity.
  - lia.
  - cbn. lia.
  - cbn. lia.
  - discriminate.
  - discriminate.
  - vm_compute. discriminate.
  - exists db1, db2. split; [exact E1 |]. split; [exact E2 |].
    rewrite Hread. reflexivity.
Defined.

(** ** Adding an unconfirmed credential *)

Lemma string_length_append (s1 s2 : string) :
  String.length (s1 ++ s2) = (String.length s1 + String.length s2)%nat.
Proof. induction s1 as [| c s1 IH]; simpl; [reflexivity | now rewrite IH]. Qed.

Lemma user_key_not_bare cred : user_key cred <> bare_key cred.
Proof.
  unfold user_key. intros H. apply (f_equal String.length) in H.
  rewrite !string_length_append in H. simpl in H. lia.
Qed.

Lemma filter_key_unique {A} (f : A -> string) (l : list A) (r : A) :
  NoDup (map f l) -> In r l ->
  filter (fun c => String.eqb (f c) (f r)) l = [r].
Proof.
  induction l as [| x l IH]; intros Hnd Hin; [destruct Hin |].
  cbn [map] in Hnd. apply NoDup_cons_iff in Hnd as [Hx Hnd].
  cbn [filter]. destruct Hin as [-> | Hin].
  - rewrite String.eqb_refl. f_equal.
    apply filter_none. apply forallb_forall. intros y Hy.
    apply negb_true_iff. apply String.eqb_neq. intros E.
    apply Hx. rewrite <- E. now apply in_map.
  - replace (String.eqb (f x) (f r)) with false; [now apply IH |].
    symmetry. apply String.eqb_neq. intros E.
    apply Hx. rewrite E. now apply in_map.
Qed.

Lemma deactivate_synthetic u m now c :
  c_synthetic (deactivate u m now c) = c_synthetic c.
Proof. unfold deactivate. now destruct (_ && _ && _). Qed.

Lemma key_absent (k : string) (l : list cred_row) :
  filter (fun c => String.eqb (c_synthetic c) k) l = [] <->
  ~ In k (map c_synthetic l).
Proof.
  split.
  - intros Hf Hin. apply in_map_iff in Hin as (c & <- & Hc).
    assert (In c (filter (fun c0 => String.eqb (c_synthetic c0)
                                       (c_synthetic c)) l)) as H
      by (apply filter_In; split; [exact Hc | apply String.eqb_refl]).
    rewrite Hf in H. destruct H.
  - intros Hn. apply filter_none. apply forallb_forall. intros c Hc.
    apply negb_true_iff. apply String.eqb_neq. intros <-.
    apply Hn. now apply in_map.
Qed.

Section CredentialUpsert.

Context {P : Packages}.

(** C4.  An unconfirmed credential is never stored.  When a record stands
    under the key [method:value] the call returns [ErrDuplicate] and changes
    nothing.  Otherwise the statement that is to revive the record under
    [user:method:value] assigns the integer [0] to the boolean column
    [done] and the engine refuses it: the call returns that error, whether
    such a record is stored or not, and of the stored state nothing is
    changed, so no record is deactivated, revived or inserted. *)
Theorem CredUpsert_unconfirmed_refused (db : DB) (cred : Credential)
    (now : time) :
  cr_Done cred = false ->
  (with_key (bare_key cred) db <> [] ->
   CredUpsert db cred now = (false, Some ErrDuplicate, db)) /\
  (with_key (bare_key cred) db = [] ->
   CredUpsert db cred now = (false, Some (ErrEngine DatatypeMismatch), db)).
Proof.
  intros Hd. unfold CredUpsert, with_key, bare_key. rewrite Hd. cbn [negb].
  destruct (filter _ (credentials db)) as [| c l].
  - split; [intros H; now elim H | intros _; reflexivity].
  - split; [intros _; reflexivity | discriminate].
Qed.

End CredentialUpsert.

(** The first unconfirmed credential of a user, and the same credential
    when a record of it is stored, deleted, under the key of the user: both
    calls return the error of the engine and leave the state as it was.  With
    the confirmed credential stored the call returns [ErrDuplicate]. *)
Lemma CredUpsert_unconfirmed_refused_witness :
  let stored :=
    {| c_createdat := 10; c_updatedat := 10; c_deletedat := Some 15;
       c_method := "email"; c_value := "alice@example.com";
       c_synthetic := "8:email:alice@example.com"; c_userid := 7;
       c_resp := "111"; c_done := false; c_retries := 0 |} in
  @CredUpsert Demo.packages Sample.with_user (Sample.alice "111" 20) 100
    = (false, Some (ErrEngine DatatypeMismatch), Sample.with_user) /\
  @CredUpsert Demo.packages (set_credentials Sample.with_user [stored])
    (Sample.alice "222" 30) 200
    = (false, Some (ErrEngine DatatypeMismatch),
       set_credentials Sample.with_user [stored]) /\
  @CredUpsert Demo.packages
    (set_credentials Sample.with_user [Sample.confirmed_alice])
    (Sample.alice "111" 20) 100
    = (false, Some ErrDuplicate,
       set_credentials Sample.with_user [Sample.confirmed_alice]).
Proof.
  cbv zeta. split; [| split].
  - apply (@CredUpsert_unconfirmed_refused Demo.packages);
      [reflexivity | vm_compute; reflexivity].
  - apply (@CredUpsert_unconfirmed_refused Demo.packages);
      [reflexivity | vm_compute; reflexivity].
  - apply (@CredUpsert_unconfirmed_refused Demo.packages);
      [reflexivity | vm_compute; discriminate].
Defined.

(** ** Members of a P2P topic *)

Section TopicMembers.

Context {P : Packages}.

(** C6.  For a P2P topic: when the query fetches two subscriptions, every
    subscription returned carries the public value of the user of the other
    one, and with deleted rows kept and no single user asked for, both are
    returned; when it fetches one subscription, what is returned carries no
    public value. *)
Theorem UsersForTopic_p2p_public (a : adapter) (db : DB) (topic : string)
    (keepDeleted : bool) (opts : option QueryOpt) :
  GetTopicCat topic = TopicCatP2P ->
  let mk (r : sub_row) :=
    scan_sub r (UidString (encodeUidString (Go.FormatInt (s_userid r)))) in
  let rows := users_for_topic_rows a db topic keepDeleted opts in
  let result := fst (UsersForTopic a db topic keepDeleted opts) in
  (forall r0 u0 r1 u1, rows = [(r0, u0); (r1, u1)] ->
     (forall sub, In sub result ->
        sub = mk r0 (fromJSON (u_public u1)) \/
        sub = mk r1 (fromJSON (u_public u0))) /\
     (keepDeleted = true -> opts = None ->
        result = [mk r0 (fromJSON (u_public u1));
                  mk r1 (fromJSON (u_public u0))])) /\
  (forall r0 u0, rows = [(r0, u0)] ->
     forall sub, In sub result -> sub = mk r0 INil /\ sub_public sub = INil).
Proof.
  intros Hcat mk rows result. subst result rows.
  unfold UsersForTopic. rewrite Hcat. cbn [TopicCat_eqb andb fst].
  split.
  - intros r0 u0 r1 u1 E. rewrite E. cbn [map List.length Nat.ltb Nat.leb].
    cbn [swap_public]. split.
    + intros sub Hin.
      destruct (negb keepDeleted || negb (IsZero _)) in Hin;
        [apply filter_In in Hin as [Hin _] |];
        destruct Hin as [<- | [<- | []]]; [left | right | left | right];
        reflexivity.
    + intros -> ->. reflexivity.
  - intros r0 u0 E sub. rewrite E. cbn [map List.length Nat.ltb Nat.leb].
    cbn [swap_public]. intros Hin.
    destruct (negb keepDeleted || negb (IsZero _)) in Hin;
      [apply filter_In in Hin as [Hin _] |];
      destruct Hin as [<- | []]; split; reflexivity.
Qed.

End TopicMembers.

(** Alice and Bob in their P2P topic: each is returned with the public value
    of the other; once Bob is deleted, Alice is returned without one. *)
Lemma UsersForTopic_p2p_public_witness :
  map sub_public
    (fst (@UsersForTopic Demo.packages Sample.opened
            (Sample.p2p_topic Sample.userB) "p2p8_10" true None))
    = [IJson "[66]"; IJson "[65]"] /\
  map sub_public
    (fst (@UsersForTopic Demo.packages Sample.opened
            (Sample.p2p_topic (Sample.deleted_user Sample.userB 50))
            "p2p8_10" false None))
    = [INil].
Proof.
  split.
  - destruct (@UsersForTopic_p2p_public Demo.packages Sample.opened
                (Sample.p2p_topic Sample.userB) "p2p8_10" true None
                eq_refl) as [H2 _].
    destruct (H2 (Sample.subscription 7 "p2p8_10" None) Sample.userA
                 (Sample.subscription 9 "p2p8_10" None) Sample.userB
                 eq_refl) as [_ Hboth].
    rewrite (Hboth eq_refl eq_refl). reflexivity.
  - destruct (@UsersForTopic_p2p_public Demo.packages Sample.opened
                (Sample.p2p_topic (Sample.deleted_user Sample.userB 50))
                "p2p8_10" false None eq_refl) as [_ H1].
    specialize (H1 (Sample.subscription 7 "p2p8_10" None) Sample.userA
                   eq_refl).
    assert (exists sub,
              fst (@UsersForTopic Demo.packages Sample.opened
                     (Sample.p2p_topic (Sample.deleted_user Sample.userB 50))
                     "p2p8_10" false None) = [sub]) as [sub E]
      by (eexists; vm_compute; reflexivity).
    rewrite E. destruct (H1 sub) as [_ Hnil]; [rewrite E; now left |].
    cbn [map]. now rewrite Hnil.
Defined.

(** ** Reads and soft deletion *)

Lemma is_null_None {A} (o : option A) : is_null o = true -> o = None.
Proof. destruct o; [discriminate | reflexivity]. Qed.

Section SoftDeletion.

Context {P : Packages}.

Lemma UserGet_deleted (db : DB) uid :
  (forall u, In u (users db) -> u_id u = DecodeUid uid ->
             u_deletedat u <> None) ->
  UserGet db uid = (None, None).
Proof.
  intros H. unfold UserGet. rewrite filter_none; [reflexivity |].
  apply forallb_forall. intros u Hu. apply negb_true_iff.
  destruct (u_id u =? DecodeUid uid) eqn:E; [| reflexivity].
  apply Z.eqb_eq in E. specialize (H u Hu E).
  destruct (u_deletedat u); [reflexivity | now elim H].
Qed.

Lemma SubscriptionGet_deleted (db : DB) topic user :
  (forall r, In r (subscriptions db) -> s_topic r = topic ->
             s_userid r = DecodeUid user -> s_deletedat r <> None) ->
  SubscriptionGet db topic user = (None, None).
Proof.
  intros H. unfold SubscriptionGet.
  destruct (filter _ (subscriptions db)) as [| r rs] eqn:E; [reflexivity |].
  assert (In r (filter (fun r => String.eqb (s_topic r) topic &&
                                 (s_userid r =? DecodeUid user))
                  (subscriptions db))) as Hin by (rewrite E; now left).
  apply filter_In in Hin as [Hr Hc]. apply andb_prop in Hc as [Ht Hu].
  apply String.eqb_eq in Ht. apply Z.eqb_eq in Hu.
  specialize (H r Hr Ht Hu).
  destruct (s_deletedat r); [reflexivity | now elim H].
Qed.

Lemma TopicGet_stored (db : DB) topic t :
  NoDup (map t_name (topics db)) -> In t (topics db) -> t_name t = topic ->
  TopicGet db topic = (Some (scan_topic t), None).
Proof.
  intros Hnd Ht <-. unfold TopicGet.
  now rewrite (filter_key_unique t_name (topics db) t Hnd Ht).
Qed.

Lemma SubsForUser_active (a : adapter) (db : DB) u opts sub :
  In sub (fst (SubsForUser a db u false opts)) ->
  DeletedAt (sub_header sub) = None.
Proof.
  unfold SubsForUser. cbn [fst]. intros H.
  apply in_map_iff in H as (r & <- & Hr).
  apply In_limit_rows, filter_In in Hr as [_ Hc].
  apply andb_prop in Hc as [Hc _]. apply andb_prop in Hc as [_ Hd].
  cbn [orb] in Hd. cbn. now apply is_null_None.
Qed.

Lemma SubsForTopic_active (a : adapter) (db : DB) topic opts sub :
  In sub (fst (SubsForTopic a db topic false opts)) ->
  DeletedAt (sub_header sub) = None.
Proof.
  unfold SubsForTopic. cbn [fst]. intros H.
  apply in_map_iff in H as (r & <- & Hr).
  apply In_limit_rows, filter_In in Hr as [_ Hc].
  apply andb_prop in Hc as [Hc _]. apply andb_prop in Hc as [_ Hd].
  cbn [orb] in Hd. cbn. now apply is_null_None.
Qed.

Lemma UsersForTopic_active (a : adapter) (db : DB) topic opts sub :
  In sub (fst (UsersForTopic a db topic false opts)) ->
  DeletedAt (sub_header sub) = None.
Proof.
  unfold UsersForTopic. cbn [fst negb orb].
  destruct (TopicCat_eqb (GetTopicCat topic) TopicCatP2P) eqn:Ecat;
    cbn [andb].
  - destruct (map _ (users_for_topic_rows a db topic false opts))
      as [| s0 rest]; [intros [] |].
    cbn [List.length Nat.ltb Nat.leb]. intros H.
    apply filter_In in H as [_ Hc].
    apply negb_true_iff, orb_false_iff in Hc as [Hc _].
    rewrite andb_true_r in Hc. apply negb_false_iff in Hc.
    now apply is_null_None.
  - intros H. apply in_map_iff in H as ([r u] & <- & Hr).
    unfold users_for_topic_rows in Hr.
    apply In_limit_rows, filter_In in Hr as [_ Hc].
    rewrite Ecat in Hc. cbn [orb] in Hc.
    apply andb_prop in Hc as [Hc _]. apply andb_prop in Hc as [_ Hd].
    cbn. now apply is_null_None.
Qed.

Lemma swap_public_same (subs : list Subscription) (sub : Subscription) :
  In sub (swap_public subs) ->
  exists s pub, In s subs /\ sub = SetPublic s pub.
Proof.
  assert (Hid : forall s, s = SetPublic s (sub_public s))
    by (intros s; now destruct s).
  destruct subs as [| s0 [| s1 rest]]; cbn [swap_public]; [intros [] | |].
  - intros [<- | []]. exists s0, INil. split; [now left | reflexivity].
  - intros [<- | [<- | H]].
    + exists s0, (sub_public s1). split; [now left | reflexivity].
    + exists s1, (sub_public s0). split; [right; now left | reflexivity].
    + exists sub, (sub_public sub). split; [right; right; exact H | apply Hid].
Qed.

Lemma In_inner_join {A B} (on : A -> B -> bool) (l : list A) (r : list B)
    (x : A) (y : B) :
  In (x, y) (inner_join on l r) -> In x l /\ In y r /\ on x y = true.
Proof.
  unfold inner_join. intros H. apply in_flat_map in H as (x' & Hx & H).
  apply in_map_iff in H as (y' & E & Hy). inversion E; subst.
  apply filter_In in Hy as [Hy Hon]. auto.
Qed.

(** Without [keepDeleted], the members that [UsersForTopic] returns carry no
    deletion time and belong to users that carry none. *)
Lemma UsersForTopic_live (a : adapter) (db : DB) topic opts sub :
  In sub (fst (UsersForTopic a db topic false opts)) ->
  DeletedAt (sub_header sub) = None /\
  exists r u,
    In r (subscriptions db) /\ In u (users db) /\ s_userid r = u_id u /\
    s_topic r = topic /\ s_deletedat r = None /\ u_deletedat u = None /\
    User sub = UidString (encodeUidString (Go.FormatInt (s_userid r))).
Proof.
  intros Hin. pose proof (UsersForTopic_active a db topic opts sub Hin) as Hd.
  split; [exact Hd |].
  assert (Hrow : exists r u pub,
            In (r, u) (users_for_topic_rows a db topic false opts) /\
            sub = SetPublic
                    (scan_sub r
                       (UidString (encodeUidString (Go.FormatInt (s_userid r))))
                       (fromJSON (u_public u))) pub).
  { revert Hin. unfold UsersForTopic. cbn [fst negb orb].
    set (subs := map _ (users_for_topic_rows a db topic false opts)).
    assert (Hsubs : forall s, In s subs ->
              exists r u pub,
                In (r, u) (users_for_topic_rows a db topic false opts) /\
                s = SetPublic
                      (scan_sub r
                         (UidString
                            (encodeUidString (Go.FormatInt (s_userid r))))
                         (fromJSON (u_public u))) pub).
    { intros s Hs. apply in_map_iff in Hs as ([r u] & <- & Hr).
      exists r, u, (fromJSON (u_public u)). split; [exact Hr | reflexivity]. }
    destruct (TopicCat_eqb (GetTopicCat topic) TopicCatP2P && _).
    - intros H. apply filter_In in H as [H _].
      apply swap_public_same in H as (s & pub & Hs & ->).
      destruct (Hsubs s Hs) as (r & u & pub' & Hr & ->).
      exists r, u, pub. split; [exact Hr | reflexivity].
    - apply Hsubs. }
  destruct Hrow as (r & u & pub & Hr & ->).
  cbn [SetPublic scan_sub sub_header DeletedAt User] in *.
  unfold users_for_topic_rows in Hr.
  apply In_limit_rows, filter_In in Hr as [Hj Hc].
  apply In_inner_join in Hj as (Hr & Hu & Hon). apply Z.eqb_eq in Hon.
  cbn [orb] in Hc.
  apply andb_prop in Hc as [Hc _]. apply andb_prop in Hc as [Hc _].
  apply andb_prop in Hc as [Ht Hud].
  apply String.eqb_eq in Ht. apply is_null_None in Hud.
  exists r, u. repeat split; assumption.
Qed.

Lemma Sqlx_In_topics (n : nat) : Sqlx.In topics_in n = None.
Proof. destruct n; reflexivity. Qed.

Lemma Sqlx_In_users (n : nat) : Sqlx.In users_in n = None.
Proof. destruct n; reflexivity. Qed.

(** Neither statement handed to [sqlx.In] has a mark to expand, so no
    topic and no user is fetched and the contact list stays empty. *)
Lemma TopicsForUser_nothing (a : adapter) (db : DB) uid keepDeleted opts :
  TopicsForUser a db uid keepDeleted opts = ([], None).
Proof.
  unfold TopicsForUser.
  destruct (fold_left (contacts_step uid) _ ([], [], []))
    as [[join topq] usrq].
  rewrite Sqlx_In_topics, Sqlx_In_users.
  destruct (0 <? List.length topq)%nat;
    destruct (0 <? List.length usrq)%nat; reflexivity.
Qed.

(** The entries of a contact list made without deleted rows stem from
    subscriptions of the user that are not deleted. *)
Lemma TopicsForUser_active (a : adapter) (db : DB) uid opts sub :
  In sub (fst (TopicsForUser a db uid false opts)) ->
  exists r, In r (subscriptions db) /\ s_userid r = DecodeUid uid /\
            s_topic r = Topic sub /\ s_deletedat r = None.
Proof. rewrite TopicsForUser_nothing. intros []. Qed.

End SoftDeletion.

(** ** Search by tags *)

Lemma filter_and {A} (p q : A -> bool) (l : list A) :
  filter (fun x => p x && q x) l = filter q (filter p l).
Proof.
  induction l as [| x l IH]; [reflexivity |]. cbn [filter].
  destruct (p x); cbn [andb filter]; [now rewrite IH | exact IH].
Qed.

Lemma In_left_join {A B} (on : A -> B -> bool) (l : list A) (r : list B)
    (x : A * option B) :
  In x (left_join on l r) -> In (fst x) l.
Proof.
  unfold left_join. intros H. apply in_flat_map in H as (a & Ha & Hx).
  destruct (filter (on a) r) as [| y ys].
  - destruct Hx as [<- | []]. exact Ha.
  - apply in_map_iff in Hx as (z & <- & _). exact Ha.
Qed.

Lemma NoDup_map_filter {X Y} (keep : X -> bool) (proj : X -> Y)
    (rows : list X) :
  NoDup (map proj rows) -> NoDup (map proj (filter keep rows)).
Proof.
  intros Hnd. induction rows as [| r rows IH]; [constructor |].
  cbn [map] in Hnd. apply NoDup_cons_iff in Hnd as [Hr Hrest].
  cbn [filter]. destruct (keep r); [| now apply IH].
  cbn [map]. constructor; [| now apply IH].
  intros Hin. apply Hr. apply in_map_iff in Hin as (y & E & Hy).
  apply filter_In in Hy as [Hy _]. rewrite <- E. now apply in_map.
Qed.

Lemma insert_by_sorted {A} (k : A -> Z) (x : A) (l : list A) :
  StronglySorted (fun a b => k b <= k a) l ->
  StronglySorted (fun a b => k b <= k a)
    (insert_by (fun a b => k b <=? k a) x l).
Proof.
  induction l as [| y l IH]; intros H; cbn [insert_by].
  - repeat constructor.
  - apply StronglySorted_inv in H as [Hl Hy].
    destruct (k y <=? k x) eqn:E.
    + apply Z.leb_le in E. constructor; [now constructor |].
      constructor; [exact E |]. rewrite Forall_forall in *.
      intros z Hz. specialize (Hy z Hz). cbv beta in Hy. lia.
    + apply Z.leb_gt in E. constructor; [now apply IH |].
      rewrite Forall_forall in *. intros z Hz.
      apply In_insert_by in Hz as [-> | Hz]; [lia | now apply Hy].
Qed.

Lemma sort_by_sorted {A} (k : A -> Z) (l : list A) :
  StronglySorted (fun a b => k b <= k a)
    (sort_by (fun a b => k b <=? k a) l).
Proof.
  induction l as [| x l IH]; [constructor |].
  cbn [sort_by fold_right]. now apply insert_by_sorted.
Qed.

Lemma limit_rows_sorted {A} (R : A -> A -> Prop) (n : Z) (l : list A) :
  StronglySorted R l -> StronglySorted R (limit_rows n l).
Proof.
  unfold limit_rows. generalize (Z.to_nat n). intros m. revert l.
  induction m as [| m IH]; intros [| x l] H; cbn [firstn]; try constructor.
  - apply IH. now apply StronglySorted_inv in H.
  - apply StronglySorted_inv in H as [_ H]. rewrite Forall_forall in *.
    intros y Hy. apply H.
    apply (In_limit_rows (Z.of_nat m) y l). unfold limit_rows.
    now rewrite Nat2Z.id.
Qed.

Lemma filter_sorted {A} (R : A -> A -> Prop) (f : A -> bool) (l : list A) :
  StronglySorted R l -> StronglySorted R (filter f l).
Proof.
  induction l as [| x l IH]; intros H; [constructor |].
  apply StronglySorted_inv in H as [Hl Hx]. cbn [filter].
  destruct (f x); [| now apply IH]. constructor; [now apply IH |].
  rewrite Forall_forall in *. intros y Hy.
  apply filter_In in Hy as [Hy _]. now apply Hx.
Qed.

Lemma tag_in_spec (tags : list string) (tg : string) :
  tag_in tags tg = true <-> In tg tags.
Proof.
  unfold tag_in. rewrite existsb_exists. split.
  - intros (x & Hx & E). apply String.eqb_eq in E. now subst.
  - intros H. exists tg. split; [exact H | apply String.eqb_refl].
Qed.

Section TagSearch.

Variables E T K : Type.
Variable eqb : K -> K -> bool.
Variable key : E -> K.
Variable owner : T -> K.
Variable tag : T -> string.
Variable deleted : E -> bool.
Hypothesis eqb_spec : forall x y, eqb x y = true <-> x = y.

Variable tagrows : list T.
Variables req opt : list string.

Lemma kept_part (sel : list string) (x : E) :
  filter (kept tag deleted sel)
    match filter (fun t => eqb (owner t) (key x)) tagrows with
    | [] => [(x, None)]
    | y :: ys => map (fun t => (x, Some t)) (y :: ys)
    end =
  if deleted x then []
  else map (fun t => (x, Some t)) (tags_of eqb key owner tag tagrows sel x).
Proof.
  unfold tags_of. rewrite filter_and.
  destruct (filter (fun t => eqb (owner t) (key x)) tagrows) as [| y ys].
  - cbn. now destruct (deleted x).
  - rewrite filter_map_swap. unfold kept, tagged. cbn [fst snd].
    destruct (deleted x).
    + rewrite filter_none; [reflexivity |].
      apply forallb_forall. intros t _. now rewrite andb_false_r.
    + f_equal. apply filter_ext. intros t. apply andb_true_r.
Qed.

Lemma rows_of_other (sel : list string) (k : K) (es : list E) :
  (forall y, In y es -> key y <> k) ->
  filter (fun r : E * option T => eqb (key (fst r)) k)
    (filter (kept tag deleted sel)
       (left_join (fun e t => eqb (owner t) (key e)) es tagrows)) = [].
Proof.
  intros H. apply filter_none. apply forallb_forall. intros r Hr.
  apply filter_In in Hr as [Hr _]. apply In_left_join in Hr.
  apply negb_true_iff. destruct (eqb (key (fst r)) k) eqn:E0;
    [| reflexivity].
  apply eqb_spec in E0. now elim (H _ Hr).
Qed.

Lemma rows_of_entity (sel : list string) (es : list E) (e : E) :
  NoDup (map key es) -> In e es ->
  filter (fun r : E * option T => eqb (key (fst r)) (key e))
    (filter (kept tag deleted sel)
       (left_join (fun e t => eqb (owner t) (key e)) es tagrows)) =
  if deleted e then []
  else map (fun t => (e, Some t)) (tags_of eqb key owner tag tagrows sel e).
Proof.
  induction es as [| x es IH]; intros Hnd Hin; [destruct Hin |].
  cbn [map] in Hnd. apply NoDup_cons_iff in Hnd as [Hx Hnd].
  unfold left_join. cbn [flat_map].
  fold (left_join (fun e t => eqb (owner t) (key e)) es tagrows).
  rewrite !filter_app, kept_part.
  destruct Hin as [-> | Hin].
  - rewrite (rows_of_other sel (key e) es), app_nil_r.
    + destruct (deleted e); [reflexivity |].
      apply filter_all. apply forallb_forall. intros r Hr.
      apply in_map_iff in Hr as (t & <- & _). cbn [fst].
      now apply eqb_spec.
    + intros y Hy E0. apply Hx. rewrite <- E0. now apply in_map.
  - rewrite IH by assumption.
    assert (key x <> key e) as Hne
      by (intros E0; apply Hx; rewrite E0; now apply in_map).
    replace (filter _ (if deleted x then [] else _))
      with (@nil (E * option T)); [reflexivity |].
    symmetry. destruct (deleted x); [reflexivity |].
    apply filter_none. apply forallb_forall. intros r Hr.
    apply in_map_iff in Hr as (t & <- & _). cbn [fst].
    apply negb_true_iff. destruct (eqb (key x) (key e)) eqn:E0;
      [| reflexivity].
    apply eqb_spec in E0. now elim Hne.
Qed.

Lemma tags_of_required (e : E) :
  filter (fun t => tag_in req (tag t))
    (tags_of eqb key owner tag tagrows (req ++ opt) e) =
  tags_of eqb key owner tag tagrows req e.
Proof.
  unfold tags_of. rewrite <- filter_and. apply filter_ext. intros t.
  destruct (eqb (owner t) (key e)); cbn [andb]; [| reflexivity].
  destruct (tag_in req (tag t)) eqn:E0; [| apply andb_false_r].
  rewrite andb_true_r. apply tag_in_spec. apply in_or_app. left.
  now apply tag_in_spec.
Qed.

(** Every selected entity is stored and not deleted, its [matches] is the
    number of its tag rows among the requested tags, and with required tags
    it has at least [len(req)] rows among them. *)
Lemma tag_search_selected (limit : Z) (es : list E) (e : E) (n : Z) :
  NoDup (map key es) ->
  In (e, n)
    (tag_search eqb key owner tag deleted limit es tagrows req opt) ->
  In e es /\ deleted e = false /\
  n = Z.of_nat
        (List.length (tags_of eqb key owner tag tagrows (req ++ opt) e)) /\
  ((0 < List.length req)%nat ->
   (List.length req <=
    List.length (tags_of eqb key owner tag tagrows req e))%nat).
Proof.
  intros Hnd Hin. unfold tag_search in Hin.
  apply In_limit_rows, In_sort_by, in_flat_map in Hin as (g & Hg & Hrep).
  set (rows := filter (kept tag deleted (req ++ opt))
                 (left_join (fun e t => eqb (owner t) (key e)) es tagrows))
    in *.
  assert (In g (group_by eqb (fun et : E * option T => key (fst et)) rows)
          /\ ((0 < List.length req)%nat ->
              (List.length req <=
               List.length (filter (tagged tag req) g))%nat))
    as [Hgrp Hhav].
  { destruct (0 <? List.length req)%nat eqn:L.
    - apply filter_In in Hg as [Hg Hc]. split; [exact Hg |].
      intros _. now apply Nat.leb_le in Hc.
    - split; [exact Hg |]. intros Hl. apply Nat.ltb_ge in L. lia. }
  unfold group_by in Hgrp. apply in_map_iff in Hgrp as (k0 & Ek & _).
  destruct g as [| et rest]; [destruct Hrep |].
  destruct Hrep as [Hrep | []]. inversion Hrep. subst e n. clear Hrep.
  assert (In et (filter (fun r : E * option T => eqb (key (fst r)) k0) rows))
    as Het by (rewrite Ek; now left).
  apply filter_In in Het as [Hrow Hk]. apply eqb_spec in Hk. subst k0.
  pose proof Hrow as Hrow'. unfold rows in Hrow'.
  apply filter_In in Hrow' as [Hj Hkept]. apply In_left_join in Hj.
  unfold kept in Hkept. apply andb_prop in Hkept as [_ Hdel].
  apply negb_true_iff in Hdel.
  unfold rows in Ek. rewrite (rows_of_entity _ es (fst et) Hnd Hj) in Ek.
  rewrite Hdel in Ek. rewrite <- Ek in *.
  split; [exact Hj |]. split; [exact Hdel |]. split.
  - apply (f_equal (@List.length _)) in Ek. rewrite length_map in Ek.
    rewrite Ek. reflexivity.
  - intros Hl. specialize (Hhav Hl).
    rewrite filter_map_swap, length_map in Hhav. unfold tagged in Hhav.
    cbn [snd] in Hhav. now rewrite tags_of_required in Hhav.
Qed.

Lemma tag_search_sorted (limit : Z) (es : list E) :
  StronglySorted (fun x y : E * Z => snd y <= snd x)
    (tag_search eqb key owner tag deleted limit es tagrows req opt).
Proof.
  unfold tag_search. apply limit_rows_sorted.
  apply (sort_by_sorted (fun x : E * Z => snd x)).
Qed.

(** With no pair of owner and tag stored twice, an entity that has as many
    tag rows among the required tags as there are required tags has every
    one of them. *)
Lemma tags_of_all_required (e : E) :
  NoDup (map (fun t => (owner t, tag t)) tagrows) ->
  (List.length req <=
   List.length (tags_of eqb key owner tag tagrows req e))%nat ->
  forall tg, In tg req ->
    exists t, In t tagrows /\ owner t = key e /\ tag t = tg.
Proof.
  intros Hnd Hlen tg Htg.
  set (L := tags_of eqb key owner tag tagrows req e) in *.
  assert (forall t, In t L -> In t tagrows /\ owner t = key e /\
                              In (tag t) req) as HL.
  { intros t Ht. unfold L, tags_of in Ht. apply filter_In in Ht as [Ht Hc].
    apply andb_prop in Hc as [Ho Hi]. apply eqb_spec in Ho.
    apply tag_in_spec in Hi. auto. }
  assert (NoDup (map tag L)) as HndL.
  { apply (NoDup_map_inv (fun s => (key e, s))). rewrite map_map.
    replace (map (fun t => (key e, tag t)) L)
      with (map (fun t => (owner t, tag t)) L).
    - unfold L, tags_of. now apply NoDup_map_filter.
    - apply map_ext_in. intros t Ht. now destruct (HL t Ht) as (_ & -> & _). }
  assert (incl req (map tag L)) as Hincl.
  { apply NoDup_length_incl; [exact HndL | now rewrite length_map |].
    intros s Hs. apply in_map_iff in Hs as (t & <- & Ht).
    now destruct (HL t Ht) as (_ & _ & ?). }
  apply Hincl in Htg. apply in_map_iff in Htg as (t & <- & Ht).
  exists t. destruct (HL t Ht) as (? & ? & _). auto.
Qed.

(** What the search selects is a stored entity that is not deleted. *)
Lemma tag_search_live (limit : Z) (es : list E) (e : E) (n : Z) :
  In (e, n) (tag_search eqb key owner tag deleted limit es tagrows req opt) ->
  In e es /\ deleted e = false.
Proof.
  unfold tag_search. intros H. apply In_limit_rows, In_sort_by in H.
  apply in_flat_map in H as (g & Hg & H).
  destruct g as [| et g']; [destruct H |]. destruct H as [H | []].
  inversion H; subst. clear H.
  set (rows := filter (kept tag deleted (req ++ opt)%list) _) in Hg.
  assert (Hgrp : In (et :: g')
            (group_by eqb (fun x : E * option T => key (fst x)) rows))
    by (destruct (0 <? List.length req)%nat;
        [now apply filter_In in Hg | exact Hg]).
  unfold group_by in Hgrp. apply in_map_iff in Hgrp as (k0 & Ek & _).
  assert (Het : In et (filter (fun r : E * option T => eqb (key (fst r)) k0)
                         rows)) by (rewrite Ek; now left).
  apply filter_In in Het as [Het _]. unfold rows in Het.
  apply filter_In in Het as [Hj Hk]. apply In_left_join in Hj.
  unfold kept in Hk. apply andb_prop in Hk as [_ Hk].
  apply negb_true_iff in Hk. auto.
Qed.

End TagSearch.

Lemma String_eqb_spec (x y : string) : String.eqb x y = true <-> x = y.
Proof. apply String.eqb_eq. Qed.

Section TagQueries.

Context {P : Packages}.

(** C7.  With the keys of the schema in force (one row per user id, per
    topic name, and per pair of owner and tag), the rows behind the result
    of [FindUsers] and of [FindTopics] are in descending order of their
    number of matches, the result lists them in that order, and every such
    row is an entity that has every required tag and whose number of matches
    is the number of its tags among the required and the optional ones. *)
Theorem tag_search_required_and_ranked (a : adapter) (db : DB)
    (req opt : list string) :
  (NoDup (map u_id (users db)) ->
   NoDup (map (fun t => (ut_userid t, ut_tag t)) (usertags db)) ->
   forall uid,
     let rows :=
       filter (fun um : user_row * Z =>
                 negb (u_id (fst um) =? DecodeUid uid))
         (find_users_rows a db req opt) in
     StronglySorted (fun x y : user_row * Z => snd y <= snd x) rows /\
     map User (fst (FindUsers a db uid req opt)) =
       map (fun um : user_row * Z => UidString (EncodeUid (u_id (fst um))))
         rows /\
     forall u n, In (u, n) rows ->
       (forall tg, In tg req ->
          exists t, In t (usertags db) /\ ut_userid t = u_id u /\
                    ut_tag t = tg) /\
       n = Z.of_nat
             (List.length
                (tags_of Z.eqb u_id ut_userid ut_tag (usertags db)
                   (req ++ opt) u))) /\
  (NoDup (map t_name (topics db)) ->
   NoDup (map (fun t => (tt_topic t, tt_tag t)) (topictags db)) ->
   let rows := find_topics_rows a db req opt in
   StronglySorted (fun x y : topic_row * Z => snd y <= snd x) rows /\
   map Topic (fst (FindTopics a db req opt)) =
     map (fun tm : topic_row * Z => t_name (fst tm)) rows /\
   forall t n, In (t, n) rows ->
     (forall tg, In tg req ->
        exists r, In r (topictags db) /\ tt_topic r = t_name t /\
                  tt_tag r = tg) /\
     n = Z.of_nat
           (List.length
              (tags_of String.eqb t_name tt_topic tt_tag (topictags db)
                 (req ++ opt) t))).
Proof.
  split.
  - intros Hu Ht uid rows. split; [| split].
    + apply filter_sorted. apply tag_search_sorted.
    + unfold FindUsers. cbn [fst]. rewrite map_map. reflexivity.
    + intros u n Hin. apply filter_In in Hin as [Hin _].
      destruct (tag_search_selected _ _ _ Z.eqb u_id ut_userid ut_tag _
                  Z.eqb_eq (usertags db) req opt _ _ u n Hu Hin)
        as (_ & _ & Hn & Hreq).
      split; [| exact Hn]. intros tg Htg.
      apply (tags_of_all_required _ _ _ Z.eqb u_id ut_userid ut_tag
               Z.eqb_eq (usertags db) req u Ht); [| exact Htg].
      apply Hreq. destruct req; [destruct Htg | cbn; lia].
  - intros Hu Ht rows. split; [| split].
    + apply tag_search_sorted.
    + unfold FindTopics. cbn [fst]. rewrite map_map. reflexivity.
    + intros t n Hin.
      destruct (tag_search_selected _ _ _ String.eqb t_name tt_topic tt_tag
                  _ String_eqb_spec (topictags db) req opt _ _ t n Hu Hin)
        as (_ & _ & Hn & Hreq).
      split; [| exact Hn]. intros tg Htg.
      apply (tags_of_all_required _ _ _ String.eqb t_name tt_topic tt_tag
               String_eqb_spec (topictags db) req t Ht); [| exact Htg].
      apply Hreq. destruct req; [destruct Htg | cbn; lia].
Qed.

(** C10.  Every subscription in the result of [FindUsers] stands for a
    stored user whose numeric id is not the decoded id of the caller; under
    the contract of the identifier codec, with valid stored ids, its [User]
    is not the text of the caller's identifier. *)
Theorem FindUsers_excludes_caller (a : adapter) (db : DB) (uid : Uid)
    (req opt : list string) (sub : Subscription) :
  In sub (fst (FindUsers a db uid req opt)) ->
  (exists u, In u (users db) /\ u_id u <> DecodeUid uid /\
             User sub = UidString (EncodeUid (u_id u))) /\
  (codec_contract ->
   (forall u, In u (users db) -> 1 <= u_id u <= Go.MaxInt64) ->
   0 <= uid ->
   User sub <> UidString uid).
Proof.
  intros Hin. unfold FindUsers in Hin. cbn [fst] in Hin.
  apply in_map_iff in Hin as ([u n] & <- & Hrow).
  apply filter_In in Hrow as [Hrow Hself]. cbn [fst] in *.
  apply negb_true_iff, Z.eqb_neq in Hself.
  assert (In u (users db)) as Hu.
  { unfold find_users_rows, tag_search in Hrow.
    apply In_limit_rows, In_sort_by, in_flat_map in Hrow as (g & Hg & Hrep).
    assert (In g (group_by Z.eqb
                    (fun et : user_row * option usertag_row => u_id (fst et))
                    (filter (kept ut_tag (fun u0 => negb (is_null (u_deletedat u0)))
                               (req ++ opt))
                       (left_join (fun e t => ut_userid t =? u_id e)
                          (users db) (usertags db))))) as Hgrp
      by (destruct (0 <? List.length req)%nat;
          [now apply filter_In in Hg | exact Hg]).
    unfold group_by in Hgrp. apply in_map_iff in Hgrp as (k0 & Ek & _).
    destruct g as [| et rest]; [destruct Hrep |].
    destruct Hrep as [Hrep | []]. inversion Hrep. subst u n.
    assert (In et (et :: rest)) as Het by now left.
    rewrite <- Ek in Het. apply filter_In in Het as [Het _].
    apply filter_In in Het as [Het _]. now apply In_left_join in Het. }
  split.
  - exists u. cbn [found User]. auto.
  - intros (Hde & _ & _ & Hpos & Hps & _) Hvalid Huid. cbn [found User].
    intros E. apply Hself.
    assert (EncodeUid (u_id u) = uid) as E'.
    { rewrite <- (Hps (EncodeUid (u_id u))), E by (apply Hpos;
        specialize (Hvalid u Hu); lia).
      now apply Hps. }
    rewrite <- E'. symmetry. apply Hde. now apply Hvalid.
Qed.

End TagQueries.

(** Paris required, Bob's address optional, asked by a third party: Bob, who
    has both tags, comes before Alice, who has one; with both tags required
    only Bob is found. *)
Lemma tag_search_required_and_ranked_witness :
  map User
    (fst (@FindUsers Demo.packages Sample.opened Sample.tagged_users 2
            ["city:paris"] ["email:bob@example.com"])) = ["10"; "8"] /\
  map snd
    (find_users_rows Sample.opened Sample.tagged_users
       ["city:paris"] ["email:bob@example.com"]) = [2; 1] /\
  (forall u n,
     In (u, n)
       (find_users_rows Sample.opened Sample.tagged_users
          ["city:paris"; "email:bob@example.com"] []) ->
     exists t, In t (usertags Sample.tagged_users) /\
               ut_userid t = u_id u /\ ut_tag t = "email:bob@example.com").
Proof.
  assert (NoDup (map u_id (users Sample.tagged_users))) as Hu
    by (repeat constructor; cbn; intuition discriminate).
  assert (NoDup (map (fun t => (ut_userid t, ut_tag t))
                   (usertags Sample.tagged_users))) as Ht
    by (repeat constructor; cbn; intuition discriminate).
  split; [| split].
  - destruct (@tag_search_required_and_ranked Demo.packages Sample.opened
                Sample.tagged_users ["city:paris"] ["email:bob@example.com"])
      as [HU _].
    destruct (HU Hu Ht 2) as (_ & -> & _). reflexivity.
  - reflexivity.
  - intros u n Hin.
    destruct (@tag_search_required_and_ranked Demo.packages Sample.opened
                Sample.tagged_users ["city:paris"; "email:bob@example.com"]
                []) as [HU _].
    destruct (HU Hu Ht 2) as (_ & _ & Hrows).
    destruct (Hrows u n) as [Hreq _].
    + apply filter_In. split; [exact Hin |].
      destruct Hin as [E | []]. now inversion E.
    + apply Hreq. right. now left.
Defined.

(** Alice searches for Paris, a tag she has herself: only Bob is found. *)
Lemma FindUsers_excludes_caller_witness :
  fst (@FindUsers Demo.packages Sample.opened Sample.tagged_users 8
         ["city:paris"] []) <> [] /\
  forall sub,
    In sub (fst (@FindUsers Demo.packages Sample.opened Sample.tagged_users 8
                   ["city:paris"] [])) ->
    User sub <> @UidString Demo.packages 8.
Proof.
  split; [discriminate |].
  intros sub Hin.
  destruct (@FindUsers_excludes_caller Demo.packages Sample.opened
              Sample.tagged_users 8 ["city:paris"] [] sub Hin) as [_ H].
  apply H.
  - exact demo_contract.
  - intros u [<- | [<- | []]]; unfold Go.MaxInt64; cbn; lia.
  - lia.
Defined.

(** ** Reads and soft deletion, the claim *)

Section SoftDeletedReads.

Context {P : Packages}.

(** C8, as the code has it.  A soft-deleted user is absent from [UserGet]
    and a soft-deleted subscription from [SubscriptionGet]: both return no
    value and no error.  The list reads that take [keepDeleted], called
    without it, return no subscription that carries a deletion time;
    [UsersForTopic] returns none of a user that carries one either, and
    [FindUsers] and [FindTopics] return no user and no topic that carries
    one.  The exception is the topic read by its name or by its owner:
    [TopicGet] has no filter and hands a stored topic out with its deletion
    time, set or not, and [OwnTopics] names every topic of the owner. *)
Theorem soft_deleted_reads :
  (forall (db : DB) uid,
     (forall u, In u (users db) -> u_id u = DecodeUid uid ->
                u_deletedat u <> None) ->
     UserGet db uid = (None, None)) /\
  (forall (db : DB) topic user,
     (forall r, In r (subscriptions db) -> s_topic r = topic ->
                s_userid r = DecodeUid user -> s_deletedat r <> None) ->
     SubscriptionGet db topic user = (None, None)) /\
  (forall (db : DB) topic t,
     NoDup (map t_name (topics db)) -> In t (topics db) ->
     t_name t = topic ->
     exists top, TopicGet db topic = (Some top, None) /\
                 DeletedAt (top_header top) = t_deletedat t) /\
  (forall (db : DB) uid opts t,
     In t (topics db) -> t_owner t = DecodeUid uid ->
     In (t_name t) (fst (OwnTopics db uid opts))) /\
  (forall (a : adapter) (db : DB) u topic opts sub,
     In sub (fst (SubsForUser a db u false opts)) \/
     In sub (fst (SubsForTopic a db topic false opts)) ->
     DeletedAt (sub_header sub) = None) /\
  (forall (a : adapter) (db : DB) topic opts sub,
     In sub (fst (UsersForTopic a db topic false opts)) ->
     DeletedAt (sub_header sub) = None /\
     exists r u,
       In r (subscriptions db) /\ In u (users db) /\ s_userid r = u_id u /\
       s_topic r = topic /\ s_deletedat r = None /\ u_deletedat u = None /\
       User sub = UidString (encodeUidString (Go.FormatInt (s_userid r)))) /\
  (forall (a : adapter) (db : DB) uid req opt sub,
     In sub (fst (FindUsers a db uid req opt)) ->
     DeletedAt (sub_header sub) = None /\
     exists u, In u (users db) /\ u_deletedat u = None /\
               User sub = UidString (EncodeUid (u_id u))) /\
  (forall (a : adapter) (db : DB) req opt sub,
     In sub (fst (FindTopics a db req opt)) ->
     DeletedAt (sub_header sub) = None /\
     exists t, In t (topics db) /\ t_deletedat t = None /\
               Topic sub = t_name t) /\
  (forall (a : adapter) (db : DB) uid opts sub,
     In sub (fst (TopicsForUser a db uid false opts)) ->
     exists r, In r (subscriptions db) /\ s_userid r = DecodeUid uid /\
               s_topic r = Topic sub /\ s_deletedat r = None).
Proof.
  split; [exact UserGet_deleted |].
  split; [exact SubscriptionGet_deleted |].
  split; [| split; [| split; [| split; [exact UsersForTopic_live |
    split; [| split; [| exact TopicsForUser_active]]]]]].
  - intros db topic t Hnd Ht Hn. exists (scan_topic t).
    split; [now apply TopicGet_stored | reflexivity].
  - intros db uid opts t Ht Ho. unfold OwnTopics. cbn [fst].
    apply in_map. apply filter_In. split; [exact Ht |].
    now apply Z.eqb_eq.
  - intros a db u topic opts sub [H | H].
    + now apply SubsForUser_active in H.
    + now apply SubsForTopic_active in H.
  - intros a db uid req opt sub H. unfold FindUsers in H. cbn [fst] in H.
    apply in_map_iff in H as ([u n] & <- & Hu). cbn [fst].
    split; [reflexivity |]. apply filter_In in Hu as [Hu _].
    unfold find_users_rows in Hu.
    apply (tag_search_live _ _ _ Z.eqb) in Hu as [Hin Hdel].
    apply negb_false_iff, is_null_None in Hdel.
    exists u. repeat split; assumption.
  - intros a db req opt sub H. unfold FindTopics in H. cbn [fst] in H.
    apply in_map_iff in H as ([t n] & <- & Ht). cbn [fst].
    split; [reflexivity |]. unfold find_topics_rows in Ht.
    apply (tag_search_live _ _ _ String.eqb) in Ht as [Hin Hdel].
    apply negb_false_iff, is_null_None in Hdel.
    exists t. repeat split; assumption.
Qed.

End SoftDeletedReads.

(** A user, a topic and a subscription that all carry a deletion time: the
    user and the subscription are absent, the topic is returned. *)
Lemma soft_deleted_reads_witness :
  @UserGet Demo.packages Sample.deleted_topic 10 = (None, None) /\
  @SubscriptionGet Demo.packages Sample.deleted_topic "grpT" 8
    = (None, None) /\
  (exists top,
     @TopicGet Demo.packages Sample.deleted_topic "grpT" = (Some top, None) /\
     DeletedAt (top_header top) = Some 50) /\
  fst (@SubsForTopic Demo.packages Sample.opened Sample.deleted_topic "grpT"
         false None) = [].
Proof.
  destruct (@soft_deleted_reads Demo.packages)
    as (HU & HS & HT & _ & HL & _).
  split; [| split; [| split]].
  - apply HU. intros u [<- | [<- | []]] E; [discriminate E | discriminate].
  - apply HS. intros r [<- | []] _ _. discriminate.
  - destruct (HT Sample.deleted_topic "grpT"
                (hd Sample.topicT (topics Sample.deleted_topic)))
      as (top & E & D).
    + repeat constructor. intros [].
    + left. reflexivity.
    + reflexivity.
    + exists top. split; [exact E | exact D].
  - destruct (fst (@SubsForTopic Demo.packages Sample.opened
                     Sample.deleted_topic "grpT" false None))
      as [| sub rest] eqn:E; [reflexivity |].
    assert (DeletedAt (sub_header sub) = None) as Hn.
    { apply (HL Sample.opened Sample.deleted_topic 0 "grpT" None sub).
      right. rewrite E. now left. }
    vm_compute in E. discriminate E.
Defined.

(** The claim as stated fails for topics: [TopicGet] of a topic that carries
    a deletion time returns the topic, and [OwnTopics] lists it. *)
Lemma TopicGet_returns_deleted_topic :
  (exists top,
     @TopicGet Demo.packages Sample.deleted_topic "grpT" = (Some top, None) /\
     DeletedAt (top_header top) = Some 50) /\
  fst (@OwnTopics Demo.packages Sample.deleted_topic 8 None) = ["grpT"].
Proof.
  split; [| reflexivity].
  eexists. split; [vm_compute; reflexivity | reflexivity].
Qed.

(** * Further properties of the adapter *)

(** ** Order of message listings and hard deletion *)

Lemma length_limit_rows {A} (n : Z) (l : list A) :
  Z.of_nat (List.length (limit_rows n l)) <= Z.max 0 n.
Proof.
  unfold limit_rows. pose proof (firstn_le_length (Z.to_nat n) l) as _.
  rewrite length_firstn. lia.
Qed.

Lemma NoDup_insert_by {A} (le : A -> A -> bool) (x : A) (l : list A) :
  ~ In x l -> NoDup l -> NoDup (insert_by le x l).
Proof.
  induction l as [|y l IH]; simpl; intros Hx Hl.
  - constructor; [intros [] | constructor].
  - destruct (le x y).
    + constructor; [exact Hx | exact Hl].
    + inversion Hl as [|? ? Hy Hl']; subst. constructor.
      * rewrite In_insert_by. intros [->|H]; [apply Hx; now left | now apply Hy].
      * apply IH; [intros H; apply Hx; now right | exact Hl'].
Qed.

Lemma NoDup_sort_by {A} (le : A -> A -> bool) (l : list A) :
  NoDup l -> NoDup (sort_by le l).
Proof.
  induction 1 as [|x l Hx Hl IH]; simpl; [constructor|].
  apply NoDup_insert_by; [now rewrite In_sort_by | exact IH].
Qed.

Lemma NoDup_limit_rows {A} (n : Z) (l : list A) :
  NoDup l -> NoDup (limit_rows n l).
Proof.
  unfold limit_rows. intros H.
  rewrite <- (firstn_skipn (Z.to_nat n) l) in H.
  now apply NoDup_app_remove_r in H.
Qed.

Lemma sorted_strict {A} (k : A -> Z) (l : list A) :
  StronglySorted (fun a b => k b <= k a) l -> NoDup (map k l) ->
  StronglySorted (fun a b => k b < k a) l.
Proof.
  induction 1 as [|x l Hs IH Hx]; simpl; intros Hn; constructor.
  - apply IH. now inversion Hn.
  - inversion Hn as [|? ? Hnx _]; subst.
    rewrite Forall_forall in *. intros y Hy.
    specialize (Hx y Hy).
    assert (k y <> k x).
    { intros E. apply Hnx. rewrite <- E. now apply in_map. }
    lia.
Qed.

Lemma sorted_map {A B} (g : A -> B) (R : B -> B -> Prop) (l : list A) :
  StronglySorted (fun a b => R (g a) (g b)) l -> StronglySorted R (map g l).
Proof.
  induction 1 as [|x l Hs IH Hx]; simpl; constructor; [exact IH|].
  rewrite Forall_forall in *. intros y Hy.
  apply in_map_iff in Hy as (z & <- & Hz). now apply Hx.
Qed.

Section MessageOrder.

Context {P : Packages}.

Lemma SeqId_scan m : SeqId (scan_message m) = m_seqid m.
Proof. reflexivity. Qed.

Lemma visible_messages_spec (a : adapter) (db : DB) topic u opts m :
  In m (visible_messages a db topic u opts) ->
  In m (messages db) /\ m_topic m = topic /\ m_delid m = 0 /\
  fst (fst (query_window a 0 opts)) <= m_seqid m
    <= snd (fst (query_window a 0 opts)).
Proof.
  unfold visible_messages.
  destruct (query_window a 0 opts) as [[lower upper] limit]; simpl.
  rewrite filter_In. intros [Hin H].
  apply andb_prop in H as [H _]. apply andb_prop in H as [H Hw].
  apply andb_prop in H as [Hd Ht]. apply andb_prop in Hw as [Hl Hu].
  apply String.eqb_eq in Ht. apply Z.eqb_eq in Hd.
  repeat split; auto; lia.
Qed.

Lemma NoDup_map_finer {A B C} (f : A -> B) (g : A -> C) (l : list A) :
  (forall x y, In x l -> In y l -> g x = g y -> f x = f y) ->
  NoDup (map f l) -> NoDup (map g l).
Proof.
  induction l as [|x l IH]; simpl; intros Hfg Hn; [constructor|].
  inversion Hn as [|? ? Hx Hl]; subst. constructor.
  - intros Hin. apply in_map_iff in Hin as (y & Hy & Hyl).
    apply Hx. rewrite <- (Hfg y x); [now apply in_map | now right | now left | exact Hy].
  - apply IH; [|exact Hl]. intros a b Ha Hb. apply Hfg; now right.
Qed.

(** X1.  [MessageGetAll] lists the newest message first: the sequence ids of
    the result never increase, and they strictly decrease when no two
    messages of a topic share a sequence id.  The result holds no more
    messages than the limit of the call, and every message in it belongs to
    the topic, is not deleted for everyone and has its sequence id inside the
    window. *)
Theorem MessageGetAll_newest_first (a : adapter) (db : DB) (topic : string)
    (u : Uid) (opts : option QueryOpt) :
  let result := fst (MessageGetAll a db topic u opts) in
  let window := query_window a 0 opts in
  StronglySorted (fun x y => SeqId y <= SeqId x) result /\
  Z.of_nat (List.length result) <= Z.max 0 (snd window) /\
  (forall msg, In msg result ->
     msg_Topic msg = topic /\ msg_DelId msg = 0 /\
     fst (fst window) <= SeqId msg <= snd (fst window)) /\
  (NoDup (map (fun m => (m_topic m, m_seqid m)) (messages db)) ->
   StronglySorted (fun x y => SeqId y < SeqId x) result).
Proof.
  intros result window. subst result window.
  rewrite MessageGetAll_visible. cbn [fst].
  set (vis := visible_messages a db topic u opts).
  assert (Hsorted :
    StronglySorted (fun x y => m_seqid y <= m_seqid x)
      (limit_rows (snd (query_window a 0 opts))
         (sort_by (fun x y => m_seqid y <=? m_seqid x) vis))).
  { apply limit_rows_sorted. apply (sort_by_sorted m_seqid). }
  split; [|split; [|split]].
  - apply sorted_map. exact Hsorted.
  - rewrite length_map. apply length_limit_rows.
  - intros msg Hin. apply in_map_iff in Hin as (m & <- & Hm).
    apply In_limit_rows in Hm. apply In_sort_by in Hm.
    apply visible_messages_spec in Hm as (_ & Ht & Hd & Hw).
    cbn. auto.
  - intros Hn. apply sorted_map. cbn [SeqId scan_message].
    apply (sorted_strict m_seqid); [exact Hsorted|].
    unfold limit_rows. rewrite <- firstn_map.
    rewrite <- (sort_by_map m_seqid _ (fun x y => y <=? x)) by reflexivity.
    apply NoDup_limit_rows, NoDup_sort_by.
    apply (NoDup_map_finer (fun m => (m_topic m, m_seqid m))).
    + intros x y Hx Hy E.
      apply visible_messages_spec in Hx as (_ & -> & _).
      apply visible_messages_spec in Hy as (_ & -> & _). now rewrite E.
    + unfold vis, visible_messages.
      destruct (query_window a 0 opts) as [[lower upper] limit].
      now apply NoDup_map_filter.
Qed.

End MessageOrder.

Lemma insert_by_ascending {A} (k : A -> Z) (x : A) (l : list A) :
  StronglySorted (fun a b => k a <= k b) l ->
  StronglySorted (fun a b => k a <= k b)
    (insert_by (fun a b => k a <=? k b) x l).
Proof.
  induction 1 as [|y l Hs IH Hy]; simpl.
  - constructor; constructor.
  - destruct (k x <=? k y) eqn:E.
    + apply Z.leb_le in E. constructor; [now constructor|].
      constructor; [exact E|].
      rewrite Forall_forall in *. intros z Hz. specialize (Hy z Hz). lia.
    + apply Z.leb_gt in E. constructor; [exact IH|].
      rewrite Forall_forall in *. intros z Hz.
      apply In_insert_by in Hz as [->|Hz]; [lia | now apply Hy].
Qed.

Lemma sort_by_ascending {A} (k : A -> Z) (l : list A) :
  StronglySorted (fun a b => k a <= k b)
    (sort_by (fun a b => k a <=? k b) l).
Proof.
  induction l as [|x l IH]; simpl; [constructor|].
  now apply insert_by_ascending.
Qed.

Lemma extends_trans a b c : extends a b -> extends b c -> extends a c.
Proof.
  intros (m1 & H1 & E1) (m2 & H2 & E2). exists (m1 ++ m2)%list. split.
  - destruct m1; [congruence | discriminate].
  - now rewrite E2, E1, app_assoc.
Qed.

Lemma sorted_snoc {A} (R : A -> A -> Prop) (l : list A) (x : A) :
  StronglySorted R l -> Forall (fun a => R a x) l ->
  StronglySorted R (l ++ [x]).
Proof.
  induction 1 as [|y l Hs IH Hy]; simpl; intros Hx.
  - constructor; constructor.
  - inversion Hx; subst. constructor; [now apply IH|].
    apply Forall_app. split; [exact Hy | now constructor].
Qed.

Section DeletionEvents.

Context {P : Packages}.

Lemma deleted_step_reading st row :
  reading st -> dm_DelId (snd st) <= d_delid row ->
  reading (deleted_step st row) /\
  dm_DelId (snd (deleted_step st row)) = d_delid row.
Proof.
  destruct st as [dmsgs dmsg]. unfold reading. cbn [fst snd].
  intros (Hs & He & Hall) Hle. unfold deleted_step.
  assert (Hext : forall d tp r,
     extends dmsg
       {| dm_Topic := tp; dm_DeletedFor := d; dm_DelId := d_delid row;
          dm_SeqIdRanges := (dm_SeqIdRanges dmsg ++ [r])%list |}).
  { intros. exists [r]. split; [discriminate | reflexivity]. }
  destruct (d_delid row =? dm_DelId dmsg) eqn:E; cbn [negb].
  - apply Z.eqb_eq in E. cbn [fst snd dm_DelId dm_SeqIdRanges]. split; [|auto].
    split; [exact Hs|]. split; [exact He|].
    rewrite Forall_forall in *. intros dm Hdm. destruct (Hall dm Hdm) as [Hid Hx].
    split; [exact Hid|]. eapply extends_trans; [exact Hx|].
    exists [{| Low := d_low row;
               Hi := if d_hi row <=? Go.add (d_low row) 1 then 0 else d_hi row |}].
    split; [discriminate | reflexivity].
  - apply Z.eqb_neq in E.
    destruct (0 <? dm_DelId dmsg) eqn:Epos;
      cbn [fst snd dm_DelId dm_SeqIdRanges]; (split; [|reflexivity]).
    + apply Z.ltb_lt in Epos. split; [|split].
      * apply sorted_snoc; [exact Hs|].
        rewrite Forall_forall in *. intros dm Hdm. now apply Hall.
      * apply sorted_snoc; [exact He|].
        rewrite Forall_forall in *. intros dm Hdm. now apply Hall.
      * apply Forall_app. split.
        -- rewrite Forall_forall in *. intros dm Hdm.
           destruct (Hall dm Hdm) as [Hid Hx]. split; [lia|].
           eapply extends_trans; [exact Hx | apply Hext].
        -- constructor; [|constructor]. split; [lia | apply Hext].
    + split; [exact Hs|]. split; [exact He|].
      rewrite Forall_forall in *. intros dm Hdm.
      destruct (Hall dm Hdm) as [Hid Hx]. split; [lia|].
      eapply extends_trans; [exact Hx | apply Hext].
Qed.

Lemma deleted_fold_reading (rows : list dellog_row) :
  forall st, reading st ->
    StronglySorted (fun x y => d_delid x <= d_delid y) rows ->
    Forall (fun r => dm_DelId (snd st) <= d_delid r) rows ->
    reading (fold_left deleted_step rows st).
Proof.
  induction rows as [|row rows IH]; simpl; intros st Hst Hs Hall; [exact Hst|].
  inversion Hs as [|? ? Hs' Hrow]; subst.
  inversion Hall as [|? ? Hle Hall']; subst.
  destruct (deleted_step_reading st row Hst Hle) as [Hst' Hid].
  apply IH; [exact Hst' | exact Hs' |]. now rewrite Hid.
Qed.

Lemma MessageGetDeleted_reading (a : adapter) (db : DB) (topic : string)
    (u : Uid) (opts : option QueryOpt) :
  let result := fst (MessageGetDeleted a db topic u opts) in
  StronglySorted (fun x y => dm_DelId x < dm_DelId y) result /\
  Forall (fun dm => 0 < dm_DelId dm) result /\
  StronglySorted extends result.
Proof.
  cbv zeta. unfold MessageGetDeleted.
  destruct (query_window a 1 opts) as [[lower upper] limit] eqn:Ew.
  set (rows := limit_rows limit _).
  assert (Hlow : 0 <= lower).
  { unfold query_window in Ew. destruct opts as [o|]; inversion Ew; subst; [|lia].
    destruct (0 <? opt_Since o) eqn:E; [apply Z.ltb_lt in E|]; lia. }
  assert (Hrows : reading (fold_left deleted_step rows ([], zero_DelMessage))).
  { apply deleted_fold_reading.
    - repeat split; constructor.
    - apply limit_rows_sorted. apply (sort_by_ascending d_delid).
    - rewrite Forall_forall. intros r Hr. unfold rows in Hr.
      apply In_limit_rows in Hr. apply In_sort_by in Hr.
      apply filter_In in Hr as [_ Hr].
      apply andb_prop in Hr as [Hr _]. apply andb_prop in Hr as [_ Hr].
      apply andb_prop in Hr as [Hr _]. apply Z.leb_le in Hr. simpl. lia. }
  destruct (fold_left deleted_step rows ([], zero_DelMessage))
    as [dmsgs dmsg].
  destruct Hrows as (Hs & He & Hall). cbn [fst snd] in *.
  destruct (0 <? dm_DelId dmsg) eqn:Epos; cbn [fst].
  - apply Z.ltb_lt in Epos. split; [|split].
    + apply sorted_snoc; [exact Hs|].
      rewrite Forall_forall in *. intros dm Hdm. now apply Hall.
    + apply Forall_app. split.
      * rewrite Forall_forall in *. intros dm Hdm. now apply Hall.
      * now repeat constructor.
    + apply sorted_snoc; [exact He|].
      rewrite Forall_forall in *. intros dm Hdm. now apply Hall.
  - split; [exact Hs|]. split; [|exact He].
    rewrite Forall_forall in *. intros dm Hdm. now apply Hall.
Qed.

Lemma deleted_step_scope (ok : string -> Z -> Prop) st row :
  Forall (fun dm => ok (dm_Topic dm) (dm_DelId dm)) (fst st) ->
  (0 < dm_DelId (snd st) -> ok (dm_Topic (snd st)) (dm_DelId (snd st))) ->
  ok (d_topic row) (d_delid row) ->
  Forall (fun dm => ok (dm_Topic dm) (dm_DelId dm))
    (fst (deleted_step st row)) /\
  (0 < dm_DelId (snd (deleted_step st row)) ->
   ok (dm_Topic (snd (deleted_step st row)))
      (dm_DelId (snd (deleted_step st row)))).
Proof.
  destruct st as [dmsgs dmsg]. cbn [fst snd]. intros Hall Hcur Hrow.
  unfold deleted_step.
  destruct (d_delid row =? dm_DelId dmsg); cbn [negb].
  - cbn [fst snd dm_Topic dm_DelId]. split; assumption.
  - destruct (0 <? dm_DelId dmsg) eqn:Epos; cbn [fst snd dm_Topic dm_DelId].
    + apply Z.ltb_lt in Epos. split; [|intros _; exact Hrow].
      apply Forall_app. split; [exact Hall|].
      constructor; [now apply Hcur | constructor].
    + split; [exact Hall | intros _; exact Hrow].
Qed.

Lemma deleted_fold_scope (ok : string -> Z -> Prop) (rows : list dellog_row) :
  forall st,
    Forall (fun dm => ok (dm_Topic dm) (dm_DelId dm)) (fst st) ->
    (0 < dm_DelId (snd st) -> ok (dm_Topic (snd st)) (dm_DelId (snd st))) ->
    Forall (fun r => ok (d_topic r) (d_delid r)) rows ->
    Forall (fun dm => ok (dm_Topic dm) (dm_DelId dm))
      (fst (fold_left deleted_step rows st)) /\
    (0 < dm_DelId (snd (fold_left deleted_step rows st)) ->
     ok (dm_Topic (snd (fold_left deleted_step rows st)))
        (dm_DelId (snd (fold_left deleted_step rows st)))).
Proof.
  induction rows as [|row rows IH]; simpl; intros st Hall Hcur Hrows;
    [split; assumption|].
  inversion Hrows as [|? ? Hrow Hrows']; subst.
  destruct (deleted_step_scope ok st row Hall Hcur Hrow) as [Hall' Hcur'].
  now apply IH.
Qed.

(** X2.  The deletion events that [MessageGetDeleted] returns come in
    strictly ascending order of their deletion ids, and every deletion id in
    the result is positive.  Every event carries the topic that was asked for
    and a deletion id inside the window of the call. *)
Theorem MessageGetDeleted_ascending (a : adapter) (db : DB) (topic : string)
    (u : Uid) (opts : option QueryOpt) :
  let result := fst (MessageGetDeleted a db topic u opts) in
  let window := query_window a 1 opts in
  StronglySorted (fun x y => dm_DelId x < dm_DelId y) result /\
  Forall (fun dm => 0 < dm_DelId dm) result /\
  Forall (fun dm =>
            dm_Topic dm = topic /\
            fst (fst window) <= dm_DelId dm <= snd (fst window)) result.
Proof.
  destruct (MessageGetDeleted_reading a db topic u opts) as (H1 & H2 & _).
  cbv zeta in *. split; [exact H1|]. split; [exact H2|]. clear H1 H2.
  unfold MessageGetDeleted.
  destruct (query_window a 1 opts) as [[lower upper] limit].
  cbn [fst snd].
  set (rows := limit_rows limit _).
  destruct (deleted_fold_scope
              (fun tp id => tp = topic /\ lower <= id <= upper) rows
              ([], zero_DelMessage)) as [Hall Hcur].
  - constructor.
  - cbn. lia.
  - rewrite Forall_forall. intros r Hr. unfold rows in Hr.
    apply In_limit_rows in Hr. apply In_sort_by in Hr.
    apply filter_In in Hr as [_ Hr].
    apply andb_prop in Hr as [Hr _]. apply andb_prop in Hr as [Ht Hr].
    apply andb_prop in Hr as [Hlo Hhi].
    apply String.eqb_eq in Ht. apply Z.leb_le in Hlo. apply Z.leb_le in Hhi.
    split; [exact Ht | lia].
  - destruct (fold_left deleted_step rows ([], zero_DelMessage))
      as [dmsgs dmsg].
    cbn [fst snd] in *.
    destruct (0 <? dm_DelId dmsg) eqn:Epos; cbn [fst]; [|exact Hall].
    apply Z.ltb_lt in Epos. apply Forall_app. split; [exact Hall|].
    constructor; [now apply Hcur | constructor].
Qed.

(** X3.  The read loop of [MessageGetDeleted] never empties the ranges
    when a new deletion id starts: every event of the result carries all the
    ranges of every event before it, followed by at least one more. *)
Theorem MessageGetDeleted_accumulates (a : adapter) (db : DB) (topic : string)
    (u : Uid) (opts : option QueryOpt) :
  StronglySorted extends (fst (MessageGetDeleted a db topic u opts)).
Proof.
  destruct (MessageGetDeleted_reading a db topic u opts) as (_ & _ & H).
  exact H.
Qed.

End DeletionEvents.

Lemma wrap64_mod z : Go.wrap64 z mod 2 ^ 64 = z mod 2 ^ 64.
Proof.
  unfold Go.wrap64.
  rewrite <- Zminus_mod_idemp_l, Z.mod_mod by lia.
  rewrite Zminus_mod_idemp_l. f_equal. lia.
Qed.

Lemma wrap64_range z : Go.MinInt64 <= Go.wrap64 z <= Go.MaxInt64.
Proof.
  unfold Go.wrap64, Go.MinInt64, Go.MaxInt64.
  pose proof (Z.mod_pos_bound (z + 2 ^ 63) (2 ^ 64) ltac:(lia)). lia.
Qed.

Lemma single_count low : Go.add 0 (Go.sub (Go.add low 1) low) = 1.
Proof.
  unfold Go.add at 1. unfold Go.sub. rewrite Z.add_0_l.
  assert (E : Go.wrap64 (Go.add low 1 - low) = 1).
  { assert (H : Go.wrap64 (Go.add low 1 - low) mod 2 ^ 64 = 1 mod 2 ^ 64).
    { rewrite wrap64_mod. unfold Go.add.
      rewrite <- Zminus_mod_idemp_l, wrap64_mod, Zminus_mod_idemp_l.
      f_equal. lia. }
    pose proof (wrap64_range (Go.add low 1 - low)) as R.
    unfold Go.MinInt64, Go.MaxInt64 in R.
    rewrite (Z.mod_small 1) in H by lia.
    set (w := Go.wrap64 (Go.add low 1 - low)) in *.
    destruct (Z_lt_le_dec w 0) as [Hn|Hp].
    - exfalso. rewrite <- (Z_mod_plus_full w 1) in H.
      rewrite Z.mod_small in H by lia. lia.
    - rewrite Z.mod_small in H by lia. exact H. }
  rewrite E. reflexivity.
Qed.

Section HardDeletion.

Context {P : Packages}.

Lemma between_never (now : time) (d : Z) (topic : string) (lo hi : Z)
    (m : msg_row) :
  messages_where
    (renumber (Z.to_nat 2) 1 2
       (("m.topic=$1 AND " ++ "m.seqid BETWEEN $2 AND $3") ++
        " AND m.deletedAt IS NULL"))
    ([VTime now; VInt d] ++ [VStr topic] ++ [VInt lo; VInt hi]) m = false.
Proof.
  unfold messages_where.
  replace (Go.placeholders _) with [3; 4; 3] by (vm_compute; reflexivity).
  replace (index 0 " BETWEEN " _) with (Some 22%nat) by (vm_compute; reflexivity).
  cbn. now rewrite andb_false_r.
Qed.

Lemma listed_never (now : time) (d : Z) (topic : string) (lo : Z)
    (m : msg_row) :
  messages_where
    (renumber (Z.to_nat 1) 1 2
       (Go.TrimRight (snd (in_list 1 0 ("m.topic=$1 AND " ++ "m.seqid IN (")))
          "," ++ ")" ++ " AND m.deletedAt IS NULL"))
    ([VTime now; VInt d] ++ [VStr topic] ++ [VInt lo]) m = false.
Proof.
  unfold messages_where.
  replace (Go.placeholders _) with [3; 1] by (vm_compute; reflexivity).
  replace (index 0 " BETWEEN " _) with (@None nat) by (vm_compute; reflexivity).
  cbn. now rewrite andb_false_r.
Qed.

Lemma map_never {A} (f : A -> bool) (g : A -> A) (l : list A) :
  (forall x, f x = false) -> map (fun x => if f x then g x else x) l = l.
Proof.
  intros H. induction l as [|x l IH]; simpl; [reflexivity|].
  now rewrite H, IH.
Qed.

Lemma hard_delete_single (tx : DB) (topic dt dfor : string) (d : Z)
    (r : Range) (sc : Z) (now : time) :
  (Hi r = 0 -> sc = 1) ->
  exists links,
    hard_delete tx topic
      {| dm_Topic := dt; dm_DeletedFor := dfor; dm_DelId := d;
         dm_SeqIdRanges := [r] |} sc now =
    TxDone None (set_messages (set_filemsglinks tx links) (messages tx)).
Proof.
  intros Hsc. unfold hard_delete. cbn [dm_SeqIdRanges dm_DelId List.length].
  replace (1 <? Z.of_nat 1) with false by reflexivity.
  destruct r as [lo hi]. cbn [Hi Low] in *.
  destruct (hi =? 0) eqn:Eh.
  - apply Z.eqb_eq in Eh. rewrite (Hsc Eh).
    change (Z.to_nat 1) with 1%nat.
    rewrite (surjective_pairing (in_list 1 0 ("m.topic=$1 AND " ++ "m.seqid IN ("))).
    replace (fst (in_list 1 0 ("m.topic=$1 AND " ++ "m.seqid IN ("))) with 1
      by (vm_compute; reflexivity).
    cbv beta iota zeta.
    eexists. f_equal. f_equal.
    cbn [messages set_filemsglinks].
    apply map_never. intros m.
    unfold range_ids. cbn [flat_map Hi Low]. subst hi. cbn [Z.eqb app map].
    apply (listed_never now d topic lo m).
  - cbv beta iota zeta. cbn [hd Low Hi].
    eexists. f_equal. f_equal.
    cbn [messages set_filemsglinks].
    apply map_never. intros m.
    apply (between_never now d topic lo (Go.sub hi 1) m).
Qed.

(** X4.  Deleting for everyone through [MessageDeleteList] returns and
    leaves every row of [messages] as it was, both when the whole topic is
    given ([toDel] is nil: the statement on [messages] names a placeholder that
    has no argument) and when a single range is given (the renumbered
    condition of the update compares a column with an argument of another
    kind). *)
Theorem MessageDeleteList_keeps_messages :
  (forall (db : DB) (topic : string) (now : time),
     exists e db', MessageDeleteList db topic None now = Returned e db' /\
                   messages db' = messages db) /\
  (forall (db : DB) (topic dt : string) (d : Z) (r : Range) (now : time),
     exists e db',
       MessageDeleteList db topic
         (Some {| dm_Topic := dt; dm_DeletedFor := ""; dm_DelId := d;
                  dm_SeqIdRanges := [r] |}) now = Returned e db' /\
       messages db' = messages db).
Proof.
  split.
  - intros db topic now. eexists _, _. split; [reflexivity|].
    cbn. apply filter_all. apply forallb_forall. reflexivity.
  - intros db topic dt d r now.
    unfold MessageDeleteList, messageDeleteList.
    cbn [dm_DeletedFor dm_DelId dm_SeqIdRanges log_ranges].
    unfold insert_dellog. cbn [d_topic].
    destruct (topic_exists db topic) eqn:Et.
    + cbn [is_null andb String.eqb].
      edestruct (hard_delete_single
                   (set_dellog db
                      (dellog db ++
                       [{| d_topic := topic;
                           d_deletedfor := decodeUidString "";
                           d_delid := d; d_low := Low r;
                           d_hi := if Hi r =? 0 then Go.add (Low r) 1
                                   else Hi r |}])%list)
                   topic dt "" d r
                   (Go.add 0
                      (Go.sub (if Hi r =? 0 then Go.add (Low r) 1 else Hi r)
                         (Low r))) now) as [links ->].
      { intros ->. cbn [Z.eqb]. apply single_count. }
      cbn [in_transaction]. eexists _, _. split; reflexivity.
    + cbn [is_null andb in_transaction].
      eexists _, _. split; reflexivity.
Qed.

End HardDeletion.

Lemma MessageGetAll_newest_first_witness :
  map SeqId
    (fst (@MessageGetAll Demo.packages Sample.opened Scenario.three_messages
            "grpT" 10 None)) = [3; 2; 1] /\
  StronglySorted (fun x y => SeqId y < SeqId x)
    (fst (@MessageGetAll Demo.packages Sample.opened Scenario.three_messages
            "grpT" 10 None)).
Proof.
  split; [vm_compute; reflexivity|].
  apply (@MessageGetAll_newest_first Demo.packages Sample.opened
           Scenario.three_messages "grpT" 10 None).
  cbn. repeat (constructor; [cbn; intuition congruence|]). constructor.
Defined.

Lemma MessageGetDeleted_accumulates_witness :
  let db :=
    set_dellog Sample.with_topic
      [{| d_topic := "grpT"; d_deletedfor := 0; d_delid := 1;
          d_low := 1; d_hi := 3 |};
       {| d_topic := "grpT"; d_deletedfor := 0; d_delid := 2;
          d_low := 5; d_hi := 6 |}] in
  map dm_SeqIdRanges
    (fst (@MessageGetDeleted Demo.packages Sample.opened db "grpT" 8 None))
    = [[{| Low := 1; Hi := 3 |}];
       [{| Low := 1; Hi := 3 |}; {| Low := 5; Hi := 0 |}]] /\
  StronglySorted extends
    (fst (@MessageGetDeleted Demo.packages Sample.opened db "grpT" 8 None)).
Proof.
  cbv zeta. split; [vm_compute; reflexivity|].
  apply (@MessageGetDeleted_accumulates Demo.packages).
Defined.

(** ** Rows of credentials *)

Lemma distinct_NoDup (keys : list string) :
  distinct keys = true <-> NoDup keys.
Proof.
  induction keys as [|k rest IH]; simpl.
  - split; [constructor | reflexivity].
  - rewrite andb_true_iff, negb_true_iff, IH. split.
    + intros [Hk Hr]. constructor; [|exact Hr].
      intros Hin. apply not_true_iff_false in Hk. apply Hk.
      apply existsb_exists. exists k. split; [exact Hin | apply String.eqb_refl].
    + intros Hn. inversion Hn as [|? ? Hk Hr]; subst. split; [|exact Hr].
      apply not_true_iff_false. intros Hex.
      apply existsb_exists in Hex as (x & Hx & E).
      apply String.eqb_eq in E. subst x. contradiction.
Qed.

Section CredentialRows.

Context {P : Packages}.

Lemma credDel_user (tx : DB) uid value now :
  credDel tx uid "" value now =
    (None,
     set_credentials tx
       (filter (fun c => negb (c_userid c =? DecodeUid uid))
          (credentials tx))).
Proof.
  unfold credDel. cbn [String.eqb negb]. cbv beta iota. f_equal. f_equal.
  apply filter_ext. intros c. unfold credentials_where.
  change (Go.placeholders _) with [1]. simpl. now rewrite andb_true_r.
Qed.

Lemma credDel_method (tx : DB) uid method now :
  method <> "" ->
  credDel tx uid method "" now =
    (None,
     set_credentials tx
       (filter (fun c =>
          negb ((c_userid c =? DecodeUid uid) &&
                String.eqb (c_method c) method &&
                (c_done c || (c_retries c =? 0))))
          (credentials tx))).
Proof.
  intros Hm. unfold credDel.
  apply String.eqb_neq in Hm. rewrite Hm. cbn [String.eqb negb].
  f_equal. cbv beta iota. unfold set_credentials at 1. cbn [credentials
    users usertags topics topictags subscriptions messages dellog
    filemsglinks].
  unfold set_credentials. f_equal.
  rewrite map_if_false.
  - apply filter_ext. intros c. unfold credentials_where.
    change (Go.placeholders _) with [1; 2].
    simpl. now rewrite andb_true_r.
  - intros c _. unfold credentials_where.
    change (Go.placeholders _) with [3; 2].
    reflexivity.
Qed.

(** What [credDel] leaves when its second statement is taken to match
    no row. *)
Lemma CredDel_rows (db : DB) (uid : Uid) (method value : string)
    (now : time) :
  let chosen (c : cred_row) :=
    (c_userid c =? DecodeUid uid) &&
    (String.eqb method "" ||
     (String.eqb (c_method c) method &&
      (String.eqb value "" || String.eqb (c_value c) value))) in
  CredDel db uid method value now =
    (None,
     set_credentials db
       (filter (fun c =>
          negb (chosen c &&
                (String.eqb method "" || c_done c || (c_retries c =? 0))))
          (credentials db))).
Proof.
  cbv zeta. unfold CredDel.
  destruct (String.eqb method "") eqn:Em.
  - apply String.eqb_eq in Em. subst method. rewrite credDel_user.
    f_equal. f_equal. apply filter_ext. intros c.
    destruct (c_userid c =? DecodeUid uid); reflexivity.
  - apply String.eqb_neq in Em.
    destruct (String.eqb value "") eqn:Ev.
    + apply String.eqb_eq in Ev. subst value.
      rewrite credDel_method by exact Em.
      f_equal. f_equal. apply filter_ext. intros c.
      destruct (c_userid c =? DecodeUid uid), (String.eqb (c_method c) method),
        (c_done c), (c_retries c =? 0); reflexivity.
    + apply String.eqb_neq in Ev.
      rewrite credDel_effect by assumption.
      f_equal. f_equal. apply filter_ext. intros c.
      destruct (c_userid c =? DecodeUid uid), (String.eqb (c_method c) method),
        (String.eqb (c_value c) value), (c_done c), (c_retries c =? 0);
        reflexivity.
Qed.

(** X5.  [CredDel] changes no stored credential, so it marks none as
    deleted: whatever it returns, the credentials it leaves are those it
    found, in their order, less the ones it removed.  It removes no credential
    of another user, none of another method or value than the ones given, and
    with a method none that is unconfirmed and was retried. *)
Theorem CredDel_removes_or_keeps (db : DB) (uid : Uid) (method value : string)
    (now : time) :
  exists keep,
    credentials (snd (CredDel db uid method value now))
      = filter keep (credentials db) /\
    forall c,
      c_userid c <> DecodeUid uid \/
      (method <> "" /\ c_method c <> method) \/
      (method <> "" /\ value <> "" /\ c_value c <> value) \/
      (method <> "" /\ c_done c = false /\ c_retries c <> 0) ->
      keep c = true.
Proof.
  pose proof (CredDel_rows db uid method value now) as E. cbv zeta in E.
  rewrite E. cbn [snd credentials set_credentials]. eexists.
  split; [reflexivity |].
  intros c H. cbv beta. apply negb_true_iff.
  destruct H as [H | [[Hm H] | [(Hm & Hv & H) | (Hm & Hd & Hr)]]].
  - apply Z.eqb_neq in H. now rewrite H.
  - apply String.eqb_neq in Hm, H. rewrite Hm, H.
    cbn [orb andb]. now rewrite andb_false_r.
  - apply String.eqb_neq in Hm, Hv, H. rewrite Hm, Hv, H.
    cbn [orb andb]. now rewrite !andb_false_r.
  - apply String.eqb_neq in Hm. apply Z.eqb_neq in Hr. rewrite Hm, Hd, Hr.
    cbn [orb]. now rewrite andb_false_r.
Qed.

Lemma NoDup_snoc {A} (l : list A) (x : A) :
  NoDup l -> ~ In x l -> NoDup (l ++ [x]).
Proof.
  intros Hl Hx. apply NoDup_app; [exact Hl | repeat constructor; intros [] |].
  intros y Hy [<-|[]]. contradiction.
Qed.

Lemma insert_credential_unique (tx : DB) row tx' :
  unique_synthetic tx -> insert_credential tx row = inl tx' ->
  unique_synthetic tx' /\
  credentials tx' = (credentials tx ++ [row])%list /\
  ~ In (c_synthetic row) (map c_synthetic (credentials tx)).
Proof.
  unfold insert_credential, unique_synthetic. intros Hu.
  destruct (existsb _ (credentials tx)) eqn:Ek; [discriminate|].
  destruct (existsb _ (users tx)); [|discriminate].
  intros [= <-]. cbn [credentials set_credentials].
  assert (Hfresh : ~ In (c_synthetic row) (map c_synthetic (credentials tx))).
  { intros Hin. apply in_map_iff in Hin as (c & E & Hc).
    apply not_true_iff_false in Ek. apply Ek. apply existsb_exists.
    exists c. split; [exact Hc | now apply String.eqb_eq]. }
  split; [|split; [reflexivity | exact Hfresh]].
  rewrite map_app. now apply NoDup_snoc.
Qed.

(** X6.  [CredUpsert], [CredDel] and [CredConfirm] keep the constraint
    [credentials_uniqueness]: from a state where no two credentials share a
    synthetic key they lead to such a state, whether they succeed or fail. *)
Theorem credentials_stay_unique :
  (forall (db : DB) cred now,
     unique_synthetic db -> unique_synthetic (snd (CredUpsert db cred now))) /\
  (forall (db : DB) uid method value now,
     unique_synthetic db ->
     unique_synthetic (snd (CredDel db uid method value now))) /\
  (forall (db : DB) uid method now,
     unique_synthetic db ->
     unique_synthetic (snd (CredConfirm db uid method now))).
Proof.
  split; [|split].
  - intros db cred now Hu. unfold CredUpsert.
    destruct (cr_Done cred); cbn [negb].
    + match goal with
      | |- context [insert_credential ?tx ?row] =>
          destruct (insert_credential tx row) as [tx'|e] eqn:Ei;
          [apply (insert_credential_unique tx row tx') in Ei as [H _];
             [exact H|] |]
      end.
      * unfold unique_synthetic. cbn [credentials set_credentials].
        now apply NoDup_map_filter.
      * cbn [isDupe]. exact Hu.
    + destruct (filter _ (credentials db)); exact Hu.
  - intros db uid method value now Hu.
    assert (exists keep,
      CredDel db uid method value now =
        (None, set_credentials db (filter keep (credentials db)))) as [keep ->].
    { unfold CredDel.
      destruct (String.eqb method "") eqn:Em.
      - apply String.eqb_eq in Em. subst method. rewrite credDel_user.
        now eexists.
      - apply String.eqb_neq in Em.
        destruct (String.eqb value "") eqn:Ev.
        + apply String.eqb_eq in Ev. subst value.
          rewrite credDel_method by exact Em. now eexists.
        + apply String.eqb_neq in Ev.
          rewrite credDel_effect by assumption. now eexists. }
    unfold unique_synthetic. cbn [snd credentials set_credentials].
    now apply NoDup_map_filter.
  - intros db uid method now Hu. unfold CredConfirm.
    destruct (distinct _) eqn:Ed.
    + apply distinct_NoDup in Ed.
      destruct (_ <? 1); exact Ed.
    + cbn [isDupe snd]. exact Hu.
Qed.

End CredentialRows.

Lemma credentials_stay_unique_witness :
  unique_synthetic Sample.with_user /\
  unique_synthetic
    (snd (@CredUpsert Demo.packages Sample.with_user Scenario.confirmed_cred
            100)).
Proof.
  assert (H : unique_synthetic Sample.with_user) by (cbn; constructor).
  split; [exact H|].
  apply (proj1 (@credentials_stay_unique Demo.packages)). exact H.
Defined.

(** ** Confirming a credential *)

Lemma set_credentials_same (db : DB) (rows : list cred_row) :
  set_credentials (set_credentials db rows) rows = set_credentials db rows.
Proof. reflexivity. Qed.

Section Confirmation.

Context {P : Packages}.

Lemma confirmed_not_pending u m now c :
  pending u m (if pending u m c then confirmed now c else c) = false.
Proof.
  destruct (pending u m c) eqn:E; [|exact E].
  unfold pending. cbn. now rewrite andb_false_r.
Qed.

(** X8.  [CredConfirm] confirms once.  When the user has no pending
    credential of the method it returns [ErrNotFound] and changes no row;
    after a call that succeeded, a second call returns [ErrNotFound], leaves
    the state as it is, and [CredGetActive] finds nothing. *)
Theorem CredConfirm_once :
  (forall (db : DB) uid method now,
     unique_synthetic db ->
     filter (pending (DecodeUid uid) method) (credentials db) = [] ->
     exists db', CredConfirm db uid method now = (Some ErrNotFound, db') /\
                 credentials db' = credentials db) /\
  (forall (db : DB) uid method now now' db',
     CredConfirm db uid method now = (None, db') ->
     CredConfirm db' uid method now' = (Some ErrNotFound, db') /\
     CredGetActive db' uid method = (None, None)).
Proof.
  split.
  - intros db uid method now Hu Hnone. unfold CredConfirm.
    assert (E : map (fun c => if pending (DecodeUid uid) method c
                              then confirmed now c else c) (credentials db)
                = credentials db).
    { apply map_if_false. intros c Hc.
      apply not_true_iff_false. intros Hp.
      assert (In c (filter (pending (DecodeUid uid) method) (credentials db)))
        as H by (apply filter_In; auto).
      rewrite Hnone in H. destruct H. }
    rewrite E, Hnone.
    apply distinct_NoDup in Hu. rewrite Hu. cbn.
    eexists. split; reflexivity.
  - intros db uid method now now' db' H. unfold CredConfirm in H.
    set (rows := map _ (credentials db)) in H.
    destruct (distinct (map c_synthetic rows)) eqn:Ed;
      [|cbn [isDupe] in H; discriminate].
    destruct (_ <? 1); [discriminate|]. injection H as <-.
    assert (Hnone : forall c, In c rows ->
                      pending (DecodeUid uid) method c = false).
    { intros c Hc. apply in_map_iff in Hc as (c0 & <- & _).
      apply confirmed_not_pending. }
    split.
    + unfold CredConfirm. cbn [credentials set_credentials].
      rewrite (map_if_false _ _ rows Hnone), Ed.
      rewrite filter_none by (apply forallb_forall; intros c Hc;
                              now rewrite (Hnone c Hc)).
      cbn. now rewrite set_credentials_same.
    + unfold CredGetActive. cbn [credentials set_credentials].
      rewrite filter_none; [reflexivity|].
      apply forallb_forall. intros c Hc. specialize (Hnone c Hc).
      unfold pending in Hnone. apply negb_true_iff.
      destruct (c_userid c =? DecodeUid uid), (is_null (c_deletedat c)),
        (String.eqb (c_method c) method), (c_done c);
        cbn in *; congruence.
Qed.

End Confirmation.

Lemma CredConfirm_once_witness :
  let db1 :=
    set_credentials Sample.with_user
      [{| c_createdat := 20; c_updatedat := 20; c_deletedat := None;
          c_method := "email"; c_value := "alice@example.com";
          c_synthetic := "8:email:alice@example.com"; c_userid := 7;
          c_resp := "111"; c_done := false; c_retries := 0 |}] in
  let db2 := snd (@CredConfirm Demo.packages db1 8 "email" 300) in
  @CredConfirm Demo.packages db1 8 "email" 300 = (None, db2) /\
  @CredConfirm Demo.packages db2 8 "email" 400 = (Some ErrNotFound, db2).
Proof.
  cbv zeta.
  set (db1 := set_credentials Sample.with_user _).
  assert (H : @CredConfirm Demo.packages db1 8 "email" 300
              = (None, snd (@CredConfirm Demo.packages db1 8 "email" 300)))
    by (vm_compute; reflexivity).
  split; [exact H|].
  apply (proj2 (@CredConfirm_once Demo.packages) _ 8 "email" 300 400 _ H).
Defined.

(** ** Confirmed credentials and listing limits *)

Lemma length_filter_le {A} (p : A -> bool) (l : list A) :
  (List.length (filter p l) <= List.length l)%nat.
Proof.
  induction l as [|x l IH]; simpl; [lia|]. destruct (p x); simpl; lia.
Qed.

Section ConfirmedCredential.

Context {P : Packages}.

(** X10.  [CredUpsert] of a confirmed credential.  When its method and
    value are already stored under the key of a confirmed credential the call
    fails with the unique-key error of the engine, not with [ErrDuplicate],
    and nothing is changed.  When it succeeds a record was inserted,
    [UserGetByCred] returns the user, no record is left under the key of the
    unconfirmed credential, and [CredGetAll] lists the credential among the
    validated ones. *)
Theorem CredUpsert_confirmed (db : DB) (cred : Credential) (now : time) :
  cr_Done cred = true ->
  (forall c, In c (credentials db) -> c_synthetic c = bare_key cred ->
     CredUpsert db cred now = (true, Some (ErrEngine UniqueViolation), db)) /\
  (forall ins db',
     CredUpsert db cred now = (ins, None, db') ->
     ins = true /\
     UserGetByCred db' (cr_Method cred) (cr_Value cred)
       = (EncodeUid (decodeUidString (cr_User cred)), None) /\
     with_key (user_key cred) db' = [] /\
     forall uid, decodeUidString (cr_User cred) = DecodeUid uid ->
       exists c, In c (fst (CredGetAll db' uid (cr_Method cred) true)) /\
                 cr_Value c = cr_Value cred /\ cr_Done c = true).
Proof.
  intros Hd. unfold CredUpsert. rewrite Hd. cbn [negb].
  set (tx := set_credentials db _).
  set (row := new_credential cred _ _).
  split.
  - intros c Hc Hkey. unfold insert_credential.
    assert (E : existsb (fun c0 => String.eqb (c_synthetic c0) (c_synthetic row))
                  (credentials tx) = true).
    { apply existsb_exists. exists c. split.
      - unfold tx. cbn [credentials set_credentials]. apply filter_In.
        split; [exact Hc|]. apply negb_true_iff, String.eqb_neq.
        rewrite Hkey. intros E. now apply (user_key_not_bare cred).
      - apply String.eqb_eq. exact Hkey. }
    rewrite E. reflexivity.
  - intros ins db'. unfold insert_credential.
    destruct (existsb _ (credentials tx)) eqn:Ek; [cbn [isDupe]; discriminate|].
    destruct (existsb _ (users tx)); [|cbn [isDupe]; discriminate].
    intros [= <- <-]. split; [reflexivity|].
    assert (Hnone : forall c, In c (credentials tx) ->
                      String.eqb (c_synthetic c) (bare_key cred) = false).
    { intros c Hc. apply not_true_iff_false. intros E.
      apply not_true_iff_false in Ek. apply Ek. apply existsb_exists.
      exists c. split; [exact Hc | exact E]. }
    split; [|split].
    + unfold UserGetByCred. cbn [credentials set_credentials].
      rewrite filter_app.
      rewrite (filter_none _ (credentials tx))
        by (apply forallb_forall; intros c Hc; apply negb_true_iff;
            now apply Hnone).
      cbn. unfold bare_key. now rewrite String.eqb_refl.
    + unfold with_key. cbn [credentials set_credentials].
      rewrite filter_app. subst tx. cbn [credentials set_credentials].
      rewrite filter_none.
      * cbn [filter app].
        destruct (String.eqb (c_synthetic row) (user_key cred)) eqn:E;
          [|reflexivity].
        apply String.eqb_eq in E. exfalso.
        apply (user_key_not_bare cred). symmetry. exact E.
      * apply forallb_forall. intros c Hc. apply filter_In in Hc as [_ Hc].
        exact Hc.
    + intros uid Hu. exists (scan_credential (UidString uid) row). split.
      * unfold CredGetAll. cbn [fst]. apply in_map.
        cbn [credentials set_credentials]. apply filter_In. split.
        -- apply in_app_iff. right. now left.
        -- unfold row. cbn. rewrite Hu, Hd, Z.eqb_refl, String.eqb_refl.
           now rewrite orb_true_r.
      * cbn. auto.
Qed.

(** X11.  After [CredDel] with an empty method, [CredGetAll] returns no
    credential of the user for any method, [CredGetActive] returns none, and
    the credentials of the other users are what they were. *)
Theorem CredDel_all_then_none (db : DB) (uid : Uid) (value : string)
    (now : time) :
  exists db',
    CredDel db uid "" value now = (None, db') /\
    (forall method validatedOnly,
       fst (CredGetAll db' uid method validatedOnly) = []) /\
    (forall method, CredGetActive db' uid method = (None, None)) /\
    filter (fun c => negb (c_userid c =? DecodeUid uid)) (credentials db')
      = filter (fun c => negb (c_userid c =? DecodeUid uid)) (credentials db).
Proof.
  unfold CredDel. rewrite credDel_user. eexists. split; [reflexivity|].
  cbn [credentials set_credentials].
  assert (Hgone : forall c,
            In c (filter (fun c => negb (c_userid c =? DecodeUid uid))
                    (credentials db)) ->
            (c_userid c =? DecodeUid uid) = false).
  { intros c Hc. apply filter_In in Hc as [_ Hc]. now apply negb_true_iff. }
  split; [|split].
  - intros method v. unfold CredGetAll. cbn [fst credentials set_credentials].
    rewrite filter_none; [reflexivity|].
    apply forallb_forall. intros c Hc. now rewrite (Hgone c Hc).
  - intros method. unfold CredGetActive. cbn [credentials set_credentials].
    rewrite filter_none; [reflexivity|].
    apply forallb_forall. intros c Hc. now rewrite (Hgone c Hc).
  - apply filter_all. apply forallb_forall. intros c Hc.
    apply filter_In in Hc as [_ Hc]. exact Hc.
Qed.

End ConfirmedCredential.

Section Limits.

Context {P : Packages}.

Lemma query_limit_bounds (a : adapter) (opts : option QueryOpt) :
  0 < maxResults a ->
  0 < query_limit a opts <= maxResults a /\
  (forall o, opts = Some o -> 0 < opt_Limit o < maxResults a ->
     query_limit a opts = opt_Limit o).
Proof.
  intros Ha. unfold query_limit. destruct opts as [o|].
  - destruct (0 <? opt_Limit o) eqn:E1, (opt_Limit o <? maxResults a) eqn:E2;
      cbn [andb].
    + apply Z.ltb_lt in E1, E2. split; [lia|]. now intros ? [= <-].
    + apply Z.ltb_lt in E1. apply Z.ltb_ge in E2. split; [lia|].
      intros ? [= <-]. lia.
    + apply Z.ltb_ge in E1. split; [lia|]. intros ? [= <-]. lia.
    + apply Z.ltb_ge in E1. split; [lia|]. intros ? [= <-]. lia.
  - split; [lia|]. discriminate.
Qed.

Lemma length_swap_public (subs : list Subscription) :
  List.length (swap_public subs) = List.length subs.
Proof. destruct subs as [|s0 [|s1 rest]]; reflexivity. Qed.

Lemma limited {A} (n : Z) (l : list A) :
  0 < n -> Z.of_nat (List.length (limit_rows n l)) <= n.
Proof. intros Hn. pose proof (length_limit_rows n l). lia. Qed.

(** X12.  [SetMaxResults] leaves a positive limit, 1024 when the value
    given is not positive.  The limit of a listing is then positive and at
    most the limit of the adapter; it is [opts.Limit] when that is positive
    and smaller.  [SubsForUser], [SubsForTopic] and [UsersForTopic] return no
    more subscriptions than the limit of the listing. *)
Theorem listings_within_limit (a0 : adapter) (val : Z) :
  let a := fst (SetMaxResults a0 val) in
  maxResults a = (if val <=? 0 then 1024 else val) /\
  forall (db : DB) (topic : string) (u : Uid) (keepDeleted : bool)
         (opts : option QueryOpt),
    0 < query_limit a opts <= maxResults a /\
    (forall o, opts = Some o -> 0 < opt_Limit o < maxResults a ->
       query_limit a opts = opt_Limit o) /\
    Z.of_nat (List.length (fst (SubsForUser a db u keepDeleted opts)))
      <= query_limit a opts /\
    Z.of_nat (List.length (fst (SubsForTopic a db topic keepDeleted opts)))
      <= query_limit a opts /\
    Z.of_nat (List.length (fst (UsersForTopic a db topic keepDeleted opts)))
      <= query_limit a opts.
Proof.
  cbv zeta.
  assert (Hmax : maxResults (fst (SetMaxResults a0 val))
                 = if val <=? 0 then 1024 else val).
  { unfold SetMaxResults. destruct (val <=? 0); reflexivity. }
  assert (Hpos : 0 < maxResults (fst (SetMaxResults a0 val))).
  { rewrite Hmax. destruct (val <=? 0) eqn:E; [lia|]. apply Z.leb_gt in E. lia. }
  set (a := fst (SetMaxResults a0 val)) in *.
  split; [exact Hmax|]. intros db topic u keepDeleted opts.
  destruct (query_limit_bounds a opts Hpos) as [Hq Hl].
  split; [exact Hq|]. split; [exact Hl|].
  split; [|split].
  - unfold SubsForUser. cbn [fst]. rewrite length_map. apply limited. lia.
  - unfold SubsForTopic. cbn [fst]. rewrite length_map. apply limited. lia.
  - unfold UsersForTopic. cbn [fst].
    set (subs := map _ (users_for_topic_rows a db topic keepDeleted opts)).
    assert (Hsubs : Z.of_nat (List.length subs) <= query_limit a opts).
    { unfold subs. rewrite length_map. unfold users_for_topic_rows.
      apply limited. lia. }
    destruct (_ && _).
    + destruct (_ || _).
      * eapply Z.le_trans; [apply Nat2Z.inj_le, length_filter_le|].
        rewrite length_swap_public. exact Hsubs.
      * rewrite length_swap_public. exact Hsubs.
    + exact Hsubs.
Qed.

End Limits.

Lemma CredUpsert_confirmed_witness :
  exists db',
    @CredUpsert Demo.packages Sample.with_user Scenario.confirmed_cred 100
      = (true, None, db') /\
    @UserGetByCred Demo.packages db' "email" "alice@example.com" = (8, None).
Proof.
  exists (snd (@CredUpsert Demo.packages Sample.with_user
                 Scenario.confirmed_cred 100)).
  split; [vm_compute; reflexivity|].
  apply (proj2 (@CredUpsert_confirmed Demo.packages Sample.with_user
                  Scenario.confirmed_cred 100 eq_refl) true).
  vm_compute. reflexivity.
Defined.

Lemma listings_within_limit_witness :
  maxResults (fst (@SetMaxResults Sample.opened (-3))) = 1024 /\
  Z.of_nat
    (List.length
       (fst (@SubsForUser Demo.packages (fst (@SetMaxResults Sample.opened 1))
               Scenario.subscribed 8 true None))) <= 1.
Proof.
  split.
  - apply (proj1 (@listings_within_limit Demo.packages Sample.opened (-3))).
  - destruct (proj2 (@listings_within_limit Demo.packages Sample.opened 1)
                Scenario.subscribed "grpT" 8 true None)
      as (_ & _ & H & _).
    exact H.
Defined.

(** ** Deleting subscriptions *)

Lemma set_subscriptions_same (db : DB) (rows : list sub_row) :
  set_subscriptions (set_subscriptions db rows) rows
  = set_subscriptions db rows.
Proof. reflexivity. Qed.

Section SubscriptionDeletion.

Context {P : Packages}.

(** X13.  [SubsDelete] deletes once.  After a call that succeeded
    [SubscriptionGet] of the topic and user returns nothing, a second call
    returns [ErrNotFound] and changes nothing, and the subscriptions of other
    topics or users are still stored as they were.  When the user has no
    active subscription to the topic the call returns [ErrNotFound] and
    leaves the subscriptions as they are. *)
Theorem SubsDelete_once (db : DB) (topic : string) (user : Uid) (now : time) :
  (forall db',
     SubsDelete db topic user now = (None, db') ->
     SubscriptionGet db' topic user = (None, None) /\
     (forall now', SubsDelete db' topic user now' = (Some ErrNotFound, db')) /\
     (forall r, In r (subscriptions db) ->
        s_topic r <> topic \/ s_userid r <> DecodeUid user ->
        In r (subscriptions db'))) /\
  ((forall r, In r (subscriptions db) -> s_topic r = topic ->
      s_userid r = DecodeUid user -> s_deletedat r <> None) ->
   exists db', SubsDelete db topic user now = (Some ErrNotFound, db') /\
               subscriptions db' = subscriptions db).
Proof.
  unfold SubsDelete. cbv zeta.
  set (hit := fun r : sub_row =>
    String.eqb (s_topic r) topic && (s_userid r =? DecodeUid user) &&
    is_null (s_deletedat r)).
  set (rows := map (fun r => if hit r then sub_deleted now r else r)
                 (subscriptions db)).
  assert (Hrows : forall r, In r rows -> hit r = false).
  { intros r Hr. apply in_map_iff in Hr as (r0 & <- & _).
    destruct (hit r0) eqn:E; [|exact E].
    unfold hit. cbn. now rewrite andb_false_r. }
  split.
  - intros db'. destruct (_ =? 0); [discriminate|]. intros [= <-].
    split; [|split].
    + apply SubscriptionGet_deleted. cbn [subscriptions set_subscriptions].
      intros r Hr Ht Hu Hd. specialize (Hrows r Hr). unfold hit in Hrows.
      rewrite Ht, Hu, Hd, String.eqb_refl, Z.eqb_refl in Hrows. discriminate.
    + intros now'. cbn [subscriptions set_subscriptions]. fold hit.
      rewrite (map_if_false _ _ rows Hrows).
      rewrite filter_none by (apply forallb_forall; intros r Hr;
                              now rewrite (Hrows r Hr)).
      cbn. now rewrite set_subscriptions_same.
    + intros r Hr Hother. cbn [subscriptions set_subscriptions].
      apply in_map_iff. exists r. split; [|exact Hr]. cbv beta.
      change ((if hit r then sub_deleted now r else r) = r).
      assert (hit r = false) as ->; [|reflexivity].
      unfold hit. destruct Hother as [H|H].
      * apply String.eqb_neq in H. now rewrite H.
      * apply Z.eqb_neq in H. rewrite H. now rewrite andb_false_r.
  - intros Hdel.
    assert (Hnone : forall r, In r (subscriptions db) -> hit r = false).
    { intros r Hr. unfold hit.
      destruct (String.eqb (s_topic r) topic) eqn:Et; [|reflexivity].
      destruct (s_userid r =? DecodeUid user) eqn:Eu; [|reflexivity].
      apply String.eqb_eq in Et. apply Z.eqb_eq in Eu.
      specialize (Hdel r Hr Et Eu). destruct (s_deletedat r);
        [reflexivity | contradiction]. }
    rewrite filter_none by (apply forallb_forall; intros r Hr;
                            now rewrite (Hnone r Hr)).
    cbn. eexists. split; [reflexivity|].
    cbn [subscriptions set_subscriptions]. now apply map_if_false.
Qed.

Lemma TopicsForUser_none (a : adapter) (db : DB) uid keep opts :
  (forall r, In r (subscriptions db) -> s_userid r = DecodeUid uid ->
     keep = false /\ s_deletedat r <> None) ->
  fst (TopicsForUser a db uid keep opts) = [].
Proof.
  intros Hdel. unfold TopicsForUser.
  rewrite filter_none; [unfold limit_rows; now rewrite firstn_nil|].
  apply forallb_forall. intros r Hr.
  destruct (s_userid r =? DecodeUid uid) eqn:Eu; [|reflexivity].
  apply Z.eqb_eq in Eu. destruct (Hdel r Hr Eu) as [-> Hd].
  destruct (s_deletedat r); [reflexivity | contradiction].
Qed.

(** X14.  After [SubsDelForTopic] no subscription to the topic is listed
    by [SubsForTopic] or found by [SubscriptionGet], deleted ones included
    after a hard deletion.  After [SubsDelForUser] neither [SubsForUser] nor
    [TopicsForUser] lists anything for the user, and a soft deletion stamps
    every subscription of the user with the time of the call, those that were
    deleted before as well. *)
Theorem subscriptions_deleted_in_bulk (a : adapter) (db : DB) (now : time)
    (opts : option QueryOpt) :
  (forall topic,
     let soft := snd (SubsDelForTopic db topic false now) in
     let hard := snd (SubsDelForTopic db topic true now) in
     fst (SubsForTopic a soft topic false opts) = [] /\
     fst (SubsForTopic a hard topic true opts) = [] /\
     (forall user, SubscriptionGet soft topic user = (None, None) /\
                   SubscriptionGet hard topic user = (None, None))) /\
  (forall user,
     let soft := snd (SubsDelForUser db user false now) in
     let hard := snd (SubsDelForUser db user true now) in
     fst (SubsForUser a soft user false opts) = [] /\
     fst (TopicsForUser a soft user false opts) = [] /\
     fst (SubsForUser a hard user true opts) = [] /\
     fst (TopicsForUser a hard user true opts) = [] /\
     (forall r, In r (subscriptions soft) -> s_userid r = DecodeUid user ->
        s_deletedat r = Some now)).
Proof.
  split.
  - intros topic. cbv zeta. unfold SubsDelForTopic. cbn [snd].
    assert (Hsoft : forall r,
      In r (map (fun r => if String.eqb (s_topic r) topic &&
                             is_null (s_deletedat r)
                          then sub_deleted now r else r) (subscriptions db)) ->
      s_topic r = topic -> s_deletedat r <> None).
    { intros r Hr Ht. apply in_map_iff in Hr as (r0 & <- & _).
      destruct (String.eqb (s_topic r0) topic) eqn:E0; cbn [andb].
      - destruct (s_deletedat r0) eqn:Ed; cbn [is_null].
        + now rewrite Ed.
        + discriminate.
      - apply String.eqb_neq in E0. contradiction. }
    assert (Hhard : forall r,
      In r (filter (fun r => negb (String.eqb (s_topic r) topic))
              (subscriptions db)) -> s_topic r <> topic).
    { intros r Hr. apply filter_In in Hr as [_ Hr].
      now apply String.eqb_neq, negb_true_iff. }
    split; [|split].
    + unfold SubsForTopic. cbn [fst subscriptions set_subscriptions].
      rewrite filter_none; [unfold limit_rows; now rewrite firstn_nil|].
      apply forallb_forall. intros r Hr.
      destruct (String.eqb (s_topic r) topic) eqn:Et; [|reflexivity].
      apply String.eqb_eq in Et. specialize (Hsoft r Hr Et).
      destruct (s_deletedat r); [reflexivity | contradiction].
    + unfold SubsForTopic. cbn [fst subscriptions set_subscriptions].
      rewrite filter_none; [unfold limit_rows; now rewrite firstn_nil|].
      apply forallb_forall. intros r Hr. specialize (Hhard r Hr).
      apply String.eqb_neq in Hhard. now rewrite Hhard.
    + intros user. split; apply SubscriptionGet_deleted;
        cbn [subscriptions set_subscriptions]; intros r Hr Ht _.
      * now apply Hsoft.
      * now apply Hhard in Hr.
  - intros user. cbv zeta. unfold SubsDelForUser, subsDelForUser. cbn [snd].
    assert (Hsoft : forall r,
      In r (map (fun r => if s_userid r =? DecodeUid user
                          then sub_deleted now r else r) (subscriptions db)) ->
      s_userid r = DecodeUid user -> s_deletedat r = Some now).
    { intros r Hr Hu. apply in_map_iff in Hr as (r0 & <- & _).
      destruct (s_userid r0 =? DecodeUid user) eqn:E0; [reflexivity|].
      apply Z.eqb_neq in E0. contradiction. }
    assert (Hhard : forall r,
      In r (filter (fun r => negb (s_userid r =? DecodeUid user))
              (subscriptions db)) -> s_userid r <> DecodeUid user).
    { intros r Hr. apply filter_In in Hr as [_ Hr].
      now apply Z.eqb_neq, negb_true_iff. }
    split; [|split; [|split; [|split]]].
    + unfold SubsForUser. cbn [fst subscriptions set_subscriptions].
      rewrite filter_none; [unfold limit_rows; now rewrite firstn_nil|].
      apply forallb_forall. intros r Hr.
      destruct (s_userid r =? DecodeUid user) eqn:Eu; [|reflexivity].
      apply Z.eqb_eq in Eu. now rewrite (Hsoft r Hr Eu).
    + apply TopicsForUser_none. cbn [subscriptions set_subscriptions].
      intros r Hr Hu. split; [reflexivity|]. now rewrite (Hsoft r Hr Hu).
    + unfold SubsForUser. cbn [fst subscriptions set_subscriptions].
      rewrite filter_none; [unfold limit_rows; now rewrite firstn_nil|].
      apply forallb_forall. intros r Hr. specialize (Hhard r Hr).
      apply Z.eqb_neq in Hhard. now rewrite Hhard.
    + unfold TopicsForUser. cbn [subscriptions set_subscriptions].
      rewrite filter_none; [unfold limit_rows; now rewrite firstn_nil|].
      apply forallb_forall. intros r Hr. specialize (Hhard r Hr).
      apply Z.eqb_neq in Hhard. now rewrite Hhard.
    + exact Hsoft.
Qed.

End SubscriptionDeletion.

Lemma SubsDelete_once_witness :
  exists db',
    @SubsDelete Demo.packages Scenario.subscribed "grpT" 8 100 = (None, db') /\
    @SubscriptionGet Demo.packages db' "grpT" 8 = (None, None) /\
    @SubsDelete Demo.packages db' "grpT" 8 200 = (Some ErrNotFound, db').
Proof.
  exists (snd (@SubsDelete Demo.packages Scenario.subscribed "grpT" 8 100)).
  assert (H : @SubsDelete Demo.packages Scenario.subscribed "grpT" 8 100
              = (None,
                 snd (@SubsDelete Demo.packages Scenario.subscribed "grpT" 8
                        100))) by (vm_compute; reflexivity).
  destruct (proj1 (@SubsDelete_once Demo.packages Scenario.subscribed "grpT" 8
                     100) _ H) as (H1 & H2 & _).
  split; [exact H|]. split; [exact H1 | apply H2].
Defined.

Lemma subscriptions_deleted_in_bulk_witness :
  fst (@SubsForUser Demo.packages Sample.opened
         (snd (@SubsDelForUser Demo.packages Scenario.subscribed 8 false 100))
         8 false None) = [] /\
  map s_deletedat
    (subscriptions
       (snd (@SubsDelForUser Demo.packages Scenario.subscribed 8 false 100)))
    = [Some 100].
Proof.
  split; [|vm_compute; reflexivity].
  apply (proj2 (@subscriptions_deleted_in_bulk Demo.packages Sample.opened
                  Scenario.subscribed 100 None) 8).
Defined.

(** ** Deleting topics and changing owners *)

Lemma map_keeps_key {A K} (key : A -> K) (f : A -> A) (l : list A) :
  (forall x, key (f x) = key x) -> map key (map f l) = map key l.
Proof.
  intros H. rewrite map_map. apply map_ext. exact H.
Qed.

Section TopicDeletion.

Context {P : Packages}.

(** X15.  A soft [TopicDelete] succeeds and hides the topic from the
    readers of subscriptions: [SubsForTopic] lists nothing, [SubscriptionGet]
    finds nothing and [TopicsForUser] lists no subscription to it.  The topic
    itself stays readable: where topic names are unique, [TopicGet] returns it
    with the time of the call as its deletion time and [OwnTopics] still
    lists it for its owner. *)
Theorem TopicDelete_soft (a : adapter) (db : DB) (topic : string)
    (now : time) (opts : option QueryOpt) :
  exists db',
    TopicDelete db topic false now = Returned None db' /\
    fst (SubsForTopic a db' topic false opts) = [] /\
    (forall user, SubscriptionGet db' topic user = (None, None)) /\
    (forall uid sub, In sub (fst (TopicsForUser a db' uid false opts)) ->
       Topic sub <> topic) /\
    (NoDup (map t_name (topics db)) ->
     forall t, In t (topics db) -> t_name t = topic ->
       exists top, TopicGet db' topic = (Some top, None) /\
                   DeletedAt (top_header top) = Some now /\
                   forall uid, t_owner t = DecodeUid uid ->
                     In topic (fst (OwnTopics db' uid opts))).
Proof.
  unfold TopicDelete. eexists. split; [reflexivity|].
  cbn [subscriptions set_subscriptions set_topics topics].
  set (subs := map _ (subscriptions db)).
  set (tops := map _ (topics db)).
  assert (Hsubs : forall r, In r subs -> s_topic r = topic ->
                    s_deletedat r <> None).
  { intros r Hr Ht. apply in_map_iff in Hr as (r0 & <- & _).
    destruct (String.eqb (s_topic r0) topic) eqn:E0; [discriminate|].
    apply String.eqb_neq in E0. contradiction. }
  split; [|split; [|split]].
  - unfold SubsForTopic. cbn [fst subscriptions set_subscriptions set_topics].
    rewrite filter_none; [unfold limit_rows; now rewrite firstn_nil|].
    apply forallb_forall. intros r Hr.
    destruct (String.eqb (s_topic r) topic) eqn:Et; [|reflexivity].
    apply String.eqb_eq in Et. specialize (Hsubs r Hr Et).
    destruct (s_deletedat r); [reflexivity | contradiction].
  - intros user. apply SubscriptionGet_deleted.
    cbn [subscriptions set_subscriptions set_topics].
    intros r Hr Ht _. now apply Hsubs.
  - intros uid sub Hin Ht.
    apply TopicsForUser_active in Hin as (r & Hr & _ & Hrt & Hd).
    cbn [subscriptions set_subscriptions set_topics] in Hr.
    rewrite Ht in Hrt. now apply (Hsubs r Hr Hrt).
  - intros Hn t Ht Hname.
    assert (Hin : In (topic_deleted now t) tops).
    { unfold tops. apply in_map_iff. exists t. split; [|exact Ht].
      rewrite Hname. now rewrite String.eqb_refl. }
    eexists. split; [|split].
    + apply (TopicGet_stored _ topic (topic_deleted now t)).
      * cbn [topics set_topics]. unfold tops.
        rewrite map_keeps_key; [exact Hn|].
        intros x. now destruct (String.eqb (t_name x) topic).
      * exact Hin.
      * exact Hname.
    + reflexivity.
    + intros uid Ho. unfold OwnTopics. cbn [fst topics set_topics].
      apply in_map_iff. exists (topic_deleted now t). split; [exact Hname|].
      apply filter_In. split; [exact Hin|]. cbn. now apply Z.eqb_eq.
Qed.

(** X16.  A hard [TopicDelete] of a stored topic that holds a message
    fails and leaves the stored state as it was: the statement that should
    remove the messages names a placeholder without argument and removes
    none, and the messages still reference the topic when its row is to be
    removed. *)
Theorem TopicDelete_hard_with_messages (db : DB) (topic : string) (now : time)
    (t : topic_row) (m : msg_row) :
  In t (topics db) -> t_name t = topic ->
  In m (messages db) -> m_topic m = topic ->
  exists e, TopicDelete db topic true now = Returned (Some e) db.
Proof.
  intros Ht Hname Hm Hmt.
  unfold TopicDelete. cbn [messageDeleteList].
  assert (Hmsgs : forall tx : DB,
            filter (fun m => negb (sql_eq (VStr (m_topic m))
                                     (bind [VStr topic] 2))) (messages tx)
            = messages tx).
  { intros tx. apply filter_all. apply forallb_forall. reflexivity. }
  unfold delete_topic.
  cbn [topics messages set_topictags set_messages set_dellog
       set_subscriptions].
  rewrite Hmsgs.
  assert (E1 : existsb (fun t0 => String.eqb (t_name t0) topic) (topics db)
               = true).
  { apply existsb_exists. exists t. split; [exact Ht|].
    now apply String.eqb_eq. }
  assert (E2 : existsb (fun m0 => String.eqb (m_topic m0) topic)
                 (messages db) = true).
  { apply existsb_exists. exists m. split; [exact Hm|].
    now apply String.eqb_eq. }
  rewrite E1, E2. eexists. reflexivity.
Qed.

(** X17.  [TopicOwnerChange] makes the new owner the only owner of the
    topic, whoever is passed as the old owner: [OwnTopics] lists the topic for
    the new owner when it is stored, for no user with another numeric id, and
    the other topics are listed for whom they were before. *)
Theorem TopicOwnerChange_owner (db : DB) (topic : string)
    (newOwner oldOwner : Uid) (opts : option QueryOpt) :
  exists db',
    TopicOwnerChange db topic newOwner oldOwner = (None, db') /\
    map t_name (topics db') = map t_name (topics db) /\
    (forall t, In t (topics db) -> t_name t = topic ->
       In topic (fst (OwnTopics db' newOwner opts))) /\
    (forall other, DecodeUid other <> DecodeUid newOwner ->
       ~ In topic (fst (OwnTopics db' other opts))) /\
    (forall name other, name <> topic ->
       In name (fst (OwnTopics db' other opts)) <->
       In name (fst (OwnTopics db other opts))).
Proof.
  unfold TopicOwnerChange. eexists. split; [reflexivity|].
  cbn [topics set_topics].
  set (chown := fun t : topic_row => _).
  assert (Hname : forall t, t_name (chown t) = t_name t).
  { intros t. unfold chown. now destruct (String.eqb (t_name t) topic). }
  split; [|split; [|split]].
  - now apply map_keeps_key.
  - intros t Ht Hn. unfold OwnTopics. cbn [fst topics set_topics].
    apply in_map_iff. exists (chown t). split; [now rewrite Hname|].
    apply filter_In. split; [now apply in_map|].
    unfold chown. rewrite Hn, String.eqb_refl. cbn. apply Z.eqb_refl.
  - intros other Hne Hin. unfold OwnTopics in Hin.
    cbn [fst topics set_topics] in Hin.
    apply in_map_iff in Hin as (t' & Hn & Hin).
    apply filter_In in Hin as [Hin Ho].
    apply in_map_iff in Hin as (t & <- & _).
    rewrite Hname in Hn. unfold chown in Ho.
    rewrite Hn, String.eqb_refl in Ho. cbn in Ho.
    apply Z.eqb_eq in Ho. congruence.
  - intros name other Hne. unfold OwnTopics. cbn [fst topics set_topics].
    rewrite !in_map_iff. split.
    + intros (t' & Hn & Hin). apply filter_In in Hin as [Hin Ho].
      apply in_map_iff in Hin as (t & <- & Ht).
      rewrite Hname in Hn. unfold chown in Ho.
      assert (E : String.eqb (t_name t) topic = false)
        by (apply String.eqb_neq; congruence).
      rewrite E in Ho. exists t. split; [exact Hn|].
      apply filter_In. split; [exact Ht | exact Ho].
    + intros (t & Hn & Hin). apply filter_In in Hin as [Ht Ho].
      exists (chown t). split; [now rewrite Hname|].
      apply filter_In. split; [now apply in_map|].
      unfold chown.
      assert (E : String.eqb (t_name t) topic = false)
        by (apply String.eqb_neq; congruence).
      now rewrite E.
Qed.

End TopicDeletion.

Lemma TopicDelete_soft_witness :
  exists db' top,
    @TopicDelete Demo.packages Scenario.subscribed "grpT" false 100
      = Returned None db' /\
    @SubscriptionGet Demo.packages db' "grpT" 8 = (None, None) /\
    @TopicGet Demo.packages db' "grpT" = (Some top, None) /\
    DeletedAt (top_header top) = Some 100.
Proof.
  destruct (@TopicDelete_soft Demo.packages Sample.opened Scenario.subscribed
              "grpT" 100 None) as (db' & H & _ & Hs & _ & Ht).
  destruct (Ht ltac:(cbn; repeat constructor; intros [])
              Sample.topicT (or_introl eq_refl) eq_refl)
    as (top & Hg & Hd & _).
  exists db', top. split; [exact H|]. split; [apply Hs|].
  split; [exact Hg | exact Hd].
Defined.

Lemma TopicDelete_hard_with_messages_witness :
  exists e,
    @TopicDelete Demo.packages Scenario.three_messages "grpT" true 100
      = Returned (Some e) Scenario.three_messages.
Proof.
  apply (@TopicDelete_hard_with_messages Demo.packages
           Scenario.three_messages "grpT" 100 Sample.topicT
           (Sample.message 1)).
  - now left.
  - reflexivity.
  - now left.
  - reflexivity.
Defined.

Lemma TopicOwnerChange_owner_witness :
  exists db',
    @TopicOwnerChange Demo.packages Scenario.subscribed "grpT" 10 0
      = (None, db') /\
    In "grpT" (fst (@OwnTopics Demo.packages db' 10 None)) /\
    ~ In "grpT" (fst (@OwnTopics Demo.packages db' 8 None)).
Proof.
  destruct (@TopicOwnerChange_owner Demo.packages Scenario.subscribed "grpT"
              10 0 None) as (db' & H & _ & Hin & Hout & _).
  exists db'. split; [exact H|]. split.
  - apply (Hin Sample.topicT); [now left | reflexivity].
  - apply Hout. vm_compute. discriminate.
Defined.

(** ** Authentication records *)

Lemma filter_filter {A} (p q : A -> bool) (l : list A) :
  filter p (filter q l) = filter (fun x => q x && p x) l.
Proof.
  induction l as [|x l IH]; simpl; [reflexivity|].
  destruct (q x); simpl; [destruct (p x)|]; now rewrite IH.
Qed.

Section Authentication.

Context {P : Packages}.

Lemma expires_round_trip (expires : time) :
  match (if negb (time_IsZero expires) then Some expires else None) with
  | Some e => e
  | None => zero_time
  end = expires.
Proof.
  unfold time_IsZero. destruct (expires =? zero_time) eqn:E; [|reflexivity].
  apply Z.eqb_eq in E. now rewrite E.
Qed.

(** X18.  A record added by [AuthAddRecord] is read back by
    [AuthGetUniqueRecord] under its unique name and by [AuthGetRecord] under
    its user and scheme, with the level, the secret and the expiration time
    given, the zero time included.  A record whose unique name, or whose pair
    of user and scheme, is already stored is refused with the unique-key error
    of the engine and a false flag, never with [ErrDuplicate]. *)
Theorem AuthAddRecord_round_trip (st : Store) (uid : Uid)
    (scheme unique : string) (authLvl : Z) (secret : string) (expires : time) :
  (forall dup st',
     AuthAddRecord st uid scheme unique authLvl secret expires
       = (dup, None, st') ->
     dup = false /\
     AuthGetUniqueRecord st' unique
       = (EncodeUid (DecodeUid uid), authLvl, Some secret, expires, None) /\
     AuthGetRecord st' uid scheme
       = (unique, authLvl, Some secret, expires, None)) /\
  (forall r, In r (auth st) ->
     a_uname r = unique \/
     (a_userid r = DecodeUid uid /\ a_scheme r = scheme) ->
     AuthAddRecord st uid scheme unique authLvl secret expires
       = (false, Some (ErrEngine UniqueViolation), st)).
Proof.
  unfold AuthAddRecord, insert_auth. cbn [a_uname a_userid a_scheme].
  split.
  - intros dup st'.
    destruct (existsb _ (auth st)) eqn:Ek; [cbn [isDupe]; discriminate|].
    destruct (existsb _ (users (base st))); [|cbn [isDupe]; discriminate].
    intros [= <- <-]. split; [reflexivity|].
    assert (Hnone : forall r, In r (auth st) ->
              String.eqb (a_uname r) unique = false /\
              (a_userid r =? DecodeUid uid) && String.eqb (a_scheme r) scheme
                = false).
    { intros r Hr. apply not_true_iff_false in Ek.
      destruct (String.eqb (a_uname r) unique) eqn:E1.
      - exfalso. apply Ek. apply existsb_exists. exists r.
        split; [exact Hr | now rewrite E1].
      - split; [reflexivity|]. apply not_true_iff_false. intros E2.
        apply Ek. apply existsb_exists. exists r.
        split; [exact Hr | now rewrite E2, orb_true_r]. }
    split.
    + unfold AuthGetUniqueRecord. cbn [auth set_auth]. rewrite filter_app.
      rewrite (filter_none _ (auth st))
        by (apply forallb_forall; intros r Hr; apply negb_true_iff;
            now apply Hnone).
      cbn. rewrite String.eqb_refl. cbn. now rewrite expires_round_trip.
    + unfold AuthGetRecord. cbn [auth set_auth]. rewrite filter_app.
      rewrite (filter_none _ (auth st))
        by (apply forallb_forall; intros r Hr; apply negb_true_iff;
            now apply Hnone).
      cbn. rewrite Z.eqb_refl, String.eqb_refl. cbn.
      now rewrite expires_round_trip.
  - intros r Hr Hsame.
    assert (E : existsb (fun r0 =>
                  String.eqb (a_uname r0) unique ||
                  ((a_userid r0 =? DecodeUid uid) &&
                   String.eqb (a_scheme r0) scheme)) (auth st) = true).
    { apply existsb_exists. exists r. split; [exact Hr|].
      destruct Hsame as [->|[-> ->]].
      - now rewrite String.eqb_refl.
      - now rewrite Z.eqb_refl, String.eqb_refl, orb_true_r. }
    rewrite E. reflexivity.
Qed.

(** X19.  [AuthUpdRecord] finds the record by its unique name alone and
    never fails: it changes no name, user or scheme, it rewrites the level,
    the secret and the expiration time of the record under that name whatever
    user and scheme are passed, and it changes nothing when no record has the
    name. *)
Theorem AuthUpdRecord_by_name (st : Store) (uid : Uid)
    (scheme unique : string) (authLvl : Z) (secret : string) (expires : time) :
  exists st',
    AuthUpdRecord st uid scheme unique authLvl secret expires
      = (false, None, st') /\
    map (fun r => (a_uname r, a_userid r, a_scheme r)) (auth st')
      = map (fun r => (a_uname r, a_userid r, a_scheme r)) (auth st) /\
    (forall r, In r (auth st) -> a_uname r = unique ->
       NoDup (map a_uname (auth st)) ->
       AuthGetUniqueRecord st' unique
         = (EncodeUid (a_userid r), authLvl, Some secret, expires, None)) /\
    ((forall r, In r (auth st) -> a_uname r <> unique) ->
     auth st' = auth st).
Proof.
  unfold AuthUpdRecord. cbn [isDupe]. eexists. split; [reflexivity|].
  cbn [auth set_auth].
  set (upd := fun r : auth_row => if String.eqb _ _ then _ else _).
  split; [|split].
  - rewrite map_map. apply map_ext. intros r. unfold upd.
    destruct (String.eqb (a_uname r) unique) eqn:E; [|reflexivity].
    apply String.eqb_eq in E. cbn. now rewrite E.
  - intros r Hr Hname Hn. unfold AuthGetUniqueRecord. cbn [auth set_auth].
    assert (Hkeys : map a_uname (map upd (auth st)) = map a_uname (auth st)).
    { apply map_keeps_key. intros x. unfold upd.
      destruct (String.eqb (a_uname x) unique) eqn:E; [|reflexivity].
      apply String.eqb_eq in E. cbn. now rewrite E. }
    assert (Hin : In (upd r) (map upd (auth st))) by now apply in_map.
    assert (Hur : a_uname (upd r) = unique).
    { unfold upd. rewrite Hname, String.eqb_refl. reflexivity. }
    replace (filter (fun r0 => String.eqb (a_uname r0) unique)
               (map upd (auth st))) with [upd r].
    + unfold upd. rewrite Hname, String.eqb_refl. cbn.
      now rewrite expires_round_trip.
    + symmetry.
      assert (Hu : NoDup (map a_uname (map upd (auth st))))
        by now rewrite Hkeys.
      pose proof (filter_key_unique a_uname (map upd (auth st)) (upd r)
                    Hu Hin) as H.
      rewrite Hur in H. exact H.
  - intros Hnone. apply map_if_false. intros r Hr.
    apply String.eqb_neq. now apply Hnone.
Qed.

(** X20.  [AuthDelAllRecords] returns the number of records of the user
    and leaves none of them, the records of other users staying as they were.
    [AuthDelScheme] leaves no record of the user under the scheme and does not
    change what [AuthGetRecord] returns for another scheme. *)
Theorem auth_records_deleted (st : Store) (user : Uid) :
  (exists st',
     AuthDelAllRecords st user
       = (Z.of_nat (List.length
                      (filter (fun r => a_userid r =? DecodeUid user)
                         (auth st))), None, st') /\
     (forall scheme,
        AuthGetRecord st' user scheme = ("", 0, None, zero_time, None)) /\
     filter (fun r => negb (a_userid r =? DecodeUid user)) (auth st')
       = filter (fun r => negb (a_userid r =? DecodeUid user)) (auth st)) /\
  (forall scheme,
     exists st',
       AuthDelScheme st user scheme = (None, st') /\
       AuthGetRecord st' user scheme = ("", 0, None, zero_time, None) /\
       (forall other, other <> scheme ->
          AuthGetRecord st' user other = AuthGetRecord st user other)).
Proof.
  split.
  - unfold AuthDelAllRecords. eexists. split; [reflexivity|].
    cbn [auth set_auth]. split.
    + intros scheme. unfold AuthGetRecord. cbn [auth set_auth].
      rewrite filter_none; [reflexivity|].
      apply forallb_forall. intros r Hr. apply filter_In in Hr as [_ Hr].
      apply negb_true_iff in Hr. now rewrite Hr.
    + apply filter_all. apply forallb_forall. intros r Hr.
      apply filter_In in Hr as [_ Hr]. exact Hr.
  - intros scheme. unfold AuthDelScheme. eexists. split; [reflexivity|].
    split.
    + unfold AuthGetRecord. cbn [auth set_auth].
      rewrite filter_none; [reflexivity|].
      apply forallb_forall. intros r Hr. apply filter_In in Hr as [_ Hr].
      exact Hr.
    + intros other Hne. unfold AuthGetRecord. cbn [auth set_auth].
      rewrite filter_filter.
      assert (E : forall r : auth_row,
        negb ((a_userid r =? DecodeUid user) && String.eqb (a_scheme r) scheme)
        && ((a_userid r =? DecodeUid user) && String.eqb (a_scheme r) other)
        = (a_userid r =? DecodeUid user) && String.eqb (a_scheme r) other).
      { intros r. destruct (a_userid r =? DecodeUid user); [|reflexivity].
        destruct (String.eqb (a_scheme r) other) eqn:E1;
          [|now rewrite !andb_false_r].
        apply String.eqb_eq in E1.
        assert (String.eqb (a_scheme r) scheme = false) as ->
          by (apply String.eqb_neq; congruence).
        reflexivity. }
      now rewrite (filter_ext _ _ E).
Qed.

End Authentication.

Lemma AuthAddRecord_round_trip_witness :
  exists st',
    @AuthAddRecord Demo.packages Scenario.two_users 8 "basic" "basic:alice" 20
      "s3cret" zero_time = (false, None, st') /\
    @AuthGetUniqueRecord Demo.packages st' "basic:alice"
      = (8, 20, Some "s3cret", zero_time, None) /\
    @AuthGetRecord Demo.packages st' 8 "basic"
      = ("basic:alice", 20, Some "s3cret", zero_time, None).
Proof.
  exists (snd (@AuthAddRecord Demo.packages Scenario.two_users 8 "basic"
                 "basic:alice" 20 "s3cret" zero_time)).
  assert (H : @AuthAddRecord Demo.packages Scenario.two_users 8 "basic"
                "basic:alice" 20 "s3cret" zero_time
              = (false, None,
                 snd (@AuthAddRecord Demo.packages Scenario.two_users 8
                        "basic" "basic:alice" 20 "s3cret" zero_time)))
    by (vm_compute; reflexivity).
  destruct (proj1 (@AuthAddRecord_round_trip Demo.packages Scenario.two_users
                     8 "basic" "basic:alice" 20 "s3cret" zero_time) _ _ H)
    as (_ & H1 & H2).
  split; [exact H|]. split; [exact H1 | exact H2].
Defined.

Lemma AuthUpdRecord_by_name_witness :
  exists st',
    AuthUpdRecord Scenario.in_use 10 "anything" "basic:alice" 30 "changed"
      500 = (false, None, st') /\
    @AuthGetUniqueRecord Demo.packages st' "basic:alice"
      = (8, 30, Some "changed", 500, None).
Proof.
  destruct (@AuthUpdRecord_by_name Demo.packages Scenario.in_use 10 "anything"
              "basic:alice" 30 "changed" 500) as (st' & H & _ & Hg & _).
  exists st'. split; [exact H|].
  apply (Hg Scenario.login); [now left | reflexivity |].
  cbn. repeat (constructor; [cbn; intuition congruence|]). constructor.
Defined.

Lemma auth_records_deleted_witness :
  exists st',
    @AuthDelScheme Demo.packages Scenario.in_use 8 "basic" = (None, st') /\
    @AuthGetRecord Demo.packages st' 8 "basic"
      = ("", 0, None, zero_time, None) /\
    @AuthGetRecord Demo.packages st' 8 "token"
      = ("token:alice", 10, Some "t0ken", 900, None).
Proof.
  destruct (proj2 (@auth_records_deleted Demo.packages Scenario.in_use 8)
              "basic") as (st' & H & H1 & H2).
  exists st'. split; [exact H|]. split; [exact H1|].
  rewrite (H2 "token"); [vm_compute; reflexivity | discriminate].
Defined.

(** ** File uploads *)

Section Files.

Context {P : Packages}.

(** X21.  [FileFinishUpload] and [FileGet] on the three kinds of file
    identifier.  One that parses to the zero identifier is refused with
    [ErrMalformed] by both; one that names no stored record gives
    [ErrNotFound] and changes nothing; for a stored record, ids being unique,
    the definition returned carries the new status, size and update time and
    the other fields of the record, and it is what [FileGet] returns
    afterwards. *)
Theorem FileFinishUpload_cases (st : Store) (fid : string) (status size : Z)
    (now : time) :
  (IsZero (ParseUid fid) = true ->
   FileGet st fid = (None, Some ErrMalformed) /\
   FileFinishUpload st fid status size now = (None, Some ErrMalformed, st)) /\
  (IsZero (ParseUid fid) = false ->
   (forall f, In f (fileuploads st) -> fu_id f <> DecodeUid (ParseUid fid)) ->
   FileGet st fid = (None, None) /\
   FileFinishUpload st fid status size now = (None, Some ErrNotFound, st)) /\
  (IsZero (ParseUid fid) = false ->
   NoDup (map fu_id (fileuploads st)) ->
   forall f, In f (fileuploads st) -> fu_id f = DecodeUid (ParseUid fid) ->
   exists fd0 fd st',
     FileGet st fid = (Some fd0, None) /\
     FileFinishUpload st fid status size now = (Some fd, None, st') /\
     FileGet st' fid = (Some fd, None) /\
     fd_Status fd = status /\ fd_Size fd = size /\ fd_UpdatedAt fd = now /\
     fd_Id fd = fd_Id fd0 /\ fd_User fd = fd_User fd0 /\
     fd_CreatedAt fd = fd_CreatedAt fd0 /\ fd_MimeType fd = fd_MimeType fd0 /\
     fd_Location fd = fd_Location fd0 /\
     map fu_id (fileuploads st') = map fu_id (fileuploads st)).
Proof.
  split; [|split].
  - intros Hz. unfold FileFinishUpload, FileGet. now rewrite Hz.
  - intros Hz Hnone. unfold FileFinishUpload, FileGet. rewrite Hz.
    rewrite filter_none; [split; reflexivity|].
    apply forallb_forall. intros f Hf. apply negb_true_iff, Z.eqb_neq.
    now apply Hnone.
  - intros Hz Hn f Hf Hid. unfold FileFinishUpload, FileGet. rewrite Hz.
    set (id := DecodeUid (ParseUid fid)) in *.
    assert (E : filter (fun f0 => fu_id f0 =? id) (fileuploads st) = [f]).
    { clear - Hn Hf Hid. revert Hn Hf.
      induction (fileuploads st) as [|x l IH]; simpl; intros Hn Hf;
        [destruct Hf|].
      inversion Hn as [|? ? Hx Hl]; subst. destruct Hf as [->|Hf].
      - rewrite Hid, Z.eqb_refl. f_equal.
        apply filter_none. apply forallb_forall. intros y Hy.
        apply negb_true_iff, Z.eqb_neq. intros Ey. apply Hx.
        rewrite Hid, <- Ey. now apply in_map.
      - assert ((fu_id x =? id) = false) as ->.
        { apply Z.eqb_neq. intros Ex. apply Hx. rewrite Ex, <- Hid.
          now apply in_map. }
        now apply IH. }
    rewrite E. cbn [fileuploads set_fileuploads].
    set (upd := fun f0 : file_row => if fu_id f0 =? id then _ else f0).
    assert (Hids : map fu_id (map upd (fileuploads st))
                   = map fu_id (fileuploads st)).
    { apply map_keeps_key. intros x. unfold upd.
      now destruct (fu_id x =? id). }
    assert (E' : filter (fun f0 => fu_id f0 =? id) (map upd (fileuploads st))
                 = [upd f]).
    { clear - Hn Hf Hid. revert Hn Hf.
      induction (fileuploads st) as [|x l IH]; simpl; intros Hn Hf;
        [destruct Hf|].
      inversion Hn as [|? ? Hx Hl]; subst.
      assert (Hk : forall y, fu_id (upd y) = fu_id y)
        by (intros y; unfold upd; now destruct (fu_id y =? id)).
      rewrite Hk. destruct Hf as [->|Hf].
      - rewrite Hid, Z.eqb_refl. f_equal.
        apply filter_none. apply forallb_forall. intros y Hy.
        apply in_map_iff in Hy as (y0 & <- & Hy0). rewrite Hk.
        apply negb_true_iff, Z.eqb_neq. intros Ey. apply Hx.
        rewrite Hid, <- Ey. now apply in_map.
      - assert ((fu_id x =? id) = false) as ->.
        { apply Z.eqb_neq. intros Ex. apply Hx. rewrite Ex, <- Hid.
          now apply in_map. }
        now apply IH. }
    eexists _, _, _. split; [reflexivity|].
    split; [reflexivity|]. split.
    + cbn [fileuploads set_fileuploads].
      rewrite E'. unfold upd. rewrite Hid, Z.eqb_refl. cbn. reflexivity.
    + cbn. repeat split. exact Hids.
Qed.

End Files.

Lemma FileFinishUpload_cases_witness :
  exists fd st',
    @FileFinishUpload Demo.packages Scenario.in_use "8" 1 2048 50
      = (Some fd, None, st') /\
    @FileGet Demo.packages st' "8" = (Some fd, None) /\
    fd_Status fd = 1 /\ fd_Size fd = 2048 /\ fd_UpdatedAt fd = 50.
Proof.
  destruct (proj2 (proj2 (@FileFinishUpload_cases Demo.packages
                            Scenario.in_use "8" 1 2048 50))
              ltac:(vm_compute; reflexivity)
              ltac:(cbn; repeat constructor; intros [])
              Scenario.upload (or_introl eq_refl)
              ltac:(vm_compute; reflexivity))
    as (fd0 & fd & st' & _ & H & Hg & H1 & H2 & H3 & _).
  exists fd, st'. repeat split; assumption.
Defined.

(** ** Devices *)

Lemma lxor_bound (a b : Z) (n : Z) :
  0 < n -> 0 <= a < 2 ^ n -> 0 <= b < 2 ^ n -> 0 <= Z.lxor a b < 2 ^ n.
Proof.
  intros Hn Ha Hb.
  assert (Hnn : 0 <= Z.lxor a b) by (apply Z.lxor_nonneg; lia).
  split; [exact Hnn|].
  destruct (Z.eq_dec (Z.lxor a b) 0) as [E|E];
    [rewrite E; apply Z.pow_pos_nonneg; lia|].
  assert (0 < Z.lxor a b) by lia.
  apply Z.log2_lt_pow2; [lia|].
  eapply Z.le_lt_trans; [apply Z.log2_lxor; lia|].
  apply Z.max_lub_lt.
  - destruct (Z.eq_dec a 0) as [->|]; [cbn; lia|].
    apply Z.log2_lt_pow2; lia.
  - destruct (Z.eq_dec b 0) as [->|]; [cbn; lia|].
    apply Z.log2_lt_pow2; lia.
Qed.

Lemma fnv_step_bound (hash : Z) (c : ascii) :
  0 <= Fnv.step hash c < 2 ^ 64.
Proof.
  unfold Fnv.step. apply lxor_bound; [lia | apply Z.mod_pos_bound; lia |].
  pose proof (nat_ascii_bounded c). lia.
Qed.

Lemma fnv_write_bound (data : string) :
  forall hash, 0 <= hash < 2 ^ 64 -> 0 <= Fnv.Write hash data < 2 ^ 64.
Proof.
  induction data as [|c rest IH]; simpl; intros hash Hh; [exact Hh|].
  apply IH, fnv_step_bound.
Qed.

Lemma hex_digits_length (fuel : nat) :
  forall (k : nat) (n : Z) (acc : string),
    0 <= n < 16 ^ Z.of_nat (S k) ->
    (String.length (Strconv.hex_digits fuel n acc)
     <= S k + String.length acc)%nat.
Proof.
  induction fuel as [|f IH]; intros k n acc Hn; simpl; [lia|].
  destruct (n <? 16) eqn:E; simpl; [lia|].
  apply Z.ltb_ge in E. destruct k as [|k].
  - change (16 ^ Z.of_nat 1) with 16 in Hn. lia.
  - specialize (IH k (n / 16) (String (Strconv.hex_digit (n mod 16)) acc)).
    simpl String.length in IH.
    assert (0 <= n / 16 < 16 ^ Z.of_nat (S k)) as H.
    { split; [apply Z.div_pos; lia|].
      apply Z.div_lt_upper_bound; [lia|].
      replace (Z.of_nat (S (S k))) with (Z.of_nat (S k) + 1) in Hn by lia.
      rewrite Z.pow_add_r in Hn by lia. lia. }
    specialize (IH H). lia.
Qed.

Lemma hex_digits_nonempty (fuel : nat) (n : Z) (acc : string) :
  (1 <= String.length (Strconv.hex_digits (S fuel) n acc))%nat.
Proof.
  revert n acc. induction fuel as [|f IH]; intros n acc.
  - simpl. destruct (n <? 16); simpl; lia.
  - change (Strconv.hex_digits (S (S f)) n acc) with
      (let acc' := String (Strconv.hex_digit (n mod 16)) acc in
       if n <? 16 then acc' else Strconv.hex_digits (S f) (n / 16) acc').
    cbv zeta. destruct (n <? 16); [simpl; lia | apply IH].
Qed.

Section Devices.

Context {P : Packages}.

(** X22.  [deviceHasher] yields between one and sixteen characters, so the
    hash fits the column [devices.hash]; it is not padded to sixteen. *)
Theorem deviceHasher_fits (deviceID : string) :
  (1 <= String.length (deviceHasher deviceID) <= 16)%nat.
Proof.
  unfold deviceHasher, Strconv.FormatUint16. split.
  - apply hex_digits_nonempty.
  - pose proof (hex_digits_length
      (S (Z.to_nat (Z.log2 (Fnv.Sum64 deviceID)))) 15
      (Fnv.Sum64 deviceID) "") as H.
    simpl String.length in H. rewrite Nat.add_0_r in H. apply H.
    unfold Fnv.Sum64.
    pose proof (fnv_write_bound deviceID Fnv.offset64) as Hb.
    change (16 ^ Z.of_nat 16) with (2 ^ 64). apply Hb.
    unfold Fnv.offset64. lia.
Qed.

(** X23.  A device belongs to one user at a time.  When the user is
    stored, [DeviceUpsert] succeeds and leaves exactly one row with the hash
    of the device, that of the call, the rows of other devices unchanged and
    the hashes unique; [DeviceDelete] of the same user and device then leaves
    no row with the hash.  When the user is not stored the call fails and the
    stored state, an earlier registration of the device included, is kept. *)
Theorem DeviceUpsert_one_owner (st : Store) (uid : Uid) (def : DeviceDef) :
  let hash := deviceHasher (DeviceId def) in
  let row :=
    {| dv_userid := DecodeUid uid; dv_hash := hash;
       dv_deviceid := DeviceId def; dv_platform := Platform def;
       dv_lastseen := LastSeen def; dv_lang := Lang def |} in
  (existsb (fun u => u_id u =? DecodeUid uid) (users (base st)) = true ->
   exists st',
     DeviceUpsert st uid def = (None, st') /\
     filter (fun r => String.eqb (dv_hash r) hash) (devices st') = [row] /\
     filter (fun r => negb (String.eqb (dv_hash r) hash)) (devices st')
       = filter (fun r => negb (String.eqb (dv_hash r) hash)) (devices st) /\
     (NoDup (map dv_hash (devices st)) -> NoDup (map dv_hash (devices st'))) /\
     exists st'',
       DeviceDelete st' uid (DeviceId def) = (None, st'') /\
       filter (fun r => String.eqb (dv_hash r) hash) (devices st'') = []) /\
  (existsb (fun u => u_id u =? DecodeUid uid) (users (base st)) = false ->
   DeviceUpsert st uid def = (Some (ErrEngine ForeignKeyViolation), st)).
Proof.
  cbv zeta. unfold DeviceUpsert, insert_device.
  cbn [dv_hash dv_userid devices set_devices base].
  set (hash := deviceHasher (DeviceId def)).
  set (row := {| dv_userid := DecodeUid uid; dv_hash := hash;
                 dv_deviceid := DeviceId def; dv_platform := Platform def;
                 dv_lastseen := LastSeen def; dv_lang := Lang def |}).
  set (others := filter (fun r => negb (String.eqb (dv_hash r) hash))
                   (devices st)).
  assert (Hothers : forall r, In r others ->
                      String.eqb (dv_hash r) hash = false).
  { intros r Hr. apply filter_In in Hr as [_ Hr]. now apply negb_true_iff. }
  assert (Ek : existsb (fun r => String.eqb (dv_hash r) hash) others = false).
  { apply not_true_iff_false. intros H.
    apply existsb_exists in H as (r & Hr & E). now rewrite (Hothers r Hr) in E. }
  rewrite Ek. split.
  - intros Hu. rewrite Hu. eexists. split; [reflexivity|].
    cbn [devices set_devices]. split; [|split; [|split]].
    + rewrite filter_app.
      rewrite filter_none by (apply forallb_forall; intros r Hr;
                              apply negb_true_iff; now apply Hothers).
      cbn [filter dv_hash row]. now rewrite String.eqb_refl.
    + rewrite filter_app. cbn [filter dv_hash row].
      rewrite String.eqb_refl. cbn [negb]. rewrite app_nil_r.
      apply filter_all. apply forallb_forall. intros r Hr.
      apply negb_true_iff. now apply Hothers.
    + intros Hn. rewrite map_app. apply NoDup_snoc.
      * now apply NoDup_map_filter.
      * intros Hin. apply in_map_iff in Hin as (r & E & Hr).
        specialize (Hothers r Hr). cbn in E. rewrite E in Hothers.
        now rewrite String.eqb_refl in Hothers.
    + unfold DeviceDelete, deviceDelete.
      destruct (String.eqb (DeviceId def) "");
        (eexists; split; [reflexivity|]); cbn [devices set_devices];
        rewrite filter_filter; apply filter_none; apply forallb_forall;
        intros r Hr; apply negb_true_iff;
        apply in_app_iff in Hr as [Hr | [<- | []]].
      * rewrite (Hothers r Hr). now rewrite andb_false_r.
      * cbn. now rewrite Z.eqb_refl.
      * rewrite (Hothers r Hr). now rewrite andb_false_r.
      * cbn. fold hash. now rewrite Z.eqb_refl, String.eqb_refl.
  - intros Hu. rewrite Hu. reflexivity.
Qed.

End Devices.

Lemma DeviceUpsert_one_owner_witness :
  exists st',
    @DeviceUpsert Demo.packages Scenario.in_use 8 Scenario.phone = (None, st') /\
    map dv_userid
      (filter (fun r => String.eqb (dv_hash r) (deviceHasher "device-1"))
         (devices st')) = [7].
Proof.
  destruct (proj1 (@DeviceUpsert_one_owner Demo.packages Scenario.in_use 8
                     Scenario.phone) ltac:(vm_compute; reflexivity))
    as (st' & H & Hone & _).
  exists st'. split; [exact H|].
  change (DeviceId Scenario.phone) with "device-1" in Hone.
  rewrite Hone. reflexivity.
Defined.

(** ** Sharing a topic *)

Section Sharing.

Context {P : Packages}.

Variable Marshal : iface -> string.
Variable IsOwner : string -> string -> bool.

Lemma createSubscription_cases (tx : DB) sub undelete :
  (existsb (holds sub) (subscriptions tx) = true /\
   createSubscription Marshal IsOwner tx sub undelete
     = (Some (ErrEngine UniqueViolation), tx)) \/
  (existsb (holds sub) (subscriptions tx) = false /\
   existsb (fun u => u_id u =? DecodeUid (ParseUid (User sub))) (users tx)
     = false /\
   createSubscription Marshal IsOwner tx sub undelete
     = (Some (ErrEngine ForeignKeyViolation), tx)) \/
  (existsb (holds sub) (subscriptions tx) = false /\
   exists tx',
     createSubscription Marshal IsOwner tx sub undelete = (None, tx') /\
     subscriptions tx' =
       (subscriptions tx ++
        [new_subscription Marshal sub (DecodeUid (ParseUid (User sub)))])%list /\
     users tx' = users tx /\
     map t_name (topics tx') = map t_name (topics tx)).
Proof.
  unfold createSubscription, insert_subscription.
  cbn [s_topic s_userid new_subscription].
  change (existsb _ (subscriptions tx)) with
    (existsb (holds sub) (subscriptions tx)).
  destruct (existsb (holds sub) (subscriptions tx)).
  - left. cbn [isDupe is_null andb]. auto.
  - right. destruct (existsb _ (users tx)).
    + right. split; [reflexivity|]. cbn [is_null andb].
      destruct (IsOwner _ _); eexists; (split; [reflexivity|]);
        cbn [subscriptions users topics set_subscriptions set_topics];
        repeat split.
      apply map_keeps_key. intros t.
      now destruct (String.eqb (t_name t) (Topic sub)).
    + left. cbn [isDupe is_null andb]. auto.
Qed.

Lemma share_all_collision (shares : list Subscription) :
  forall (tx : DB) sub r,
    In sub shares -> In r (subscriptions tx) -> holds sub r = true ->
    exists e tx', share_all Marshal IsOwner tx shares = (Some e, tx').
Proof.
  induction shares as [|s0 rest IH]; intros tx sub r Hs Hr Hh; [destruct Hs|].
  cbn [share_all].
  destruct (createSubscription_cases tx s0 true)
    as [(_ & ->) | [(_ & _ & ->) | (Hfree & tx' & -> & Hsubs & _)]];
    [now eexists _, _ | now eexists _, _ |].
  destruct Hs as [<-|Hs].
  - exfalso. apply not_true_iff_false in Hfree. apply Hfree.
    apply existsb_exists. now exists r.
  - apply (IH tx' sub r Hs); [|exact Hh].
    rewrite Hsubs. apply in_app_iff. now left.
Qed.

(** X24.  [TopicShare] never revives or updates a stored subscription:
    when one of the shares names a topic and user that already have a row,
    deleted or not, the call fails, reports 0 and leaves the stored state as
    it was. *)
Theorem TopicShare_never_revives (db : DB) (shares : list Subscription)
    (sub : Subscription) (r : sub_row) :
  In sub shares -> In r (subscriptions db) ->
  s_topic r = Topic sub -> s_userid r = DecodeUid (ParseUid (User sub)) ->
  exists e, TopicShare Marshal IsOwner db shares = (0, Some e, db).
Proof.
  intros Hs Hr Ht Hu. unfold TopicShare.
  destruct (share_all_collision shares db sub r Hs Hr) as (e & tx' & ->).
  - unfold holds. now rewrite Ht, Hu, String.eqb_refl, Z.eqb_refl.
  - now exists e.
Qed.

Lemma share_all_done (shares : list Subscription) :
  forall (tx tx' : DB),
    share_all Marshal IsOwner tx shares = (None, tx') ->
    subscriptions tx' =
      (subscriptions tx ++
       map (fun s => new_subscription Marshal s (DecodeUid (ParseUid (User s))))
         shares)%list /\
    forall sub, In sub shares ->
      filter (holds sub) (subscriptions tx') =
        [new_subscription Marshal sub (DecodeUid (ParseUid (User sub)))].
Proof.
  induction shares as [|s0 rest IH]; intros tx tx' H.
  - cbn in H. injection H as <-. split; [now rewrite app_nil_r|].
    intros sub [].
  - cbn [share_all] in H.
    destruct (createSubscription_cases tx s0 true)
      as [(_ & E) | [(_ & _ & E) | (Hfree & tx1 & E & Hsubs & _)]];
      rewrite E in H; [discriminate | discriminate |].
    destruct (IH tx1 tx' H) as [Hall Hone]. split.
    + rewrite Hall, Hsubs, <- app_assoc. reflexivity.
    + intros sub [<-|Hs]; [|now apply Hone].
      rewrite Hall, Hsubs, !filter_app.
      rewrite (filter_none _ (subscriptions tx)).
      2:{ apply forallb_forall. intros r Hr. apply negb_true_iff.
          apply not_true_iff_false. intros Hh.
          apply not_true_iff_false in Hfree. apply Hfree.
          apply existsb_exists. now exists r. }
      cbn [filter app]. unfold holds at 1.
      cbn [s_topic s_userid new_subscription].
      rewrite String.eqb_refl, Z.eqb_refl. cbn [andb app]. f_equal.
      apply filter_none. apply forallb_forall. intros r Hr.
      apply negb_true_iff, not_true_iff_false. intros Hh.
      apply in_map_iff in Hr as (s & <- & Hs).
      destruct (share_all_collision rest tx1 s
                  (new_subscription Marshal s0
                     (DecodeUid (ParseUid (User s0)))) Hs)
        as (e & tx2 & E2).
      * rewrite Hsubs. apply in_app_iff. right. now left.
      * unfold holds in *. cbn [s_topic s_userid new_subscription] in *.
        apply andb_prop in Hh as [H1 H2].
        apply String.eqb_eq in H1. apply Z.eqb_eq in H2.
        now rewrite <- H1, <- H2, String.eqb_refl, Z.eqb_refl.
      * rewrite E2 in H. discriminate.
Qed.

(** X25.  When [TopicShare] succeeds it reports the number of shares,
    and [SubscriptionGet] returns each of them: the subscription of that topic
    and user, not deleted, with the creation and update times of the share and
    its private value as encoded and decoded again. *)
Theorem TopicShare_round_trip (db : DB) (shares : list Subscription)
    (n : Z) (db' : DB) :
  TopicShare Marshal IsOwner db shares = (n, None, db') ->
  n = Z.of_nat (List.length shares) /\
  forall sub user,
    In sub shares -> DecodeUid user = DecodeUid (ParseUid (User sub)) ->
    exists got,
      SubscriptionGet db' (Topic sub) user = (Some got, None) /\
      Topic got = Topic sub /\
      sub_header got =
        {| CreatedAt := CreatedAt (sub_header sub);
           UpdatedAt := UpdatedAt (sub_header sub); DeletedAt := None |} /\
      Private got = Unmarshal (toJSON Marshal (Private sub)).
Proof.
  unfold TopicShare.
  destruct (share_all Marshal IsOwner db shares) as [[e|] tx] eqn:E;
    [discriminate|].
  intros [= <- <-]. split; [reflexivity|].
  intros sub user Hs Hu.
  destruct (share_all_done shares db tx E) as [_ Hone].
  specialize (Hone sub Hs). unfold SubscriptionGet.
  replace (filter _ (subscriptions tx)) with
    (filter (holds sub) (subscriptions tx))
    by (apply filter_ext; intros r; unfold holds; now rewrite Hu).
  rewrite Hone. cbn. eexists. split; [reflexivity|]. cbn. auto.
Qed.

End Sharing.

Lemma TopicShare_never_revives_witness :
  exists e,
    @TopicShare Demo.packages Scenario.marshal Scenario.is_owner
      Sample.deleted_topic [Scenario.share "8" "grpT"]
    = (0, Some e, Sample.deleted_topic).
Proof.
  apply (@TopicShare_never_revives Demo.packages Scenario.marshal
           Scenario.is_owner Sample.deleted_topic
           [Scenario.share "8" "grpT"] (Scenario.share "8" "grpT")
           (Sample.subscription 7 "grpT" (Some 50))).
  - now left.
  - now left.
  - reflexivity.
  - vm_compute. reflexivity.
Defined.

Lemma TopicShare_round_trip_witness :
  exists db' got,
    @TopicShare Demo.packages Scenario.marshal Scenario.is_owner
      Scenario.subscribed [Scenario.share "10" "grpT"] = (1, None, db') /\
    @SubscriptionGet Demo.packages db' "grpT" 10 = (Some got, None) /\
    Private got = IJson "[1]".
Proof.
  assert (H : @TopicShare Demo.packages Scenario.marshal Scenario.is_owner
                Scenario.subscribed [Scenario.share "10" "grpT"]
              = (1, None,
                 snd (@TopicShare Demo.packages Scenario.marshal
                        Scenario.is_owner Scenario.subscribed
                        [Scenario.share "10" "grpT"])))
    by (vm_compute; reflexivity).
  destruct (proj2 (@TopicShare_round_trip Demo.packages Scenario.marshal
                     Scenario.is_owner _ _ _ _ H)
              (Scenario.share "10" "grpT") 10 (or_introl eq_refl)
              ltac:(vm_compute; reflexivity))
    as (got & Hg & _ & _ & Hp).
  eexists _, got. split; [exact H|]. split; [exact Hg | exact Hp].
Defined.

(** ** Creating topics *)

Section TopicCreation.

Context {P : Packages}.

Variable Marshal : iface -> string.
Variable IsOwner : string -> string -> bool.

Lemma insert_tag_topic (tx : DB) topic tag :
  (existsb (fun r => String.eqb (tt_topic r) topic &&
                     String.eqb (tt_tag r) tag) (topictags tx) = true /\
   insert_tag tx (TopicKey topic) tag = inr (ErrEngine UniqueViolation)) \/
  (insert_tag tx (TopicKey topic) tag = inr (ErrEngine ForeignKeyViolation)) \/
  (exists tx', insert_tag tx (TopicKey topic) tag = inl tx' /\
     topics tx' = topics tx /\
     topictags tx' =
       (topictags tx ++ [{| tt_topic := topic; tt_tag := tag |}])%list).
Proof.
  unfold insert_tag.
  destruct (existsb _ (topictags tx)); [left; auto|]. right.
  destruct (existsb _ (topics tx)); [right | left; reflexivity].
  eexists. split; [reflexivity|]. split; reflexivity.
Qed.

Lemma addTags_done (topic : string) (tags : list string) (b : bool) :
  forall tx tx',
    addTags tx (TopicKey topic) tags b = (None, tx') ->
    topics tx' = topics tx /\
    topictags tx' =
      (topictags tx ++
       map (fun tag => {| tt_topic := topic; tt_tag := tag |}) tags)%list.
Proof.
  induction tags as [|tag rest IH]; intros tx tx' H.
  - cbn in H. injection H as <-. split; [reflexivity | now rewrite app_nil_r].
  - cbn [addTags] in H.
    destruct (insert_tag_topic tx topic tag)
      as [(_ & E) | [E | (tx1 & E & Ht & Hg)]]; rewrite E in H;
      cbn [isDupe] in H; [discriminate | discriminate |].
    destruct (IH tx1 tx' H) as [Ht' Hg']. split; [congruence|].
    rewrite Hg', Hg, <- app_assoc. reflexivity.
Qed.

Lemma addTags_repeated (topic : string) (tags : list string) (b : bool) :
  forall tx tag,
    In tag tags ->
    In {| tt_topic := topic; tt_tag := tag |} (topictags tx) ->
    exists e tx', addTags tx (TopicKey topic) tags b = (Some e, tx').
Proof.
  induction tags as [|t0 rest IH]; intros tx tag Hin Hrow; [destruct Hin|].
  cbn [addTags].
  destruct (insert_tag_topic tx topic t0)
    as [(_ & E) | [E | (tx1 & E & Ht & Hg)]]; rewrite E; cbn [isDupe];
    [now eexists _, _ | now eexists _, _ |].
  destruct Hin as [<-|Hin].
  - exfalso. unfold insert_tag in E.
    assert (Hex : existsb (fun r => String.eqb (tt_topic r) topic &&
                             String.eqb (tt_tag r) t0) (topictags tx) = true).
    { apply existsb_exists. eexists. split; [exact Hrow|].
      cbn. now rewrite !String.eqb_refl. }
    rewrite Hex in E. discriminate.
  - apply (IH tx1 tag Hin). rewrite Hg. apply in_app_iff. now left.
Qed.

Lemma addTags_twice (topic : string) (b : bool) t1 tag t2 t3 :
  forall tx,
    exists e tx',
      addTags tx (TopicKey topic) (t1 ++ tag :: t2 ++ tag :: t3) b
        = (Some e, tx').
Proof.
  induction t1 as [|t0 t1 IH]; intros tx; cbn [app addTags].
  - destruct (insert_tag_topic tx topic tag)
      as [(_ & E) | [E | (tx1 & E & Ht & Hg)]]; rewrite E; cbn [isDupe];
      [now eexists _, _ | now eexists _, _ |].
    apply (addTags_repeated topic _ b tx1 tag).
    + apply in_app_iff. right. now left.
    + rewrite Hg. apply in_app_iff. right. now left.
  - destruct (insert_tag_topic tx topic t0)
      as [(_ & E) | [E | (tx1 & E & Ht & Hg)]]; rewrite E; cbn [isDupe];
      [now eexists _, _ | now eexists _, _ | apply IH].
Qed.

(** X26.  [TopicCreate] is all or nothing.  A name that is already
    stored, or a tag listed twice, makes it fail and leave the stored state as
    it was.  When it succeeds [TopicGet] returns the topic with its times, no
    deletion time, its public value as encoded and decoded again, its tags and
    sequence id 0, and one row per tag is added to [topictags]. *)
Theorem TopicCreate_cases (db : DB) (topic : TopicRec) :
  (forall t, In t (topics db) -> t_name t = top_Id topic ->
     TopicCreate Marshal db topic = (Some (ErrEngine UniqueViolation), db)) /\
  (forall t1 tag t2 t3,
     top_Tags topic = (t1 ++ tag :: t2 ++ tag :: t3)%list ->
     exists e, TopicCreate Marshal db topic = (Some e, db)) /\
  (forall db',
     TopicCreate Marshal db topic = (None, db') ->
     (exists top,
        TopicGet db' (top_Id topic) = (Some top, None) /\
        top_Id top = top_Id topic /\
        top_header top =
          {| CreatedAt := CreatedAt (top_header topic);
             UpdatedAt := UpdatedAt (top_header topic); DeletedAt := None |} /\
        top_Public top = Unmarshal (toJSON Marshal (top_Public topic)) /\
        top_Tags top = top_Tags topic /\ top_SeqId top = 0) /\
     topictags db' =
       (topictags db ++
        map (fun tag => {| tt_topic := top_Id topic; tt_tag := tag |})
          (top_Tags topic))%list).
Proof.
  unfold TopicCreate, topicCreate, insert_topic. cbn [t_name].
  split; [|split].
  - intros t Ht Hn.
    assert (E : existsb (fun t0 => String.eqb (t_name t0) (top_Id topic))
                  (topics db) = true).
    { apply existsb_exists. exists t. split; [exact Ht|].
      now apply String.eqb_eq. }
    now rewrite E.
  - intros t1 tag t2 t3 Htags.
    destruct (existsb _ (topics db)); [now eexists|].
    rewrite Htags.
    match goal with
    | |- context [addTags ?tx ?k ?l ?b] =>
        destruct (addTags_twice (top_Id topic) b t1 tag t2 t3 tx)
          as (e & tx' & ->)
    end.
    now exists e.
  - intros db'.
    destruct (existsb _ (topics db)) eqn:Ek; [discriminate|].
    match goal with
    | |- context [addTags ?tx ?k ?l ?b] =>
        destruct (addTags tx k l b) as [[e|] tx'] eqn:Ea; [discriminate|];
        apply addTags_done in Ea as [Ht Hg]
    end.
    intros [= <-]. cbn [topics topictags set_topics] in Ht, Hg.
    split; [|exact Hg].
    unfold TopicGet. rewrite Ht, filter_app.
    rewrite (filter_none _ (topics db)).
    2:{ apply forallb_forall. intros t Hin. apply negb_true_iff.
        apply not_true_iff_false. intros E.
        apply not_true_iff_false in Ek. apply Ek.
        apply existsb_exists. now exists t. }
    cbn [filter app t_name]. rewrite String.eqb_refl.
    eexists. split; [reflexivity|]. cbn. repeat split.
Qed.

(** X27.  [TopicCreateP2P] is all or nothing.  Any error leaves the
    stored state as it was, and a row already stored for the initiator or for
    the invited user makes the call fail.  When it succeeds the two
    subscriptions are stored after the earlier ones and exactly one topic of
    that name is stored, not deleted and without owner, whatever the modes of
    the initiator. *)
Theorem TopicCreateP2P_cases (db : DB) (initiator invited : Subscription) :
  (forall e db', TopicCreateP2P Marshal IsOwner db initiator invited
                   = (Some e, db') -> db' = db) /\
  (forall r, In r (subscriptions db) ->
     holds initiator r = true \/ holds invited r = true ->
     exists e, TopicCreateP2P Marshal IsOwner db initiator invited
                 = (Some e, db)) /\
  (forall db',
     TopicCreateP2P Marshal IsOwner db initiator invited = (None, db') ->
     subscriptions db' =
       (subscriptions db ++
        [new_subscription Marshal initiator
           (DecodeUid (ParseUid (User initiator)));
         new_subscription Marshal invited
           (DecodeUid (ParseUid (User invited)))])%list /\
     exists t,
       filter (fun t => String.eqb (t_name t) (Topic initiator)) (topics db')
         = [t] /\
       t_owner t = DecodeUid (ParseUid "") /\ t_deletedat t = None).
Proof.
  unfold TopicCreateP2P. split; [|split].
  - intros e db'.
    destruct (createSubscription _ _ db initiator false) as [[e1|] tx1];
      [now intros [= _ <-]|].
    destruct (createSubscription _ _ tx1 invited true) as [[e2|] tx2];
      [now intros [= _ <-]|].
    destruct (topicCreate _ tx2 _) as [[e3|] tx3];
      [now intros [= _ <-] | discriminate].
  - intros r Hr Hh.
    destruct (createSubscription_cases Marshal IsOwner db initiator false)
      as [(_ & ->) | [(_ & _ & ->) | (Hfree & tx1 & -> & Hsubs & _)]];
      [now eexists | now eexists |].
    destruct (createSubscription_cases Marshal IsOwner tx1 invited true)
      as [(_ & ->) | [(_ & _ & ->) | (Hfree2 & tx2 & -> & Hsubs2 & _)]];
      [now eexists | now eexists |].
    exfalso. destruct Hh as [Hh|Hh].
    + apply not_true_iff_false in Hfree. apply Hfree.
      apply existsb_exists. now exists r.
    + apply not_true_iff_false in Hfree2. apply Hfree2.
      apply existsb_exists. exists r. split; [|exact Hh].
      rewrite Hsubs. apply in_app_iff. now left.
  - intros db'.
    destruct (createSubscription_cases Marshal IsOwner db initiator false)
      as [(_ & ->) | [(_ & _ & ->) | (Hfree & tx1 & -> & Hsubs & _ & Hn1)]];
      [discriminate | discriminate |].
    destruct (createSubscription_cases Marshal IsOwner tx1 invited true)
      as [(_ & ->) | [(_ & _ & ->) | (Hfree2 & tx2 & -> & Hsubs2 & _ & Hn2)]];
      [discriminate | discriminate |].
    unfold topicCreate, insert_topic. cbn [t_name top_Id top_Tags addTags].
    destruct (existsb _ (topics tx2)) eqn:Ek; [discriminate|].
    intros [= <-]. cbn [subscriptions topics set_topics]. split.
    + rewrite Hsubs2, Hsubs, <- app_assoc. reflexivity.
    + eexists. split.
      * rewrite filter_app. rewrite (filter_none _ (topics tx2)).
        2:{ apply forallb_forall. intros t Hin. apply negb_true_iff.
            apply not_true_iff_false. intros E.
            apply not_true_iff_false in Ek. apply Ek.
            apply existsb_exists. now exists t. }
        cbn [filter app t_name]. now rewrite String.eqb_refl.
      * split; reflexivity.
Qed.

End TopicCreation.

Lemma TopicCreate_cases_witness :
  exists db' top,
    @TopicCreate Demo.packages Scenario.marshal Scenario.subscribed
      Scenario.group = (None, db') /\
    @TopicGet Demo.packages db' "grpN" = (Some top, None) /\
    top_Tags top = ["city:paris"; "lang:fr"] /\
    List.length (topictags db') = 2%nat.
Proof.
  assert (H : @TopicCreate Demo.packages Scenario.marshal Scenario.subscribed
                Scenario.group
              = (None,
                 snd (@TopicCreate Demo.packages Scenario.marshal
                        Scenario.subscribed Scenario.group)))
    by (vm_compute; reflexivity).
  destruct (proj2 (proj2 (@TopicCreate_cases Demo.packages Scenario.marshal
                            Scenario.subscribed Scenario.group)) _ H)
    as ((top & Hg & _ & _ & _ & Ht & _) & Htags).
  eexists _, top. split; [exact H|]. split; [exact Hg|].
  split; [exact Ht|]. rewrite Htags. reflexivity.
Defined.

Lemma TopicCreateP2P_cases_witness :
  exists db',
    @TopicCreateP2P Demo.packages Scenario.marshal Scenario.is_owner
      Scenario.subscribed (Scenario.share "8" "p2p8_10")
      (Scenario.share "10" "p2p8_10") = (None, db') /\
    List.length (subscriptions db') = 3%nat /\
    map t_owner
      (filter (fun t => String.eqb (t_name t) "p2p8_10") (topics db')) = [0].
Proof.
  assert (H : @TopicCreateP2P Demo.packages Scenario.marshal
                Scenario.is_owner Scenario.subscribed
                (Scenario.share "8" "p2p8_10") (Scenario.share "10" "p2p8_10")
              = (None,
                 snd (@TopicCreateP2P Demo.packages Scenario.marshal
                        Scenario.is_owner Scenario.subscribed
                        (Scenario.share "8" "p2p8_10")
                        (Scenario.share "10" "p2p8_10"))))
    by (vm_compute; reflexivity).
  destruct (proj2 (proj2 (@TopicCreateP2P_cases Demo.packages Scenario.marshal
                            Scenario.is_owner Scenario.subscribed
                            (Scenario.share "8" "p2p8_10")
                            (Scenario.share "10" "p2p8_10"))) _ H)
    as (Hs & t & Ht & Ho & _).
  eexists. split; [exact H|]. split.
  - rewrite Hs. reflexivity.
  - change (Topic (Scenario.share "8" "p2p8_10")) with "p2p8_10" in Ht.
    rewrite Ht. cbn [map]. rewrite Ho. vm_compute. reflexivity.
Defined.

(** ** Disabled users *)

Lemma NoDup_map_same {A K} (key : A -> K) (l : list A) (x y : A) :
  NoDup (map key l) -> In x l -> In y l -> key x = key y -> x = y.
Proof.
  induction l as [|z l IH]; simpl; intros Hn Hx Hy E; [destruct Hx|].
  inversion Hn as [|? ? Hz Hl]; subst.
  destruct Hx as [->|Hx], Hy as [->|Hy].
  - reflexivity.
  - exfalso. apply Hz. rewrite E. now apply in_map.
  - exfalso. apply Hz. rewrite <- E. now apply in_map.
  - now apply IH.
Qed.

Section DisabledUsers.

Context {P : Packages}.

(** X28.  Every identifier that [UserGetDisabled] returns is that of a
    stored user deleted at or after the given time, and, the identifier codec
    being as specified and user ids unique and valid, [UserGet] returns
    nothing for it. *)
Theorem UserGetDisabled_hidden (db : DB) (since : time) (uid : Uid) :
  In uid (fst (UserGetDisabled db since)) ->
  (exists u d, In u (users db) /\ uid = EncodeUid (u_id u) /\
               u_deletedat u = Some d /\ since <= d) /\
  (codec_contract ->
   NoDup (map u_id (users db)) ->
   (forall u, In u (users db) -> 1 <= u_id u <= Go.MaxInt64) ->
   UserGet db uid = (None, None)).
Proof.
  unfold UserGetDisabled. cbn [fst]. intros Hin.
  apply in_map_iff in Hin as (u & <- & Hu).
  apply filter_In in Hu as [Hu Hd].
  destruct (u_deletedat u) as [d|] eqn:Ed; [|discriminate].
  apply Z.leb_le in Hd. split.
  - exists u, d. auto.
  - intros (Hround & _) Hn Hids. apply UserGet_deleted.
    intros u' Hu' Hid. rewrite Hround in Hid by now apply Hids.
    rewrite (NoDup_map_same u_id (users db) u' u Hn Hu' Hu Hid), Ed.
    discriminate.
Qed.

End DisabledUsers.

Lemma UserGetDisabled_hidden_witness :
  fst (@UserGetDisabled Demo.packages Sample.deleted_topic 40) = [10] /\
  @UserGet Demo.packages Sample.deleted_topic 10 = (None, None).
Proof.
  split; [vm_compute; reflexivity|].
  apply (proj2 (@UserGetDisabled_hidden Demo.packages Sample.deleted_topic 40
                  10 ltac:(vm_compute; now left))).
  - exact demo_contract.
  - cbn. repeat (constructor; [cbn; intuition congruence|]). constructor.
  - intros u [<-|[<-|[]]]; vm_compute; split; discriminate.
Defined.

(** ** Results of the tag search *)

Lemma NoDup_map_insert_by {A K} (f : A -> K) (le : A -> A -> bool) (x : A)
    (l : list A) :
  NoDup (map f (x :: l)) -> NoDup (map f (insert_by le x l)).
Proof.
  induction l as [|y l IH]; simpl; intros Hn; [exact Hn|].
  destruct (le x y); [exact Hn|]. simpl.
  inversion Hn as [|? ? Hx Hl]; subst. inversion Hl as [|? ? Hy Hl']; subst.
  constructor.
  - intros Hin. apply in_map_iff in Hin as (z & Ez & Hz).
    apply In_insert_by in Hz as [->|Hz].
    + apply Hx. left. now symmetry.
    + apply Hy. rewrite <- Ez. now apply in_map.
  - apply IH. constructor; [|exact Hl'].
    intros Hin. apply Hx. now right.
Qed.

Lemma NoDup_map_sort_by {A K} (f : A -> K) (le : A -> A -> bool)
    (l : list A) :
  NoDup (map f l) -> NoDup (map f (sort_by le l)).
Proof.
  induction l as [|x l IH]; simpl; intros Hn; [constructor|].
  apply NoDup_map_insert_by. simpl. inversion Hn as [|? ? Hx Hl]; subst.
  constructor; [|now apply IH].
  intros Hin. apply Hx. apply in_map_iff in Hin as (z & Ez & Hz).
  apply In_sort_by in Hz. rewrite <- Ez. now apply in_map.
Qed.

Section OneRowPerEntity.

Variables E T K : Type.
Variable eqb : K -> K -> bool.
Variable key : E -> K.
Variable owner : T -> K.
Variable tag : T -> string.
Variable deleted : E -> bool.
Hypothesis eqb_spec : forall x y, eqb x y = true <-> x = y.

Lemma dedup_NoDup (l : list K) : NoDup (dedup eqb l).
Proof.
  induction l as [|k l IH]; simpl; constructor.
  - intros Hin. apply filter_In in Hin as [_ Hin].
    assert (eqb k k = true) as Hkk by now apply eqb_spec.
    rewrite Hkk in Hin. discriminate.
  - clear - IH. induction IH as [|x d Hx Hd IHd]; simpl; [constructor|].
    destruct (negb (eqb x k)); [|exact IHd].
    constructor; [|exact IHd].
    intros Hin. apply filter_In in Hin as [Hin _]. contradiction.
Qed.

(** The keys of the entities that a list of groups contributes, one group
    per key of [ks]. *)
Lemma selected_keys (rows : list (E * option T)) (keep : list (E * option T) -> bool)
    (ks : list K) :
  NoDup ks ->
  NoDup
    (map (fun x : E * Z => key (fst x))
       (flat_map (fun g : list (E * option T) =>
          match g with
          | et :: _ => [(fst et, Z.of_nat (List.length g))]
          | [] => []
          end)
          (filter keep
             (map (fun k => filter (fun r : E * option T =>
                                      eqb (key (fst r)) k) rows) ks)))) /\
  forall k,
    In k (map (fun x : E * Z => key (fst x))
       (flat_map (fun g : list (E * option T) =>
          match g with
          | et :: _ => [(fst et, Z.of_nat (List.length g))]
          | [] => []
          end)
          (filter keep
             (map (fun k => filter (fun r : E * option T =>
                                      eqb (key (fst r)) k) rows) ks)))) ->
    In k ks.
Proof.
  induction 1 as [|k0 ks Hk Hn IH]; simpl; [split; [constructor | intros k []]|].
  destruct IH as [IHn IHin].
  set (g := filter (fun r : E * option T => eqb (key (fst r)) k0) rows) in *.
  destruct (keep g); [|split; [exact IHn | intros k Hin; right; now apply IHin]].
  simpl. destruct g as [|et rest] eqn:Eg; simpl;
    [split; [exact IHn | intros k Hin; right; now apply IHin]|].
  assert (Het : key (fst et) = k0).
  { assert (In et g) as H by (rewrite Eg; now left).
    apply filter_In in H as [_ H]. now apply eqb_spec. }
  split.
  - constructor; [|exact IHn]. rewrite Het. intros Hin. apply Hk.
    now apply IHin.
  - intros k [<-|Hin]; [left; now symmetry | right; now apply IHin].
Qed.

Lemma tag_search_distinct (limit : Z) (es : list E) (tagrows : list T)
    (req opt : list string) :
  NoDup (map (fun x : E * Z => key (fst x))
           (tag_search eqb key owner tag deleted limit es tagrows req opt)).
Proof.
  unfold tag_search, limit_rows. rewrite <- firstn_map.
  apply NoDup_limit_rows. apply NoDup_map_sort_by.
  unfold group_by.
  set (rows := filter _ (left_join _ es tagrows)).
  destruct (0 <? List.length req)%nat.
  - apply (selected_keys rows _ _ (dedup_NoDup _)).
  - rewrite <- (filter_all (fun _ => true)
                  (map (fun k => filter (fun r : E * option T =>
                                           eqb (key (fst r)) k) rows)
                     (dedup eqb (map (fun et : E * option T => key (fst et))
                                   rows))))
      by (apply forallb_forall; reflexivity).
    apply (selected_keys rows _ _ (dedup_NoDup _)).
Qed.

End OneRowPerEntity.

Section SearchResults.

Context {P : Packages}.

(** X29.  [FindUsers] and [FindTopics] return each entity once: the
    results of [FindUsers] come from user rows with pairwise distinct ids, and
    no two results of [FindTopics] name the same topic, whatever the tag rows
    are.  Neither returns more results than the limit of the adapter. *)
Theorem search_results_distinct (a : adapter) (db : DB) (uid : Uid)
    (req opt : list string) :
  (exists rows,
     fst (FindUsers a db uid req opt) =
       map (fun u => found (u_createdat u) (u_updatedat u)
                       (UidString (EncodeUid (u_id u))) "" (u_public u)
                       (u_access u) (u_tags u) (req ++ opt)) rows /\
     NoDup (map u_id rows)) /\
  NoDup (map Topic (fst (FindTopics a db req opt))) /\
  Z.of_nat (List.length (fst (FindUsers a db uid req opt)))
    <= Z.max 0 (maxResults a) /\
  Z.of_nat (List.length (fst (FindTopics a db req opt)))
    <= Z.max 0 (maxResults a).
Proof.
  assert (Hu : NoDup (map (fun um : user_row * Z => u_id (fst um))
                        (find_users_rows a db req opt)))
    by (apply tag_search_distinct; intros x y; apply Z.eqb_eq).
  assert (Ht : NoDup (map (fun tm : topic_row * Z => t_name (fst tm))
                        (find_topics_rows a db req opt)))
    by (apply tag_search_distinct; intros x y; apply String.eqb_eq).
  assert (Lu : Z.of_nat (List.length (find_users_rows a db req opt))
               <= Z.max 0 (maxResults a))
    by (unfold find_users_rows, tag_search; apply length_limit_rows).
  assert (Lt : Z.of_nat (List.length (find_topics_rows a db req opt))
               <= Z.max 0 (maxResults a))
    by (unfold find_topics_rows, tag_search; apply length_limit_rows).
  unfold FindUsers, FindTopics. cbn [fst].
  split; [|split; [|split]].
  - exists (map fst (filter (fun um : user_row * Z =>
                               negb (u_id (fst um) =? DecodeUid uid))
                       (find_users_rows a db req opt))).
    split; [now rewrite map_map|].
    rewrite map_map. now apply NoDup_map_filter.
  - rewrite map_map. exact Ht.
  - rewrite length_map.
    pose proof (length_filter_le
      (fun um : user_row * Z => negb (u_id (fst um) =? DecodeUid uid))
      (find_users_rows a db req opt)). lia.
  - now rewrite length_map.
Qed.

End SearchResults.
